(** * SENTRIX: the detection pipeline, embedded and checked against its specification

    A shallow embedding of the parts of the SENTRIX backend that the
    specification makes promises about:

    - [Risk]       app/risks/rules.py, app/risks/model.py, app/risks/engine.py
    - [Osint]      app/osint/rules.py, app/osint/correlator.py
    - [Validation] app/utils/validation_analyzer.py, app/blueprints/tasks/validation.py
    - [Crawler]    app/utils/crawler/extractors.py, app/blueprints/tasks/js_discovery.py
    - [Leaks]      app/utils/leak_detector.py

    Conventions.  Python [str] is [string] (a sequence of one-byte
    characters; case mapping and whitespace are the ASCII ones).  Python
    [int] is [Z].  A Python [float] is read as the rational number it
    denotes ([Q]); rounding of float arithmetic is not modelled, and no
    result below depends on the value of a float computation, only on how
    the code compares and combines such values.  A [dict] whose keys matter
    is a [gmap string _]; a document with a fixed schema is a record whose
    optional keys are [option] fields.  An uncaught Python exception is
    [None] in an [option] result.  Library code outside the repository
    (the classifier, the DNS resolver, [re], [json], [base64], [urljoin],
    the script parser) enters as section variables. *)

From Stdlib Require Import ZArith QArith Qminmax String Ascii List Lia Lqa Sorted
  DecimalString.
From stdpp Require Import base option gmap strings list.

#[global] Set Warnings "-register-all,-clear-no-such-hyp".
#[local] Open Scope Z_scope.
#[local] Open Scope string_scope.

(** ** Python built-ins, as far as the code uses them *)

Module Py.

Definition is_upper (c : ascii) : bool :=
  let n := nat_of_ascii c in (65 <=? n)%nat && (n <=? 90)%nat.

Definition is_lower (c : ascii) : bool :=
  let n := nat_of_ascii c in (97 <=? n)%nat && (n <=? 122)%nat.

Definition lower_char (c : ascii) : ascii :=
  if is_upper c then ascii_of_nat (nat_of_ascii c + 32) else c.

Definition upper_char (c : ascii) : ascii :=
  if is_lower c then ascii_of_nat (nat_of_ascii c - 32) else c.

Fixpoint map_chars (f : ascii → ascii) (s : string) : string :=
  match s with
  | EmptyString => EmptyString
  | String c t => String (f c) (map_chars f t)
  end.

(** [s.lower()], [s.upper()] *)
Definition lower : string → string := map_chars lower_char.
Definition upper : string → string := map_chars upper_char.

(** [s.startswith(p)] *)
Definition startswith (s p : string) : bool := String.prefix p s.

(** [sub in s] *)
Fixpoint contains (sub s : string) : bool :=
  String.prefix sub s ||
  match s with
  | EmptyString => false
  | String _ t => contains sub t
  end.

(** [s.endswith(p)] *)
Fixpoint endswith (s p : string) : bool :=
  String.eqb s p ||
  match s with
  | EmptyString => false
  | String _ t => endswith t p
  end.

(** [s.replace(c, new)] for a one-character [c] *)
Fixpoint replace1 (c : ascii) (new : string) (s : string) : string :=
  match s with
  | EmptyString => EmptyString
  | String a t =>
      if Ascii.eqb a c then new +:+ replace1 c new t
      else String a (replace1 c new t)
  end.

(** [s.count(c)] for a one-character [c] *)
Fixpoint count (c : ascii) (s : string) : nat :=
  match s with
  | EmptyString => 0
  | String a t => (if Ascii.eqb a c then 1 else 0) + count c t
  end.

(** [s.split(c)] for a one-character separator: never an empty list *)
Fixpoint split (c : ascii) (s : string) : list string :=
  match s with
  | EmptyString => [EmptyString]
  | String a t =>
      if Ascii.eqb a c then EmptyString :: split c t
      else match split c t with
           | [] => [String a EmptyString]
           | h :: r => String a h :: r
           end
  end.

Fixpoint lstrip (p : ascii → bool) (s : string) : string :=
  match s with
  | EmptyString => EmptyString
  | String a t => if p a then lstrip p t else s
  end.

Fixpoint rstrip (p : ascii → bool) (s : string) : string :=
  match s with
  | EmptyString => EmptyString
  | String a t =>
      match rstrip p t with
      | EmptyString => if p a then EmptyString else String a EmptyString
      | t' => String a t'
      end
  end.

(** [s.strip(chars)]: both ends *)
Definition strip_by (p : ascii → bool) (s : string) : string :=
  rstrip p (lstrip p s).

(** the characters [str.strip()] removes (ASCII) *)
Definition is_space (c : ascii) : bool :=
  let n := nat_of_ascii c in
  ((9 <=? n)%nat && (n <=? 13)%nat) || ((28 <=? n)%nat && (n <=? 32)%nat).

Definition strip : string → string := strip_by is_space.

(** [sep.join(l)] *)
Definition join (sep : string) (l : list string) : string := String.concat sep l.

(** [x in l] on a list or a set of strings *)
Definition mem (x : string) (l : list string) : bool := bool_decide (x ∈ l).

(** [str(n)] and [{n}] in an f-string *)
Definition str_of_Z (z : Z) : string := NilZero.string_of_int (Z.to_int z).

(** [len(s)] *)
Definition len (s : string) : Z := Z.of_nat (String.length s).

(** [max(a, b)]: the first argument unless the second is greater;
    [min(a, b)]: the first argument unless the second is smaller. *)
Definition max (a b : Q) : Q := if Qle_bool b a then a else b.
Definition min (a b : Q) : Q := if Qle_bool a b then a else b.

(** [int(x)] on a float: truncation toward zero *)
Definition int (q : Q) : Z := Z.quot (Qnum q) (Zpos (Qden q)).

(** truthiness of a string *)
Definition truthy (s : string) : bool := negb (String.eqb s "").

End Py.

(** ** Data model *)

(** What [json.loads] returns. *)
Inductive json :=
| JNull
| JBool (b : bool)
| JNum (q : Q)
| JStr (s : string)
| JArr (l : list json)
| JObj (kv : list (string * json)).

(** Values stored in a sub-document whose key set varies. *)
Inductive pyval :=
| PStr (s : string)
| PInt (z : Z)
| PFloat (q : Q)
| PBool (b : bool)
| PList (l : list string)
| PJson (j : json)
| PDict (d : gmap string pyval).

(** ValidationResult, analyzer side: what [_result] builds. *)
Inductive vlabel := Valid | Likely | Invalid.

Definition label_str (l : vlabel) : string :=
  match l with Valid => "valid" | Likely => "likely" | Invalid => "invalid" end.

Record vresult := {
  label : vlabel;
  confidence : Z;
  reason : string;
  metadata : gmap string pyval
}.

(** The dict [_result] returns, key by key. *)
Definition result_doc (r : vresult) : gmap string pyval :=
  <["label" := PStr (label_str (label r))]>
  (<["confidence" := PInt (confidence r)]>
  (<["reason" := PStr (reason r)]>
  (<["metadata" := PDict (metadata r)]> ∅))).

(** OsintContext, as [correlate] writes it. *)
Record osint_ctx := {
  labels : list string;
  osint_metadata : list (string * string)
}.

(** RiskAssessment, as [assess_risk] writes it. *)
Record ml_analysis := {
  predicted_severity : string;
  confidence_score : Z;
  model_used : string;
  top_features : list (string * Q)
}.

Record risk_doc := {
  score : Z;
  severity : string;
  factors : list string;
  ml : option ml_analysis
}.

(** A Finding (a document of the [leaks] collection).  A key that is
    absent is [None]; the stages enrich [validation], [osint] and [risk]
    by overwriting the whole field. *)
Record finding := {
  rule_id : option string;
  category : option string;
  secret_match : option string;      (* key "match" *)
  secret : option string;
  excerpt : option string;
  url : option string;
  source_file : option string;
  reuse_count : option Z;            (* metadata.reuse_count *)
  validation : option (gmap string pyval);
  osint : option osint_ctx;
  risk : option risk_doc
}.

Definition bare_finding : finding :=
  {| rule_id := None; category := None; secret_match := None; secret := None;
     excerpt := None; url := None; source_file := None; reuse_count := None;
     validation := None; osint := None; risk := None |}.

Definition set_category (c : string) (f : finding) : finding :=
  {| rule_id := rule_id f; category := Some c; secret_match := secret_match f;
     secret := secret f; excerpt := excerpt f; url := url f;
     source_file := source_file f; reuse_count := reuse_count f;
     validation := validation f; osint := osint f; risk := risk f |}.

Definition set_validation (v : gmap string pyval) (f : finding) : finding :=
  {| rule_id := rule_id f; category := category f; secret_match := secret_match f;
     secret := secret f; excerpt := excerpt f; url := url f;
     source_file := source_file f; reuse_count := reuse_count f;
     validation := Some v; osint := osint f; risk := risk f |}.

Definition set_osint (o : osint_ctx) (f : finding) : finding :=
  {| rule_id := rule_id f; category := category f; secret_match := secret_match f;
     secret := secret f; excerpt := excerpt f; url := url f;
     source_file := source_file f; reuse_count := reuse_count f;
     validation := validation f; osint := Some o; risk := risk f |}.

Definition set_risk (r : risk_doc) (f : finding) : finding :=
  {| rule_id := rule_id f; category := category f; secret_match := secret_match f;
     secret := secret f; excerpt := excerpt f; url := url f;
     source_file := source_file f; reuse_count := reuse_count f;
     validation := validation f; osint := osint f; risk := Some r |}.

(** [d.get(k, dflt)] followed by a [str] method: raises on a value that
    is not a string. *)
Definition get_str (d : gmap string pyval) (k dflt : string) : option string :=
  match d !! k with
  | None => Some dflt
  | Some (PStr s) => Some s
  | Some _ => None
  end.

(** The severity thresholds shared by the rule component and the engine. *)
Definition severity_of (score : Q) : string :=
  if Qle_bool 80 score then "High"
  else if Qle_bool 40 score then "Medium"
  else "Low".

(** ** Risk fusion: app/risks *)

Module Risk.

Definition CRITICAL_cats : list string :=
  ["AWS"; "GCP"; "AZURE"; "SLACK"; "STRIPE"; "PRIVATEKEY"].
Definition HIGH_cats : list string :=
  ["DBPASSWORD"; "APIKEY"; "JWT"; "ACCESSKEY"; "SECRET"].

(** [any(c in s for c in cats)] *)
Definition any_in (cats : list string) (s : string) : bool :=
  existsb (fun c => Py.contains c s) cats.

(** Rule 1 of [calculate_base_score] *)
Definition validity_rule (validity : string) : Z * list string :=
  if String.eqb validity "active" || String.eqb validity "confirmed" then
    (60, ["Secret is confirmed ACTIVE/VALID"])
  else if String.eqb validity "plausible" then
    (30, ["Secret structure is PLAUSIBLE"])
  else (0, []).

(** Rule 2 *)
Definition category_rule (category : string) : Z * list string :=
  let cat_norm := Py.replace1 " " "" (Py.replace1 "_" "" category) in
  if any_in CRITICAL_cats cat_norm then
    (25, ["Critical Secret Type: " +:+ category])
  else if any_in HIGH_cats cat_norm then
    (15, ["High-Value Secret Type: " +:+ category])
  else (5, []).

(** Rule 3 *)
Definition osint_rule (osint_labels : list string) : Z * list string :=
  let r1 := if Py.mem "PUBLICLY_EXPOSED_ARTIFACT" osint_labels
            then (10, ["Found in public JS file (External Exposure)"]) else (0, []) in
  let r2 := if Py.mem "EXPOSED_ADMIN_PATH" osint_labels
            then (10, ["Found in Admin/Config path"]) else (0, []) in
  let r3 := if Py.mem "HIGH_RISK_DOMAIN_CONTEXT" osint_labels
            then (5, ["Associated with high-risk domain"]) else (0, []) in
  (r1.1 + r2.1 + r3.1, (r1.2 ++ r2.2 ++ r3.2)%list).

(** rules.py, [calculate_base_score]: (score, severity, factors) *)
Definition calculate_base_score (f : finding) : option (Z * string * list string) :=
  let category := Py.upper (default "" (category f)) in
  let validation := default ∅ (validation f) in
  let osint_labels := from_option labels [] (osint f) in
  validity ← Py.lower <$> get_str validation "validity" "unknown";
  let r1 := validity_rule validity in
  let r2 := category_rule category in
  let r3 := osint_rule osint_labels in
  let score := r1.1 + r2.1 + r3.1 in
  let factors := (r1.2 ++ r2.2 ++ r3.2)%list in
  let score :=
    if Py.contains "generic" (Py.lower category) && negb (String.eqb validity "confirmed")
    then Z.min score 40 else score in
  let score := Z.min 100 (Z.max 10 score) in
  Some (score, severity_of (inject_Z score), factors).

(** model.py and engine.py; the trained ensemble is library code. *)
Section Engine.

(** [self.model.predict], [self.model.predict_proba],
    [self.model.classes_], and the ranked importances that
    [predict] turns into [top_features]. *)
Variable model_predict : list Q → string.
Variable model_predict_proba : list Q → list Q.
Variable model_classes : list string.
Variable model_top_features : list (string * Q).

Definition bit (b : bool) : Q := if b then 1%Q else 0%Q.

(** [_extract_features] *)
Definition _extract_features (f : finding) : option (list Q) :=
  let validation := default ∅ (validation f) in
  let labels := from_option labels [] (osint f) in
  val_status ← Py.lower <$> get_str validation "validity" "unknown";
  let is_valid := Py.mem val_status ["active"; "confirmed"] in
  let is_plausible := String.eqb val_status "plausible" in
  let cat := Py.replace1 " " "" (Py.replace1 "_" "" (Py.upper (default "" (category f)))) in
  let cat_score :=
    if any_in ["AWS"; "GCP"; "AZURE"; "PRIVATEKEY"; "SLACK"; "STRIPE"] cat then 2%Q
    else if any_in ["APIKEY"; "JWT"; "DB"; "ACCESSKEY"; "SECRET"] cat then 1%Q
    else 0%Q in
  (* the value is passed on unchecked; in the feature array a number
     stays itself and a bool counts as 1 or 0, anything else makes
     [predict] raise *)
  entropy ← match validation !! "entropy" with
            | None => Some 3%Q
            | Some (PFloat q) => Some q
            | Some (PInt z) => Some (inject_Z z)
            | Some (PBool b) => Some (bit b)
            | Some _ => None
            end;
  let length := Z.min (Py.len (default "" (excerpt f))) 100 in
  Some [bit is_valid; bit is_plausible; cat_score; entropy; inject_Z length;
        bit (Py.mem "PUBLICLY_EXPOSED_ARTIFACT" labels);
        bit (Py.mem "EXPOSED_ADMIN_PATH" labels);
        bit (Py.mem "HIGH_RISK_DOMAIN_CONTEXT" labels)].

Definition score_map (cls : string) : Q :=
  if String.eqb cls "Low" then 10%Q
  else if String.eqb cls "Medium" then 50%Q
  else if String.eqb cls "High" then 90%Q
  else 0%Q.

(** the loop [for cls, prob in zip(classes, probs): ml_score += ...] *)
Fixpoint weighted_score (acc : Q) (classes : list string) (probs : list Q) : Q :=
  match classes, probs with
  | cls :: cs, prob :: ps => weighted_score (acc + score_map cls * prob)%Q cs ps
  | _, _ => acc
  end.

(** [RiskClassifier.predict]: (ml_score, severity, top_features) *)
Definition predict (f : finding) : option (Q * string * list (string * Q)) :=
  features ← _extract_features f;
  let severity := model_predict features in
  let probs := model_predict_proba features in
  let ml_score := weighted_score 0%Q model_classes probs in
  Some (ml_score, severity, model_top_features).

(** the fusion line of [assess_risk] *)
Definition fuse (rule_score : Z) (ml_score : Q) : Q :=
  Py.max (inject_Z rule_score) (Py.min (inject_Z (rule_score + 20)) ml_score).

(** the body of the loop of [assess_risk], for one finding *)
Definition assess_one (f : finding) : option finding :=
  '(rule_score, rule_severity, rule_factors) ← calculate_base_score f;
  '(ml_score, ml_severity, ml_top_features) ← predict f;
  let final_score := fuse rule_score ml_score in
  let final_severity := severity_of final_score in
  let rule_factors :=
    if negb (Qle_bool final_score (inject_Z rule_score)) then
      let uplift := (final_score - inject_Z rule_score)%Q in
      (rule_factors ++
        ["ML Analysis refined risk score (+" +:+ Py.str_of_Z (Py.int uplift) +:+ ")"])%list
    else rule_factors in
  Some (set_risk
          {| score := Py.int final_score;
             severity := final_severity;
             factors := rule_factors;
             ml := Some {| predicted_severity := ml_severity;
                           confidence_score := Py.int ml_score;
                           model_used := "RandomForestClassifier (Ensemble)";
                           top_features := ml_top_features |} |} f).

(** [RiskEngine.assess_risk] *)
Definition assess_risk (findings : list finding) : option (list finding) :=
  mapM assess_one findings.

End Engine.

End Risk.

(** ** OSINT correlation: app/osint *)

Module Osint.

(** [sorted(l)] on strings: insertion into an ascending list *)
Fixpoint insert_sorted (x : string) (l : list string) : list string :=
  match l with
  | [] => [x]
  | y :: t => if String.leb x y then x :: l else y :: insert_sorted x t
  end.

Definition sorted (l : list string) : list string :=
  foldr insert_sorted [] l.

(** [list(dict.fromkeys(l))]: first occurrences, in order *)
Fixpoint fromkeys (seen l : list string) : list string :=
  match l with
  | [] => []
  | x :: t => if Py.mem x seen then fromkeys seen t else x :: fromkeys (x :: seen) t
  end.

(** truthiness of a value that is [None] or a string *)
Definition truthy_opt (o : option string) : bool := from_option Py.truthy false o.

(** [a or b] on two values that are [None] or a string *)
Definition or_opt (a b : option string) : option string :=
  if truthy_opt a then a else b.

Record crawl_context := {
  headers : list (string * string);
  urls : list string;
  js_files : list string
}.

(** The scratch dict [metadata] of the loop body of [correlate]. *)
Record meta := {
  domain : option string;
  domain_type : option string;
  cloud_provider : option string;
  exposure_surface : option string
}.

(** [{k: v for k, v in metadata.items() if v is not None}] *)
Definition clean_meta (m : meta) : list (string * string) :=
  omap (fun kv => pair kv.1 <$> kv.2)
    [("domain", domain m); ("domain_type", domain_type m);
     ("cloud_provider", cloud_provider m); ("exposure_surface", exposure_surface m)].

(** The reference datasets of loader.py ([OSINT_DATA]) are read from
    files that are not part of the sources: they are parameters. *)
Section Datasets.

Variables sensitive_files disposable_domains free_domains
          breached_org_domains admin_paths : gset string.
Variable cloud_fingerprints : list (string * list string).

(** rules.py, [check_sensitive_file] *)
Definition check_sensitive_file (path : string) : bool :=
  if negb (Py.truthy path) then false
  else
    let filename := Py.lower (List.last (Py.split "/" path) "") in
    bool_decide (filename ∈ sensitive_files).

(** rules.py, [check_admin_path] *)
Definition check_admin_path (path : string) : bool :=
  if negb (Py.truthy path) then false
  else
    let cleaned_path := Py.strip_by (Ascii.eqb "/") path in
    let parts := map Py.lower (filter (fun p => Py.truthy p = true) (Py.split "/" cleaned_path)) in
    existsb (fun p => bool_decide (p ∈ admin_paths)) parts.

(** rules.py, [check_email_domain]: (domain_type, domain) or [None] *)
Definition check_email_domain (email : string) : option (string * string) :=
  if negb (Py.truthy email) || negb (Py.contains "@" email) then None
  else
    match Py.split "@" email !! 1%nat with
    | None => None
    | Some d =>
        let domain := Py.strip (Py.lower d) in
        let domain_type :=
          if bool_decide (domain ∈ disposable_domains) then Some "disposable"
          else if bool_decide (domain ∈ breached_org_domains) then Some "breached_org"
          else if bool_decide (domain ∈ free_domains) then Some "free"
          else None in
        (fun t => (t, domain)) <$> domain_type
    end.

(** rules.py, [detect_cloud_provider] *)
Definition search_space (headers : list (string * string)) (urls js_files : list string)
  : list string :=
  (flat_map (fun kv => [Py.lower kv.1; Py.lower kv.2]) headers
   ++ map Py.lower urls
   ++ map Py.lower (filter (fun j => Py.startswith j "http" = true) js_files))%list.

Definition provider_hit (space : list string) (indicators : list string) : bool :=
  existsb (fun indicator => existsb (Py.contains indicator) space) indicators.

Definition detect_cloud_provider (headers : list (string * string))
    (urls js_files : list string) : list string :=
  let space := search_space headers urls js_files in
  let providers : gset string :=
    foldl (fun acc pi => if provider_hit space pi.2 then {[ pi.1 ]} ∪ acc else acc)
          ∅ cloud_fingerprints in
  sorted (elements providers).

(** correlator.py, the body of the loop of [correlate] *)
Definition correlate_one (global_providers : list string) (f : finding) : finding :=
  let f_url := default "" (url f) in
  let f_source := default "" (source_file f) in
  let f_excerpt := default "" (excerpt f) in
  let labels : list string := [] in
  let metadata :=
    {| domain := None; domain_type := None; cloud_provider := None;
       exposure_surface := None |} in
  (* 1. sensitive file exposure *)
  let '(labels, metadata) :=
    if check_sensitive_file f_url || check_sensitive_file f_source then
      ((labels ++ ["KNOWN_SENSITIVE_FILE"])%list,
       {| domain := domain metadata; domain_type := domain_type metadata;
          cloud_provider := cloud_provider metadata;
          exposure_surface := Some "sensitive_file" |})
    else (labels, metadata) in
  (* 2. admin path exposure *)
  let '(labels, metadata) :=
    if check_admin_path f_url || check_admin_path f_source then
      ((labels ++ ["EXPOSED_ADMIN_PATH"])%list,
       if negb (truthy_opt (exposure_surface metadata)) then
         {| domain := domain metadata; domain_type := domain_type metadata;
            cloud_provider := cloud_provider metadata;
            exposure_surface := Some "admin_path" |}
       else metadata)
    else (labels, metadata) in
  (* 3. email domain context *)
  let email_candidate :=
    if bool_decide (category f = Some "EMAIL") then or_opt (secret f) (excerpt f)
    else if Py.contains "@" f_excerpt
            && Py.contains "." (List.last (Py.split "@" f_excerpt) "")
    then Some (Py.strip f_excerpt)
    else None in
  let '(labels, metadata) :=
    if truthy_opt email_candidate then
      match check_email_domain (default "" email_candidate) with
      | Some (dtype, dom) =>
          (if Py.mem dtype ["disposable"; "breached_org"]
           then (labels ++ ["HIGH_RISK_DOMAIN_CONTEXT"])%list else labels,
           {| domain := Some dom; domain_type := Some dtype;
              cloud_provider := cloud_provider metadata;
              exposure_surface := exposure_surface metadata |})
      | None => (labels, metadata)
      end
    else (labels, metadata) in
  (* 4. public exposure surface *)
  let '(labels, metadata) :=
    if Py.truthy f_source && Py.endswith f_source ".js" then
      ((labels ++ ["PUBLICLY_EXPOSED_ARTIFACT"])%list,
       if negb (truthy_opt (exposure_surface metadata)) then
         {| domain := domain metadata; domain_type := domain_type metadata;
            cloud_provider := cloud_provider metadata;
            exposure_surface := Some "external_js" |}
       else metadata)
    else (labels, metadata) in
  (* 5. cloud / CDN fingerprinting *)
  let '(labels, metadata) :=
    if negb (bool_decide (global_providers = [])) && truthy_opt (exposure_surface metadata) then
      ((labels ++ ["INFRASTRUCTURE_FINGERPRINT_EXPOSED"])%list,
       {| domain := domain metadata; domain_type := domain_type metadata;
          cloud_provider := Some (Py.join ", " global_providers);
          exposure_surface := exposure_surface metadata |})
    else (labels, metadata) in
  (* 6. secret reuse indicator *)
  let labels :=
    if (1 <? default 0 (reuse_count f))%Z then (labels ++ ["SECRET_REUSE_DETECTED"])%list
    else labels in
  (* finalize *)
  let labels := if bool_decide (labels = []) then ["NO_OSINT_SIGNAL"] else labels in
  set_osint {| labels := fromkeys [] labels; osint_metadata := clean_meta metadata |} f.

(** correlator.py, [correlate] *)
Definition correlate (findings : list finding) (ctx : crawl_context) : list finding :=
  match findings with
  | [] => []
  | _ =>
      let global_providers :=
        detect_cloud_provider (headers ctx) (urls ctx) (js_files ctx) in
      map (correlate_one global_providers) findings
  end.

End Datasets.

End Osint.

(** ** Offline validation: app/utils/validation_analyzer.py *)

Module Validation.

(** What a DNS query can raise: the two exceptions the code names, and
    any other one (timeout, no name servers, ...) with its message. *)
Inductive exn := NoAnswer | NXDOMAIN | OtherError (msg : string).

Definition exn_str (e : exn) : string :=
  match e with NoAnswer => "NoAnswer" | NXDOMAIN => "NXDOMAIN" | OtherError m => m end.

(** [self.MIN_LENGTHS.get(label, self.MIN_LENGTHS["generic"])] *)
Definition MIN_LENGTHS (label : string) : Z :=
  if String.eqb label "jwt" then 32
  else if String.eqb label "api_key" then 16
  else if String.eqb label "oauth" then 20
  else if String.eqb label "private_key" then 64
  else 10.

(** [self.ENTROPY_THRESHOLDS] *)
Definition ENTROPY_high : Q := 4.5.
Definition ENTROPY_low : Q := 2.5.

(** [_result] *)
Definition _result (l : vlabel) (conf : Z) (why : string) (md : gmap string pyval) : vresult :=
  {| label := l; confidence := Z.min 100 (Z.max 0 conf); reason := why; metadata := md |}.

(** [_looks_like_jwt] *)
Definition _looks_like_jwt (text : string) : bool :=
  (Py.count "." text =? 2)%nat && (30 <? Py.len text)%Z.

Fixpoint all_chars (p : ascii → bool) (s : string) : bool :=
  match s with
  | EmptyString => true
  | String c t => p c && all_chars p t
  end.

Definition in_range (lo hi : nat) (c : ascii) : bool :=
  let n := nat_of_ascii c in (lo <=? n)%nat && (n <=? hi)%nat.

Definition is_b64_char (c : ascii) : bool :=
  in_range 65 90 c || in_range 97 122 c || in_range 48 57 c
  || Ascii.eqb c "+" || Ascii.eqb c "/" || Ascii.eqb c "=".

(** the text up to the position where [$] can match: the end, or just
    before a final newline *)
Fixpoint chomp (s : string) : string :=
  match s with
  | EmptyString => EmptyString
  | String c EmptyString => if Ascii.eqb c "010" then EmptyString else s
  | String c t => String c (chomp t)
  end.

(** [re.match(r'^[A-Za-z0-9+/=]+$', token)] *)
Definition b64_shaped (token : string) : bool :=
  let body := chomp token in
  Py.truthy body && all_chars is_b64_char body.

Fixpoint dot_then_more (r : string) : bool :=
  match r with
  | String c (String _ _ as r') => Ascii.eqb c "." || dot_then_more r'
  | _ => false
  end.

(** [re.match(r"[^@]+@[^@]+\.[^@]+", s)]: a non-empty run before the
    first [@]; in the run between it and the next [@] (or the end), a
    dot that is neither its first nor its last character. *)
Definition email_shaped (s : string) : bool :=
  match Py.split "@" s with
  | a :: String _ r :: _ => Py.truthy a && dot_then_more r
  | _ => false
  end.

(** [collections.Counter(data)]: counts, in order of first occurrence *)
Fixpoint counter_add (c : ascii) (l : list (ascii * Z)) : list (ascii * Z) :=
  match l with
  | [] => [(c, 1)]
  | (a, n) :: t => if Ascii.eqb a c then (a, n + 1) :: t else (a, n) :: counter_add c t
  end.

Fixpoint Counter (acc : list (ascii * Z)) (s : string) : list (ascii * Z) :=
  match s with
  | EmptyString => acc
  | String c t => Counter (counter_add c acc) t
  end.

Fixpoint repeat_char (c : ascii) (n : nat) : string :=
  match n with O => EmptyString | S k => String c (repeat_char c k) end.

(** falsiness of a decoded JSON value *)
Definition json_truthy (j : json) : bool :=
  match j with
  | JNull => false
  | JBool b => b
  | JNum q => negb (Qeq_bool q 0)
  | JStr s => Py.truthy s
  | JArr l => negb (bool_decide (l = []))
  | JObj kv => negb (bool_decide (kv = []))
  end.

Definition is_dict (j : json) : bool := match j with JObj _ => true | _ => false end.
Definition is_list (j : json) : bool := match j with JArr _ => true | _ => false end.
Definition keys (j : json) : list string := match j with JObj kv => kv.*1 | _ => [] end.

Definition std_claims : list string := ["iss"; "sub"; "aud"; "exp"; "iat"; "nbf"; "jti"].

Section Analyzer.

(** [base64.b64decode]: the bytes, or [None] when it raises. *)
Variable b64decode : string → option string.
(** [json.loads(b.decode('utf-8'))] on bytes: the value, or [None]
    when decoding or parsing raises. *)
Variable json_loads : string → option json.
(** [math.log(x, base)] and [round(x, ndigits)]. *)
Variable log : Q → Q → Q.
Variable round : Q → Z → Q.
(** Whether [dns.resolver] could be imported, and
    [dns_resolver.resolve(domain, rdtype)]: the exception raised, or
    the truthiness of the answer. *)
Variable DNS_AVAILABLE : bool.
Variable resolve : string → string → exn + bool.

(** [_shannon_entropy] *)
Definition _shannon_entropy (data : string) : Q :=
  if negb (Py.truthy data) then 0%Q
  else
    let counts := Counter [] data in
    let length := Py.len data in
    foldl (fun entropy count =>
             let p := (inject_Z count / inject_Z length)%Q in
             (entropy - p * log p 2)%Q)
          0%Q (counts.*2).

(** [_safe_b64_decode_json]: [None] is Python's [None] *)
Definition _safe_b64_decode_json (s : string) : option json :=
  let s := Py.replace1 "_" "/" (Py.replace1 "-" "+" s) in
  let s := s +:+ repeat_char "=" (4 - String.length s mod 4) in
  decoded ← b64decode s;
  json_loads decoded.

(** [not x or not isinstance(x, dict)] *)
Definition not_json_object (x : option json) : bool :=
  negb (from_option json_truthy false x) || negb (from_option is_dict false x).

(** [_validate_jwt] *)
Definition _validate_jwt (token : string) : vresult :=
  match Py.split "." token with
  | [header_b64; payload_b64; signature_b64] =>
      if negb (Py.truthy header_b64) || negb (Py.truthy payload_b64) then
        _result Invalid 100 "Malformatted JWT: Empty header or payload" ∅
      else
        let header := _safe_b64_decode_json header_b64 in
        if not_json_object header then
          _result Invalid 100 "JWT Header is not a valid JSON object" ∅
        else
          let payload := _safe_b64_decode_json payload_b64 in
          if not_json_object payload then
            _result Invalid 100 "JWT Payload is not a valid JSON object" ∅
          else
            let metadata : gmap string pyval :=
              <["claims" := PJson (default JNull payload)]>
              (<["header" := PJson (default JNull header)]> ∅) in
            let detected_claims :=
              filter (fun k => Py.mem k std_claims = true) (keys (default JNull payload)) in
            let confidence := 85 in
            let '(confidence, metadata) :=
              if negb (bool_decide (detected_claims = [])) then
                (confidence + Z.of_nat (length detected_claims) * 2,
                 <["standard_claims" := PList detected_claims]> metadata)
              else (confidence, metadata) in
            let sig_entropy := _shannon_entropy signature_b64 in
            let metadata := <["signature_entropy" := PFloat sig_entropy]> metadata in
            let confidence :=
              if negb (Qle_bool 3 sig_entropy) then confidence - 20 else confidence in
            let confidence := if (95 <? confidence)%Z then 95 else confidence in
            _result Valid confidence "Structurally valid JWT" metadata
  | _ => _result Invalid 100 "Malformatted JWT: Incorrect number of segments" ∅
  end.

(** The two nested [try] blocks of [_validate_email]: an exception
    that escapes them ([inl]), a [return] inside them ([Some]), or
    falling through to the code after them ([None]). *)
Definition dns_lookups (domain : string) : exn + option vresult :=
  match resolve domain "MX" with
  | inr mx =>
      if mx then
        inr (Some (_result Likely 90 ("Valid MX records for " +:+ domain)
                     (<["mx_found" := PBool true]> (<["domain" := PStr domain]> ∅))))
      else inr None
  | inl (NoAnswer | NXDOMAIN) =>
      match resolve domain "A" with
      | inr a =>
          if a then
            inr (Some (_result Likely 70 ("No MX but valid A record for " +:+ domain)
                         (<["a_found" := PBool true]> (<["domain" := PStr domain]> ∅))))
          else inr None
      | inl _ => inr None              (* except Exception: pass *)
      end
  | inl (OtherError _) => inr None     (* except Exception: pass *)
  end.

(** [_validate_email] *)
Definition _validate_email (email : string) : vresult :=
  match Py.split "@" email with
  | [_; domain] =>
      if negb DNS_AVAILABLE then
        _result Likely 50 "Email structure valid (DNS check skipped)"
          (<["domain" := PStr domain]> ∅)
      else
        match dns_lookups domain with
        | inr (Some r) => r
        | inr None =>
            _result Invalid 90 ("Domain " +:+ domain +:+ " has no MX or A records")
              (<["domain" := PStr domain]> ∅)
        | inl e =>
            _result Likely 40 ("DNS check failed/timeout: " +:+ exn_str e)
              (<["domain" := PStr domain]> ∅)
        end
  | _ => _result Invalid 100 "Invalid email format" ∅
  end.

(** The base64 block of [_validate_generic_token]: an early [return]
    ([inl]) or the metadata after the block ([inr]). *)
Definition base64_block (token : string) (length : Z) (metadata : gmap string pyval)
  : vresult + gmap string pyval :=
  if b64_shaped token && (length mod 4 =? 0)%Z then
    match b64decode token with
    | None => inr metadata                               (* except Exception: pass *)
    | Some decoded =>
        let is_json :=
          if Py.contains "{" decoded && Py.contains "}" decoded then
            match json_loads decoded with
            | Some obj => is_dict obj || is_list obj
            | None => false                              (* except: pass *)
            end
          else false in
        if is_json then
          let metadata := <["decoded_content" := PStr "json"]> metadata in
          inl (_result Valid 80 "Base64 decoded to valid JSON" metadata)
        else
          let printable :=
            Z.of_nat (List.length (filter (fun c => in_range 32 126 c = true)
                                          (list_ascii_of_string decoded))) in
          let ratio :=
            if (0 <? Py.len decoded)%Z
            then (inject_Z printable / inject_Z (Py.len decoded))%Q else 0%Q in
          inr (<["decoded_printable_ratio" := PFloat (round ratio 2)]> metadata)
    end
  else inr metadata.

(** The entropy rules that close [_validate_generic_token]. *)
Definition entropy_verdict (entropy : Q) (length : Z) (metadata : gmap string pyval)
  : vresult :=
  if negb (Qle_bool ENTROPY_low entropy) && (20 <? length)%Z then
    _result Invalid 80 "Entropy too low for secret material" metadata
  else if negb (Qle_bool entropy ENTROPY_high) then
    _result Likely 70 "High entropy string" metadata
  else _result Likely 50 "Plausible length and chars" metadata.

(** [_validate_generic_token] *)
Definition _validate_generic_token (token label : string) : vresult :=
  let length := Py.len token in
  let entropy := _shannon_entropy token in
  let metadata : gmap string pyval :=
    <["entropy" := PFloat (round entropy 2)]> (<["length" := PInt length]> ∅) in
  let min_len := MIN_LENGTHS label in
  if (length <? min_len)%Z then
    _result Invalid 90
      ("Token too short (len=" +:+ Py.str_of_Z length +:+ ", min="
         +:+ Py.str_of_Z min_len +:+ ")") metadata
  else
    match base64_block token length metadata with
    | inl r => r
    | inr metadata => entropy_verdict entropy length metadata
    end.

(** [analyze] *)
Definition analyze (secret_candidate secret_type : string) : vresult :=
  if negb (Py.truthy secret_candidate) then _result Invalid 0 "Empty secret" ∅
  else
    let secret_type := Py.lower secret_type in
    if Py.contains "jwt" secret_type || _looks_like_jwt secret_candidate then
      _validate_jwt secret_candidate
    else if (Py.contains "email" secret_type || Py.contains "@" secret_candidate)
            && email_shaped secret_candidate then
      _validate_email secret_candidate
    else _validate_generic_token secret_candidate secret_type.

(** blueprints/tasks/validation.py: the type inferred from the rule id *)
Definition infer_type (rule_id : string) : string :=
  if Py.contains "jwt" rule_id then "jwt"
  else if Py.contains "email" rule_id || Py.contains "mail" rule_id then "email"
  else if Py.contains "key" rule_id || Py.contains "secret" rule_id then "api_key"
  else "generic".

(** ... and the body of its loop.  The documents of the [leaks]
    collection are built by [make_leak_doc], which stores every key: a
    [rule_id] or a [category] that is [None] here is a stored [None],
    on which [.lower()] raises ([None] below); [match] is read with
    [or ""]. *)
Definition leak_verdict (leak : finding) : option vresult :=
  let secret := default "" (secret_match leak) in
  rule_id ← Py.lower <$> rule_id leak;
  category ← Py.lower <$> category leak;
  let s_type := infer_type rule_id in
  Some (analyze secret s_type).

(** the analyzer's dict overwrites the finding's [validation] field *)
Definition validate_leak (leak : finding) : option finding :=
  res ← leak_verdict leak;
  Some (set_validation (result_doc res) leak).

(** the loop over the leaks: [None] when it raises on one of them *)
Definition validation_stage (leaks : list finding) : option (list finding) :=
  mapM validate_leak leaks.

End Analyzer.

End Validation.

(** ** Discovery: app/utils/crawler/extractors.py, app/blueprints/tasks/js_discovery.py *)

Module Crawler.

Definition is_http (s : string) : bool :=
  Py.startswith s "http://" || Py.startswith s "https://".

(** One entry of the list [discovered]. *)
Inductive asset_ref :=
| Inline (snippet : string)
| External (src : string).

Definition external_src (a : asset_ref) : option string :=
  match a with External s => Some s | Inline _ => None end.

(** The variables of the traversal loop of [js_discovery]. *)
Record state := {
  visited : gset string;
  queue : list string;
  discovered : list asset_ref
}.

Section Discovery.

(** [urllib.parse.urljoin] *)
Variable urljoin : string → string → string.
(** [regex.findall(content)] for each of [DEEP_JS_PATTERNS], in order *)
Variable DEEP_JS_PATTERNS : list (string → list string).
(** [list(found)]: the elements of a set, in the order the
    interpreter happens to iterate them *)
Variable list_of_set : gset string → list string.
(** [safe_get(url)]: [None] when [ok] is false, else [response.text] *)
Variable safe_get : string → option string.

(** extractors.py, [normalize_url]: [None] is Python's [None] *)
Definition normalize_url (base_url js_url : string) : option string :=
  if negb (Py.truthy js_url) || (500 <? Py.len js_url)%Z then None
  else
    let js_url := Py.strip js_url in
    if is_http js_url then Some js_url
    else if Py.startswith js_url "//" then Some ("https:" +:+ js_url)
    else if Py.startswith js_url "/" then Some (urljoin base_url js_url)
    else Some (urljoin base_url js_url).

(** the test [norm and norm.startswith(("http://", "https://")) and ".js" in norm] *)
Definition js_url_ok (norm : option string) : bool :=
  match norm with
  | Some n => Py.truthy n && is_http n && Py.contains ".js" n
  | None => false
  end.

(** extractors.py, [extract_nested_js] *)
Definition nested_found (content base_url : string) : gset string :=
  foldl (fun found m =>
           if negb (Py.truthy m) || Py.startswith m "data:" then found
           else
             let norm := normalize_url base_url m in
             if js_url_ok norm then {[ default "" norm ]} ∪ found else found)
        ∅ (flat_map (fun findall => findall content) DEEP_JS_PATTERNS).

Definition extract_nested_js (content base_url : string) : list string :=
  list_of_set (nested_found content base_url).

(** the inner loop [for n in nested: ... queue.append(n)] *)
Definition enqueue_nested (js_url : string) (visited : gset string)
    (queue nested : list string) : list string :=
  foldl (fun queue n =>
           match normalize_url js_url n with
           | Some n =>
               if Py.truthy n && negb (bool_decide (n ∈ visited)) && negb (Py.mem n queue)
               then (queue ++ [n])%list else queue
           | None => queue
           end)
        queue nested.

(** One iteration of [while queue and len(visited) < max_js]
    (writes to the store are not modelled). *)
Definition step (start_url : string) (st : state) : state :=
  match queue st with
  | [] => st
  | js_url :: queue =>
      match normalize_url start_url js_url with
      | None => {| visited := visited st; queue := queue; discovered := discovered st |}
      | Some js_url =>
          if negb (Py.truthy js_url) || bool_decide (js_url ∈ visited st) then
            {| visited := visited st; queue := queue; discovered := discovered st |}
          else
            let visited := {[ js_url ]} ∪ visited st in
            match safe_get js_url with
            | None => {| visited := visited; queue := queue; discovered := discovered st |}
            | Some content =>
                if negb (Py.truthy content) || (2000000 <? Py.len content)%Z then
                  {| visited := visited; queue := queue; discovered := discovered st |}
                else
                  let discovered := (discovered st ++ [External js_url])%list in
                  let nested := extract_nested_js content js_url in
                  {| visited := visited;
                     queue := enqueue_nested js_url visited queue nested;
                     discovered := discovered |}
            end
      end
  end.

(** the loop condition *)
Definition running (max_js : nat) (st : state) : bool :=
  negb (bool_decide (queue st = [])) && (size (visited st) <? max_js)%nat.

(** The loop, with a bound on the number of iterations: [None] when
    the bound is reached before the loop condition fails. *)
Fixpoint bfs (fuel : nat) (start_url : string) (max_js : nat) (st : state) : option state :=
  if running max_js st then
    match fuel with
    | O => None
    | S fuel => bfs fuel start_url max_js (step start_url st)
    end
  else Some st.

(** The traversal as [js_discovery] enters it: nothing visited, the
    queue and the inline assets (their snippets) as left by the page
    scan. *)
Definition initial (queue : list string) (inline : list string) : state :=
  {| visited := ∅; queue := queue; discovered := Inline <$> inline |}.

(** the external assets among [discovered] *)
Definition externals (st : state) : list string := omap external_src (discovered st).

(** A fetch that yields an asset. *)
Definition fetched (u : string) : option string :=
  match safe_get u with
  | Some content =>
      if negb (Py.truthy content) || (2000000 <? Py.len content)%Z then None
      else Some content
  | None => None
  end.

(** The script reference graph the traversal walks: the references
    a fetched script makes, as the loop would enqueue them. *)
Definition references (u : string) : list string :=
  match fetched u with
  | Some content =>
      omap (fun n => match normalize_url u n with
                     | Some n => if Py.truthy n then Some n else None
                     | None => None
                     end)
           (extract_nested_js content u)
  | None => []
  end.

Inductive reachable (start_url : string) (seeds : list string) : string → Prop :=
| reach_seed q u :
    q ∈ seeds → normalize_url start_url q = Some u → Py.truthy u = true →
    reachable start_url seeds u
| reach_ref u n v :
    reachable start_url seeds u → n ∈ references u →
    normalize_url start_url n = Some v → Py.truthy v = true →
    reachable start_url seeds v.

End Discovery.

End Crawler.

(** ** Leak detection: app/utils/leak_detector.py *)

Module Leaks.

(** A match object of [re]: [m.groups()] ([None] for a group that did
    not take part), [m.group(0)], [m.start()], [m.end()]. *)
Record rmatch := {
  groups : list (option string);
  group0 : string;
  m_start : Z;
  m_end : Z
}.

(** A compiled rule, as [_compile_rule] builds it; the compiled
    pattern is its [finditer]. *)
Record rule := {
  r_rule_id : option string;
  r_label : string;
  r_regex : option (string → list rmatch);
  r_severity : string;
  r_category : string;
  r_source : string;
  r_enabled : bool
}.

(** One entry of the list [detect_leaks] returns. *)
Record leak := {
  l_rule_id : option string;
  l_rule_name : string;
  l_severity : string;
  l_category : string;
  l_rule_source : string;
  l_snippet : string;
  l_match : string;
  l_source : string;
  l_detector : string
}.

(** The tree [esprima.parseScript] returns, as [walk] sees it. *)
Inductive node :=
| NDict (items : list (string * node))
| NList (items : list node)
| NStr (s : string)
| NOther.

(** The module globals [_cache_loaded_at] and [_cached_compiled]. *)
Record cache := {
  _cache_loaded_at : Q;
  _cached_compiled : option (list rule)
}.

(** What a call reads from outside the process: the clock and the
    rules compiled from the documents of the pattern store. *)
Record world := {
  now : Q;
  store_rules : list rule
}.

(** [text[s:e]] for [0 <= s] *)
Definition slice (text : string) (s e : Z) : string :=
  String.substring (Z.to_nat s) (Z.to_nat (e - s)) text.

(** [_snippet_from_pos] *)
Definition _snippet_from_pos (text : string) (start end_ ctx : Z) : string :=
  let s := Z.max 0 (start - ctx) in
  let e := Z.min (Py.len text) (end_ + ctx) in
  slice text s e.

(** the text up to the first newline *)
Fixpoint line_head (s : string) : string :=
  match s with
  | EmptyString => EmptyString
  | String c t => if Ascii.eqb c "010" then EmptyString else String c (line_head t)
  end.

Fixpoint drop (n : nat) (s : string) : string :=
  match n, s with
  | S k, String _ t => drop k t
  | _, _ => s
  end.

(** [re.search(r'INSERT_.*_HERE', s, re.I)] on the lowered text *)
Fixpoint insert_here (s : string) : bool :=
  (String.prefix "insert_" s && Py.contains "_here" (line_head (drop 7 s))) ||
  match s with
  | EmptyString => false
  | String _ t => insert_here t
  end.

(** the loop over [placeholder_patterns], each searched with [re.I] *)
Definition is_placeholder (match_ : string) : bool :=
  let m := Py.lower match_ in
  Py.contains "example.com" m || Py.contains "test.com" m || Py.contains "localhost" m
  || Py.contains "127.0.0.1" m || Py.contains "your_api_key" m || insert_here m
  || Py.contains "replace_me" m || Py.contains "todo" m || Py.contains "xxx" m.

(** the one-character string holding a double quote *)
Definition dquote : string := String (ascii_of_nat 34) EmptyString.

Definition url_idioms : list string :=
  [".src="; "src=" +:+ dquote; "src='"; ".href="; "href=" +:+ dquote; "href='"; "iframe.src";
   "window.location"; "location.href"; "ajax("; "axios("; "fetch("].

Definition dom_idioms : list string :=
  ["new_script.src"; "script.src"; "link.href"; "img.src"; "iframe.src";
   "window.location"; "document.getelementsby"; ".appendchild"; "addeventlistener"].

(** [_is_false_positive] *)
Definition _is_false_positive (match_ snippet : string) (rule_id : option string)
    (category : string) : bool :=
  if negb (Py.truthy match_) then true
  else
    let snippet_lower := Py.lower snippet in
    let rid := Py.lower (default "" rule_id) in
    let has_rid := Osint.truthy_opt rule_id in
    if has_rid && existsb (fun x => Py.contains x rid) ["url"; "http"; "https"]
       && existsb (fun p => Py.contains p snippet_lower) url_idioms then true
    else if (has_rid && Py.contains "file" rid || String.eqb category "info")
            && Py.startswith match_ "/node_modules" then true
    else if existsb (fun i => Py.contains i snippet_lower) dom_idioms then true
    else if (Py.len (Py.strip match_) <? 8)%Z then true
    else is_placeholder match_.

(** the first truthy group, else the whole match *)
Definition matched_value (m : rmatch) : string :=
  match filter (fun g => Osint.truthy_opt g = true) (groups m) with
  | Some g :: _ => g
  | _ => group0 m
  end.

(** the regex pass of [detect_leaks], for one rule *)
Definition rule_leaks (content source : string) (r : rule) : list leak :=
  if negb (r_enabled r) then []
  else
    match r_regex r with
    | None => []
    | Some finditer =>
        omap (fun m =>
                let matched := matched_value m in
                let snippet := _snippet_from_pos content (m_start m) (m_end m) 80 in
                if _is_false_positive matched snippet (r_rule_id r) (r_category r) then None
                else Some {| l_rule_id := r_rule_id r; l_rule_name := r_label r;
                             l_severity := r_severity r; l_category := r_category r;
                             l_rule_source := r_source r; l_snippet := snippet;
                             l_match := matched; l_source := source;
                             l_detector := "regex" |})
             (finditer content)
    end.

(** [node.get(k)] *)
Fixpoint node_get (k : string) (items : list (string * node)) : option node :=
  match items with
  | [] => None
  | (k', v) :: t => if String.eqb k' k then Some v else node_get k t
  end.

(** [walk] of [_detect_literals_ast]: the string values of nodes of
    type [Literal], in visiting order.  [walk] descends into every
    value of a dict and every item of a list. *)
Fixpoint walk (n : node) : list string :=
  match n with
  | NDict items =>
      let here :=
        match node_get "type" items, node_get "value" items with
        | Some (NStr t), Some (NStr v) => if String.eqb t "Literal" then [v] else []
        | _, _ => []
        end in
      (here ++ (fix walk_items (l : list (string * node)) : list string :=
                  match l with
                  | [] => []
                  | (_, v) :: t => (walk v ++ walk_items t)%list
                  end) items)%list
  | NList items =>
      (fix walk_list (l : list node) : list string :=
         match l with
         | [] => []
         | v :: t => (walk v ++ walk_list t)%list
         end) items
  | _ => []
  end.

(** [re.search(r"(secret|token|api[_-]?key|access|passwd|password|private_key|client_secret)", lit, re.I)] *)
Definition secret_keyword (lit : string) : bool :=
  let l := Py.lower lit in
  existsb (fun k => Py.contains k l)
    ["secret"; "token"; "apikey"; "api_key"; "api-key"; "access"; "passwd";
     "password"; "private_key"; "client_secret"].

(** the AST pass of [detect_leaks], for one literal *)
Definition literal_leak (source lit : string) : option leak :=
  if (Py.len lit <? 12)%Z then None
  else if secret_keyword lit then
    if _is_false_positive lit lit (Some "ast_literal") "ast" then None
    else Some {| l_rule_id := Some "ast_literal"; l_rule_name := "AST Suspicious Literal";
                 l_severity := "low"; l_category := "ast"; l_rule_source := "ast";
                 l_snippet := String.substring 0 400 lit; l_match := lit;
                 l_source := source; l_detector := "ast" |}
  else None.

(** the key of the final loop *)
Definition leak_key (l : leak) : option string * string * string :=
  (l_rule_id l, l_match l, l_source l).

(** the final loop of [detect_leaks]: [seen] is the set of keys *)
Fixpoint dedupe (seen : list (option string * string * string)) (leaks : list leak)
  : list leak :=
  match leaks with
  | [] => []
  | l :: t =>
      if bool_decide (leak_key l ∈ seen) then dedupe seen t
      else l :: dedupe (leak_key l :: seen) t
  end.

Section Detector.

(** [esprima.parseScript(content, tolerant=True)]: [None] when it raises *)
Variable parseScript : string → option node.
(** [_CACHE_TTL] (from the environment, 300 by default) *)
Variable _CACHE_TTL : Q.
(** The three [FALLBACK_PATTERNS], compiled. *)
Variable fallback_rules : list rule.

(** [_detect_literals_ast] *)
Definition _detect_literals_ast (content : string) : list string :=
  match parseScript content with
  | Some tree => walk tree
  | None => []
  end.

(** [load_patterns_from_db]: the rules returned and the globals after *)
Definition reload (w : world) : list rule * cache :=
  let compiled := store_rules w in
  let existing_ids :=
    filter (fun i => Py.truthy i = true) (omap r_rule_id compiled) in
  let compiled :=
    (compiled ++ filter (fun f => r_rule_id f ∉ (Some <$> existing_ids)) fallback_rules)%list in
  (compiled, {| _cache_loaded_at := now w; _cached_compiled := Some compiled |}).

Definition load_patterns_from_db (force_reload : bool) (w : world) (c : cache)
  : list rule * cache :=
  match _cached_compiled c with
  | Some ((_ :: _) as cached) =>
      if negb force_reload && negb (Qle_bool _CACHE_TTL (now w - _cache_loaded_at c))
      then (cached, c)
      else reload w
  | _ => reload w
  end.

(** [detect_leaks]: the list returned and the globals after *)
Definition detect_leaks (content source : string) (patterns : option (list rule))
    (w : world) (c : cache) : list leak * cache :=
  let '(patterns, c) :=
    match patterns with
    | Some ps => (ps, c)
    | None => load_patterns_from_db false w c
    end in
  let regex_leaks := flat_map (rule_leaks content source) patterns in
  let ast_leaks := omap (literal_leak source) (_detect_literals_ast content) in
  (dedupe [] (regex_leaks ++ ast_leaks)%list, c).

End Detector.

End Leaks.

(** ** The stage tasks: app/blueprints/tasks *)

Module Tasks.

(** *** risk_ml.py *)

(** The summary [risk_ml] stores with the task. *)
Record risk_summary := {
  rs_score : Z;
  rs_avg_score : Z;
  rs_severity : string;
  rs_total_leaks : nat;
  high_risk_count : nat;
  medium_risk_count : nat;
  low_risk_count : nat
}.

(** the risk written when the engine raises *)
Definition default_risk : risk_doc :=
  {| score := 50; severity := "Medium";
     factors := ["ML engine unavailable - default score applied"]; ml := None |}.

(** [[f.get("risk", {}).get("score", 0) for f in enriched_findings]] *)
Definition scores_of (enriched : list finding) : list Z :=
  map (fun f => from_option score 0 (risk f)) enriched.

(** [sum(1 for s in scores if p(s))] *)
Definition count_if (p : Z → bool) (scores : list Z) : nat :=
  length (List.filter p scores).

(** [max(scores)] on a non-empty list *)
Definition max_of (first : Z) (rest : list Z) : Z := foldl Z.max first rest.

(** the aggregate over the scores *)
Definition summarize (enriched : list finding) : risk_summary :=
  let scores := scores_of enriched in
  let avg_score : Q :=
    match scores with
    | [] => 0%Q
    | _ => (inject_Z (foldr Z.add 0%Z scores) / inject_Z (Z.of_nat (length scores)))%Q
    end in
  let max_score := match scores with [] => 0 | s :: t => max_of s t end in
  let overall_severity :=
    if (80 <=? max_score)%Z then "High"
    else if (40 <=? max_score)%Z then "Medium"
    else "Low" in
  {| rs_score := max_score;
     rs_avg_score := Py.int avg_score;
     rs_severity := overall_severity;
     rs_total_leaks := length enriched;
     high_risk_count := count_if (fun s => (80 <=? s)%Z) scores;
     medium_risk_count := count_if (fun s => (40 <=? s)%Z && (s <? 80)%Z) scores;
     low_risk_count := count_if (fun s => (s <? 40)%Z) scores |}.

Section RiskTask.

Variable model_predict : list Q → string.
Variable model_predict_proba : list Q → list Q.
Variable model_classes : list string.
Variable model_top_features : list (string * Q).

(** the findings as [risk_ml] writes them back: assessed by the
    engine, or all given the default risk when the engine raises *)
Definition enrich (findings : list finding) : list finding :=
  match Risk.assess_risk model_predict model_predict_proba model_classes
          model_top_features findings with
  | Some enriched => enriched
  | None => map (set_risk default_risk) findings
  end.

(** [risk_ml]: the findings written back and the summary stored;
    without findings the stored summary has score 0, severity Low and
    no leaks, and nothing is written back *)
Definition risk_ml (findings : list finding) : list finding * risk_summary :=
  match findings with
  | [] =>
      ([], {| rs_score := 0; rs_avg_score := 0; rs_severity := "Low"; rs_total_leaks := 0;
              high_risk_count := 0; medium_risk_count := 0; low_risk_count := 0 |})
  | _ => let enriched := enrich findings in (enriched, summarize enriched)
  end.

End RiskTask.

(** *** validation.py *)

(** [validation_summary[label] += 1] when the label is a key *)
Definition bump (label : string) (summary : gmap string Z) : gmap string Z :=
  match summary !! label with
  | Some n => <[label := n + 1]> summary
  | None => summary
  end.

(** the summary before the loop *)
Definition empty_summary (total : nat) : gmap string Z :=
  <["valid" := 0]> (<["likely" := 0]> (<["invalid" := 0]>
    (<["total" := Z.of_nat total]> ∅))).

(** the summary after the loop over the analyzer's results *)
Definition leak_validation_summary (results : list vresult) : gmap string Z :=
  foldl (fun summary res => bump (label_str (label res)) summary)
        (empty_summary (length results)) results.

(** the issue recorded for a script of the task, if any *)
Definition js_issue (content : string) : option string :=
  if (Py.len content =? 0)%Z then Some "empty"
  else if (1000000 <? Py.len content)%Z then Some "oversized"
  else None.

(** *** leak_detection.py *)

(** [make_leak_doc] on an entry [d] of [detect_leaks], for a script
    with source [src] found on the page [page_url] *)
Definition leak_doc (page_url : option string) (src : string) (d : Leaks.leak) : finding :=
  {| rule_id := Leaks.l_rule_id d;
     category := Some (Leaks.l_category d);
     secret_match := Some (Leaks.l_match d);
     secret := None;
     excerpt := Some (Leaks.l_snippet d);
     url := page_url;
     source_file := Some src;
     reuse_count := None;
     validation := None; osint := None; risk := None |}.

(** [js.get("src") or "inline"] *)
Definition source_of (js_src : option string) : string :=
  if Osint.truthy_opt js_src then default "" js_src else "inline".

(** the severity counts of the task log *)
Record sev_counts := { sev_high : nat; sev_medium : nat; sev_low : nat }.

(** the body of the loop [for l in all_leaks] *)
Definition count_severity (counts : sev_counts) (l : Leaks.leak) : sev_counts :=
  let s := Py.lower (if Py.truthy (Leaks.l_severity l) then Leaks.l_severity l else "low") in
  if String.eqb s "high" then
    {| sev_high := S (sev_high counts); sev_medium := sev_medium counts;
       sev_low := sev_low counts |}
  else if String.eqb s "medium" then
    {| sev_high := sev_high counts; sev_medium := S (sev_medium counts);
       sev_low := sev_low counts |}
  else
    {| sev_high := sev_high counts; sev_medium := sev_medium counts;
       sev_low := S (sev_low counts) |}.

Definition severity_counts (all_leaks : list Leaks.leak) : sev_counts :=
  foldl count_severity {| sev_high := 0; sev_medium := 0; sev_low := 0 |} all_leaks.

(** *** osint_correlation.py *)

(** the URL the task takes from a document of [js_files], given its
    [src] and [origin] fields *)
Definition js_url (doc : option string * option string) : option string :=
  if Osint.truthy_opt doc.1 then doc.1
  else if Osint.truthy_opt doc.2 then doc.2
  else None.

(** the crawl context the task builds: no headers are recorded *)
Definition crawl_context_of (target_url : string)
    (js_docs : list (option string * option string)) : Osint.crawl_context :=
  let js_urls := omap js_url js_docs in
  {| Osint.headers := []; Osint.urls := target_url :: js_urls; Osint.js_files := js_urls |}.

(** [osint_summary] before the loop *)
Definition empty_osint_summary : gmap string Z :=
  <["KNOWN_SENSITIVE_FILE" := 0]> (<["EXPOSED_ADMIN_PATH" := 0]>
  (<["PUBLICLY_EXPOSED_ARTIFACT" := 0]> (<["HIGH_RISK_DOMAIN_CONTEXT" := 0]>
  (<["INFRASTRUCTURE_FINGERPRINT_EXPOSED" := 0]> (<["SECRET_REUSE_DETECTED" := 0]>
  (<["NO_OSINT_SIGNAL" := 0]> ∅)))))).

(** the loop over the enriched findings and their labels *)
Definition osint_summary (enriched : list finding) : gmap string Z :=
  foldl (fun summary f =>
           foldl (fun summary label => bump label summary) summary
                 (from_option labels [] (osint f)))
        empty_osint_summary enriched.

Section OsintTask.

Variables sensitive_files disposable_domains free_domains
          breached_org_domains admin_paths : gset string.
Variable cloud_fingerprints : list (string * list string).

(** [osint_correlation], for a task that exists: the findings written
    back and the summary stored *)
Definition osint_correlation (target_url : string)
    (js_docs : list (option string * option string)) (findings : list finding)
  : list finding * gmap string Z :=
  let enriched :=
    Osint.correlate sensitive_files disposable_domains free_domains breached_org_domains
      admin_paths cloud_fingerprints findings (crawl_context_of target_url js_docs) in
  (enriched, osint_summary enriched).

End OsintTask.

Section ValidationTask.

Variable b64decode : string → option string.
Variable json_loads : string → option json.
Variable log : Q → Q → Q.
Variable round : Q → Z → Q.
Variable DNS_AVAILABLE : bool.
Variable resolve : string → string → Validation.exn + bool.

(** [validation]: the leaks written back and the summary stored, or
    [None] when the loop raises *)
Definition validation (leaks : list finding) : option (list finding * gmap string Z) :=
  done ← mapM (fun leak =>
                 res ← Validation.leak_verdict b64decode json_loads log round
                         DNS_AVAILABLE resolve leak;
                 Some (set_validation (result_doc res) leak, res))
              leaks;
  Some (done.*1, leak_validation_summary (done.*2)).

End ValidationTask.

End Tasks.

(** ** Stand-ins for library functions

    The results below hold for every behaviour of the library functions
    the sections above take as variables.  To run the code on concrete
    inputs, this module supplies executable stand-ins: a base64 decoder
    that follows [binascii.a2b_base64] (non-strict mode), a JSON reader
    for ASCII documents without [\u] escapes and exponents, decimal
    rounding, and a coarse logarithm (the difference of the bit lengths
    of numerator and denominator). *)

Module Ref.

Definition dquote : ascii := ascii_of_nat 34.

(** *** base64 *)

Definition b64_value (c : ascii) : option N :=
  let n := N_of_ascii c in
  if Validation.in_range 65 90 c then Some (n - 65)%N
  else if Validation.in_range 97 122 c then Some (n - 71)%N
  else if Validation.in_range 48 57 c then Some (n + 4)%N
  else if Ascii.eqb c "+" then Some 62%N
  else if Ascii.eqb c "/" then Some 63%N
  else None.

Record b64_state := {
  quad_pos : N;
  leftchar : N;
  pads : N;
  out : list ascii           (* reversed *)
}.

Definition emit (st : b64_state) (byte left : N) (pos : N) : b64_state :=
  {| quad_pos := pos; leftchar := left; pads := 0;
     out := ascii_of_N (byte mod 256) :: out st |}.

(** the decoding loop: [inl] when a pad sequence ends the input *)
Fixpoint b64_loop (s : string) (st : b64_state) : b64_state + b64_state :=
  match s with
  | EmptyString => inr st
  | String c t =>
      if Ascii.eqb c "=" then
        if (2 <=? quad_pos st)%N then
          if (4 <=? quad_pos st + (pads st + 1))%N then inl st
          else b64_loop t {| quad_pos := quad_pos st; leftchar := leftchar st;
                             pads := pads st + 1; out := out st |}
        else b64_loop t st
      else
        match b64_value c with
        | None => b64_loop t st
        | Some v =>
            b64_loop t
              (match quad_pos st with
               | 0%N => {| quad_pos := 1; leftchar := v; pads := 0; out := out st |}
               | 1%N => emit st (N.lor (N.shiftl (leftchar st) 2) (N.shiftr v 4))
                             (N.land v 15) 2
               | 2%N => emit st (N.lor (N.shiftl (leftchar st) 4) (N.shiftr v 2))
                             (N.land v 3) 3
               | _ => emit st (N.lor (N.shiftl (leftchar st) 6) v) 0 0
               end)
        end
  end.

Definition b64decode (s : string) : option string :=
  let start := {| quad_pos := 0; leftchar := 0; pads := 0; out := [] |} in
  match b64_loop s start with
  | inl st => Some (string_of_list_ascii (rev (out st)))
  | inr st =>
      if (quad_pos st =? 0)%N then Some (string_of_list_ascii (rev (out st)))
      else None
  end.

(** *** JSON *)

Definition is_ws (c : ascii) : bool :=
  Ascii.eqb c " " || Ascii.eqb c "009" || Ascii.eqb c "010" || Ascii.eqb c "013".

Fixpoint skip_ws (s : list ascii) : list ascii :=
  match s with
  | c :: t => if is_ws c then skip_ws t else s
  | [] => []
  end.

Definition is_digit (c : ascii) : bool := Validation.in_range 48 57 c.

Fixpoint take_digits (s : list ascii) (acc : list ascii) : list ascii * list ascii :=
  match s with
  | c :: t => if is_digit c then take_digits t (acc ++ [c]) else (acc, s)
  | [] => (acc, [])
  end.

Definition digits_value (ds : list ascii) : Z :=
  foldl (fun n c => 10 * n + (Z.of_nat (nat_of_ascii c) - 48)) 0 ds.

(** [-? int frac?]; a leading zero is followed by no further digit *)
Definition read_number (s : list ascii) : option (json * list ascii) :=
  let '(neg, s) := match s with
                   | c :: t => if Ascii.eqb c "-" then (true, t) else (false, s)
                   | [] => (false, s)
                   end in
  let '(ip, r) := take_digits s [] in
  match ip with
  | [] => None
  | d :: more =>
      if Ascii.eqb d "0" && negb (bool_decide (more = [])) then None
      else
        let sign := if neg then (-1)%Z else 1%Z in
        match r with
        | "."%char :: r' =>
            let '(fp, r'') := take_digits r' [] in
            match fp with
            | [] => None
            | _ =>
                let den := Z.to_pos (10 ^ Z.of_nat (length fp)) in
                Some (JNum (Qred ((sign * (digits_value ip * Zpos den + digits_value fp)) # den)),
                      r'')
            end
        | _ => Some (JNum (inject_Z (sign * digits_value ip)), r)
        end
  end.

(** the text of a string literal after its opening quote *)
Fixpoint read_string (s : list ascii) (acc : list ascii) : option (string * list ascii) :=
  match s with
  | [] => None
  | c :: t =>
      if Ascii.eqb c dquote then Some (string_of_list_ascii acc, t)
      else if Ascii.eqb c "\" then
        match t with
        | e :: t' =>
            let esc (x : ascii) := read_string t' (acc ++ [x]) in
            if Ascii.eqb e dquote then esc dquote
            else if Ascii.eqb e "\" then esc "\"%char
            else if Ascii.eqb e "/" then esc "/"%char
            else if Ascii.eqb e "n" then esc "010"%char
            else if Ascii.eqb e "t" then esc "009"%char
            else if Ascii.eqb e "r" then esc "013"%char
            else if Ascii.eqb e "b" then esc "008"%char
            else if Ascii.eqb e "f" then esc "012"%char
            else None
        | [] => None
        end
      else if (nat_of_ascii c <? 32)%nat then None
      else read_string t (acc ++ [c])
  end.

(** a later pair with the same key replaces the value and keeps the place *)
Fixpoint set_key (k : string) (v : json) (kv : list (string * json)) : list (string * json) :=
  match kv with
  | [] => [(k, v)]
  | (k', v') :: t => if String.eqb k' k then (k, v) :: t else (k', v') :: set_key k v t
  end.

Definition starts (p : string) (s : list ascii) : option (list ascii) :=
  let lp := list_ascii_of_string p in
  if bool_decide (take (length lp) s = lp) then Some (List.skipn (length lp) s) else None.

Section Containers.

Variable value : list ascii → option (json * list ascii).

(** after [[] or [,]: the remaining elements of an array *)
Fixpoint elements (n : nat) (s : list ascii) (acc : list json) : option (json * list ascii) :=
  match n with
  | O => None
  | S n =>
      match value s with
      | Some (v, r) =>
          match skip_ws r with
          | c :: r' =>
              if Ascii.eqb c "," then elements n r' (acc ++ [v])
              else if Ascii.eqb c "]" then Some (JArr (acc ++ [v]), r')
              else None
          | [] => None
          end
      | None => None
      end
  end.

(** after [{] or [,]: the remaining members of an object *)
Fixpoint members (n : nat) (s : list ascii) (acc : list (string * json))
  : option (json * list ascii) :=
  match n with
  | O => None
  | S n =>
      match skip_ws s with
      | q :: r =>
          if Ascii.eqb q dquote then
            match read_string r [] with
            | Some (k, r1) =>
                match skip_ws r1 with
                | c :: r2 =>
                    if Ascii.eqb c ":" then
                      match value r2 with
                      | Some (v, r3) =>
                          match skip_ws r3 with
                          | d :: r4 =>
                              if Ascii.eqb d "," then members n r4 (set_key k v acc)
                              else if Ascii.eqb d "}" then Some (JObj (set_key k v acc), r4)
                              else None
                          | [] => None
                          end
                      | None => None
                      end
                    else None
                | [] => None
                end
            | None => None
            end
          else None
      | [] => None
      end
  end.

End Containers.

Fixpoint value (fuel : nat) (s : list ascii) : option (json * list ascii) :=
  match fuel with
  | O => None
  | S fuel =>
      match skip_ws s with
      | [] => None
      | (c :: r) as s' =>
          if Ascii.eqb c "{" then
            match skip_ws r with
            | d :: r' =>
                if Ascii.eqb d "}" then Some (JObj [], r')
                else members (value fuel) (length s) r []
            | [] => None
            end
          else if Ascii.eqb c "[" then
            match skip_ws r with
            | d :: r' =>
                if Ascii.eqb d "]" then Some (JArr [], r')
                else elements (value fuel) (length s) r []
            | [] => None
            end
          else if Ascii.eqb c dquote then
            match read_string r [] with
            | Some (str, r') => Some (JStr str, r')
            | None => None
            end
          else
            match starts "true" s', starts "false" s', starts "null" s' with
            | Some r', _, _ => Some (JBool true, r')
            | _, Some r', _ => Some (JBool false, r')
            | _, _, Some r' => Some (JNull, r')
            | _, _, _ => read_number s'
            end
      end
  end.

Definition json_loads (text : string) : option json :=
  let s := list_ascii_of_string text in
  match value (S (length s)) s with
  | Some (v, r) => if bool_decide (skip_ws r = []) then Some v else None
  | None => None
  end.

(** *** numbers *)

(** [round(x, ndigits)], ties to even, for [0 <= ndigits] *)
Definition round (x : Q) (ndigits : Z) : Q :=
  let scale := 10 ^ ndigits in
  let num := Qnum x * scale in
  let den := Zpos (Qden x) in
  let fl := num / den in
  let twice := 2 * (num - fl * den) in
  let n := if (twice <? den)%Z then fl
           else if (den <? twice)%Z then fl + 1
           else if Z.even fl then fl else fl + 1 in
  Qred (n # Z.to_pos scale).

Definition log (x base : Q) : Q :=
  inject_Z (Z.log2 (Qnum x) - Z.log2 (Zpos (Qden x))).

(** *** the environment *)

(** a resolver whose every query times out *)
Definition resolve_timeout (domain rdtype : string) : Validation.exn + bool :=
  inl (Validation.OtherError "The DNS operation timed out.").

(** a resolver that finds an MX record for every domain *)
Definition resolve_mx (domain rdtype : string) : Validation.exn + bool := inr true.

(** joining by concatenation: enough for absolute references *)
Definition urljoin (base rel : string) : string := base +:+ rel.

End Ref.

(** ** What the properties say

    The predicates the theorems are stated with: the fusion invariant,
    the gating of the fingerprint label, segment matching, the
    candidates handed to the email validator, the entropy rules in the
    specification's words, the outcomes and the invariant of the
    traversal loop, and the matches the detector deduplicates. *)

Module Statements.

Section Fusion.

Variable model_predict : list Q → string.
Variable model_predict_proba : list Q → list Q.
Variable model_classes : list string.
Variable model_top_features : list (string * Q).

Local Abbreviation predict :=
  (Risk.predict model_predict model_predict_proba model_classes model_top_features).

(** What the fusion invariant says of a finding [f] and of the
    finding [g] that [assess_risk] makes of it. *)
Definition fusion_invariant (f g : finding) : Prop :=
  ∃ rule_score rule_severity rule_factors ml_score ml_severity ml_top r,
    Risk.calculate_base_score f = Some (rule_score, rule_severity, rule_factors)
    ∧ predict f = Some (ml_score, ml_severity, ml_top)
    ∧ risk g = Some r
    ∧ let final_score := Risk.fuse rule_score ml_score in
      final_score = Qmax (inject_Z rule_score) (Qmin (inject_Z (rule_score + 20)) ml_score)
      ∧ (inject_Z rule_score <= final_score)%Q
      ∧ (final_score - inject_Z rule_score <= 20)%Q
      ∧ score r = Py.int final_score
      ∧ (rule_score ≤ score r ≤ rule_score + 20)%Z
      ∧ severity r = severity_of final_score.

End Fusion.

Section Exposure.

Variables sensitive_files admin_paths : gset string.

Local Abbreviation check_sensitive_file := (Osint.check_sensitive_file sensitive_files).
Local Abbreviation check_admin_path := (Osint.check_admin_path admin_paths).

(** the labels [correlate] left on a finding *)
Definition osint_labels (g : finding) : list string := from_option labels [] (osint g).

(** The three checks that set an exposure surface. *)
Definition sensitive_file_hit (f : finding) : bool :=
  check_sensitive_file (default "" (url f)) || check_sensitive_file (default "" (source_file f)).
Definition admin_path_hit (f : finding) : bool :=
  check_admin_path (default "" (url f)) || check_admin_path (default "" (source_file f)).
Definition public_js_hit (f : finding) : bool :=
  Py.truthy (default "" (source_file f)) && Py.endswith (default "" (source_file f)) ".js".

(** What C3 says of one finding, given the global provider list. *)
Definition fingerprint_gated (providers : list string) (g : finding) : Prop :=
  let ls := osint_labels g in
  ("INFRASTRUCTURE_FINGERPRINT_EXPOSED" ∈ ls →
     providers ≠ []
     ∧ ("KNOWN_SENSITIVE_FILE" ∈ ls ∨ "EXPOSED_ADMIN_PATH" ∈ ls
        ∨ "PUBLICLY_EXPOSED_ARTIFACT" ∈ ls))
  ∧ ("KNOWN_SENSITIVE_FILE" ∉ ls → "EXPOSED_ADMIN_PATH" ∉ ls →
     "PUBLICLY_EXPOSED_ARTIFACT" ∉ ls → "INFRASTRUCTURE_FINGERPRINT_EXPOSED" ∉ ls).

End Exposure.

(** A path matches when one of its segments between slashes, lowered,
    is an entry of the dataset. *)
Definition segment_match (admin_paths : gset string) (path : string) : Prop :=
  ∃ seg, seg ∈ Py.split "/" (Py.strip_by (Ascii.eqb "/") path)
         ∧ seg ≠ "" ∧ Py.lower seg ∈ admin_paths.

(** The candidates [analyze] hands to [_validate_email]. *)
Definition email_candidate (candidate secret_type : string) : bool :=
  Py.truthy candidate
  && negb (Py.contains "jwt" (Py.lower secret_type) || Validation._looks_like_jwt candidate)
  && (Py.contains "email" (Py.lower secret_type) || Py.contains "@" candidate)
  && Validation.email_shaped candidate.

Section Decode.

Variable b64decode : string → option string.
Variable json_loads : string → option json.

(** Whether the base64 block of [_validate_generic_token] returns:
    the token is base64-shaped, of a length that is a multiple of 4,
    its decoded bytes hold both an opening and a closing brace, and
    they parse as a JSON object or array. *)
Definition decodes_to_json (token : string) : bool :=
  Validation.b64_shaped token && (Py.len token mod 4 =? 0)%Z &&
  match b64decode token with
  | Some decoded =>
      Py.contains "{" decoded && Py.contains "}" decoded &&
      match json_loads decoded with
      | Some obj => Validation.is_dict obj || Validation.is_list obj
      | None => false
      end
  | None => false
  end.

End Decode.

(** The entropy rules, as the specification words them. *)
Definition entropy_rules (H : Q) (len : Z) (l : vlabel) (conf : Z) : Prop :=
  ((20 < len)%Z ∧ (H < 2.5)%Q → l = Invalid ∧ conf = 80)
  ∧ (¬ ((20 < len)%Z ∧ (H < 2.5)%Q) → (4.5 < H)%Q → l = Likely ∧ conf = 70)
  ∧ (¬ ((20 < len)%Z ∧ (H < 2.5)%Q) → (H <= 4.5)%Q → l = Likely ∧ conf = 50).

Section Traversal.

Variable urljoin : string → string → string.
Variable DEEP_JS_PATTERNS : list (string → list string).
Variable list_of_set : gset string → list string.
Variable safe_get : string → option string.
Variable start_url : string.
Variable max_js : nat.

Local Abbreviation normalize_url := (Crawler.normalize_url urljoin).
Local Abbreviation extract_nested_js :=
  (Crawler.extract_nested_js urljoin DEEP_JS_PATTERNS list_of_set).
Local Abbreviation enqueue_nested := (Crawler.enqueue_nested urljoin).
Local Abbreviation fetched := (Crawler.fetched safe_get).
Local Abbreviation references :=
  (Crawler.references urljoin DEEP_JS_PATTERNS list_of_set safe_get).

(** The three outcomes of an iteration that takes [q] from the queue:
    nothing new to visit; a new URL that yields no asset; a new URL
    that yields an asset and whose references are enqueued. *)
Inductive outcome (st st' : Crawler.state) : Prop :=
| skipped q tl :
    Crawler.queue st = q :: tl →
    (∀ v, normalize_url start_url q = Some v → Py.truthy v = true → v ∈ Crawler.visited st) →
    st' = {| Crawler.visited := Crawler.visited st; Crawler.queue := tl;
             Crawler.discovered := Crawler.discovered st |} →
    outcome st st'
| no_asset q tl v :
    Crawler.queue st = q :: tl →
    normalize_url start_url q = Some v → Py.truthy v = true → v ∉ Crawler.visited st →
    fetched v = None →
    st' = {| Crawler.visited := {[ v ]} ∪ Crawler.visited st; Crawler.queue := tl;
             Crawler.discovered := Crawler.discovered st |} →
    outcome st st'
| asset q tl v content :
    Crawler.queue st = q :: tl →
    normalize_url start_url q = Some v → Py.truthy v = true → v ∉ Crawler.visited st →
    fetched v = Some content →
    st' = {| Crawler.visited := {[ v ]} ∪ Crawler.visited st;
             Crawler.queue := enqueue_nested v ({[ v ]} ∪ Crawler.visited st) tl
                                (extract_nested_js content v);
             Crawler.discovered := (Crawler.discovered st ++ [Crawler.External v])%list |} →
    outcome st st'.

Definition crawl_inv (seeds : list string) (st : Crawler.state) : Prop :=
  (size (Crawler.visited st) ≤ max_js)%nat
  ∧ (∀ q, q ∈ seeds →
       q ∈ Crawler.queue st
       ∨ ∀ v, normalize_url start_url q = Some v → Py.truthy v = true →
              v ∈ Crawler.visited st)
  ∧ (∀ u n, u ∈ Crawler.visited st → n ∈ references u →
       n ∈ Crawler.visited st ∨ n ∈ Crawler.queue st)
  ∧ NoDup (Crawler.externals st)
  ∧ (∀ u, u ∈ Crawler.externals st ↔ u ∈ Crawler.visited st ∧ is_Some (fetched u)).

End Traversal.

Section Matches.

Variable parseScript : string → option Leaks.node.

(** the matches of both passes, before the final loop *)
Definition candidates (content source : string) (patterns : list Leaks.rule) : list Leaks.leak :=
  (flat_map (Leaks.rule_leaks content source) patterns
   ++ omap (Leaks.literal_leak source) (Leaks._detect_literals_ast parseScript content))%list.

End Matches.

End Statements.

(** ** Concrete inputs *)

Module Sample.

(** a classifier that answers Medium with probabilities 1/4, 1/4, 1/2
    for High, Low, Medium: a weighted score of 50 *)
Definition model_predict (features : list Q) : string := "Medium".
Definition model_predict_proba (features : list Q) : list Q := [1 # 4; 1 # 4; 1 # 2]%Q.
Definition model_classes : list string := ["High"; "Low"; "Medium"].
Definition model_top_features : list (string * Q) :=
  [("is_valid", 1 # 2); ("category_score", 1 # 4); ("is_public", 1 # 8)]%Q.

(** a well-formed token: the header names the algorithm HS256 and the
    type JWT, the payload holds the claims [sub], [name] and [iat] *)
Definition jwt : string :=
  "eyJhbGciOiJIUzI1NiIsInR5cCI6IkpXVCJ9"
  +:+ ".eyJzdWIiOiIxMjM0NTY3ODkwIiwibmFtZSI6IkpvaG4gRG9lIiwiaWF0IjoxNTE2MjM5MDIyfQ"
  +:+ ".SflKxwRJSMeKKF2QT4fwpMeJf36POk6yJV_adQssw5c".

(** a finding of the rule [jwt_token], as the detector stores it *)
Definition jwt_leak : finding :=
  {| rule_id := Some "jwt_token"; category := Some "jwt"; secret_match := Some jwt;
     secret := None; excerpt := Some ("token: " +:+ jwt); url := None;
     source_file := Some "https://target.example/static/app.js"; reuse_count := None;
     validation := None; osint := None; risk := None |}.

(** the base64 text of a JSON object with the one member [a], of value 1 *)
Definition json_token : string := "eyJhIjoxfQ==".

(** the datasets of the specification's path-segment example, and
    with [dashboard] added *)
Definition admin_paths : gset string := {[ "admin"; "wp-admin" ]}.
Definition admin_paths_dashboard : gset string := {[ "admin"; "wp-admin"; "dashboard" ]}.

(** the datasets and findings of the repository's correlator test *)
Definition sensitive_files : gset string := {[ "config.xml"; "id_rsa"; ".env" ]}.
Definition disposable_domains : gset string := {[ "trashmail.com"; "tempmail.org" ]}.
Definition free_domains : gset string := {[ "gmail.com"; "yahoo.com" ]}.
Definition breached_org_domains : gset string := {[ "hacked-corp.com" ]}.
Definition cloud_fingerprints : list (string * list string) :=
  [("aws", ["amazonaws"; "cloudfront"]); ("azure", ["azure"; "windows.net"]);
   ("cloudflare", ["cloudflare"])].

Definition env_finding : finding :=
  {| rule_id := None; category := Some "GENERIC"; secret_match := None; secret := None;
     excerpt := Some "DB_PASSWORD=123"; url := Some "http://target.com/.env";
     source_file := Some "http://target.com/.env"; reuse_count := None;
     validation := None; osint := None; risk := None |}.

Definition email_finding : finding :=
  {| rule_id := None; category := Some "EMAIL"; secret_match := None; secret := None;
     excerpt := Some "bob@trashmail.com"; url := Some "http://target.com/contact";
     source_file := Some "main.js"; reuse_count := None;
     validation := None; osint := None; risk := None |}.

Definition page_finding : finding :=
  {| rule_id := None; category := Some "INFO"; secret_match := None; secret := None;
     excerpt := Some "Nothing here"; url := Some "http://target.com/safe";
     source_file := Some "index.html"; reuse_count := None;
     validation := None; osint := None; risk := None |}.

Definition cloudflare_context : Osint.crawl_context :=
  {| Osint.headers := [("Server", "cloudflare")]; Osint.urls := []; Osint.js_files := [] |}.

(** a site of three scripts: [a.js] refers to [c.js], and the page
    refers to [a.js] and [b.js] *)
Definition site : string := "http://t.example/".
Definition a_js : string := "http://t.example/a.js".
Definition b_js : string := "http://t.example/b.js".
Definition c_js : string := "http://t.example/c.js".

(** a pattern that finds the one reference of the body [import c] *)
Definition findall_import (content : string) : list string :=
  if String.eqb content "import c" then [c_js] else [].

(** every script is served *)
Definition safe_get_all (u : string) : option string :=
  if String.eqb u a_js then Some "import c"
  else if String.eqb u b_js || String.eqb u c_js then Some "x"
  else None.

(** the request for [a.js] fails *)
Definition safe_get_a_fails (u : string) : option string :=
  if String.eqb u a_js then None else safe_get_all u.

(** [a.js] is served with an empty body *)
Definition safe_get_a_empty (u : string) : option string :=
  if String.eqb u a_js then Some "" else safe_get_all u.

(** the fallback rule for bearer tokens, with the matches [re] reports
    on [bearer_twice]: the token at 0..23 and again at 24..47 *)
Definition bearer_twice : string :=
  "Bearer abcdef0123456789;Bearer abcdef0123456789".

Definition bearer_finditer (content : string) : list Leaks.rmatch :=
  if String.eqb content bearer_twice then
    [ {| Leaks.groups := []; Leaks.group0 := "Bearer abcdef0123456789";
         Leaks.m_start := 0; Leaks.m_end := 23 |};
      {| Leaks.groups := []; Leaks.group0 := "Bearer abcdef0123456789";
         Leaks.m_start := 24; Leaks.m_end := 47 |} ]
  else [].

Definition fallback_bearer : Leaks.rule :=
  {| Leaks.r_rule_id := Some "fallback_bearer";
     Leaks.r_label := "Authorization: Bearer token";
     Leaks.r_regex := Some bearer_finditer;
     Leaks.r_severity := "high"; Leaks.r_category := "auth";
     Leaks.r_source := "fallback"; Leaks.r_enabled := true |}.

(** a parser that rejects every script *)
Definition parse_fails (content : string) : option Leaks.node := None.

End Sample.

(** ** The classifier's output as a distribution *)

(** the sum of a probability vector *)
Fixpoint Qsum (l : list Q) : Q :=
  match l with [] => 0%Q | p :: t => (p + Qsum t)%Q end.

(** ** Proof steps for the correlator *)

(** The steps of [correlate_one] thread a pair (labels, metadata):
    forget what a step computed. *)
Ltac forget_pairs :=
  repeat match goal with
         | |- context [match ?e with (a, b) => _ end] => destruct e as [? ?]; cbv beta iota
         end.

(** One step of [correlate_one]: the label list stays a sub-sequence
    of the labels of the steps so far. *)
Ltac label_step prev x H Hnew :=
  match goal with
  | |- context [match ?e with (a, b) => _ end] =>
      assert (Hnew : sublist e.1 (prev ++ [x])%list)
        by (repeat case_match; cbn [fst];
            first [ apply (sublist_app _ prev [x] [x]); [exact H | reflexivity]
                  | apply (sublist_inserts_r [x] _ prev); exact H ]);
      destruct e as [? ?]; cbv beta iota; cbn [fst app] in Hnew; clear H
  end.

(** * Properties *)

(** ** The built-ins on small inputs *)

Example lower_ex : Py.lower "Wp-Admin_1" = "wp-admin_1".
Proof. reflexivity. Qed.

Example split_ex : Py.split "/" "/a//b" = [""; "a"; ""; "b"].
Proof. reflexivity. Qed.

Example strip_ex : Py.strip_by (Ascii.eqb "/") "//a/b/" = "a/b".
Proof. reflexivity. Qed.

Example int_ex : Py.int (-7 # 2) = -3 ∧ Py.int (7 # 2) = 3.
Proof. split; reflexivity. Qed.

Example b64decode_ex : Ref.b64decode "aGVsbG8=" = Some "hello".
Proof. reflexivity. Qed.

Example json_loads_ex :
  Ref.json_loads "[1, 2.50, true, null, {}]"
  = Some (JArr [JNum 1; JNum (5 # 2); JBool true; JNull; JObj []]).
Proof. reflexivity. Qed.

(** ** Comparisons and truncation *)

Section Numbers.

#[local] Open Scope Q_scope.

Lemma Qle_bool_false (a b : Q) : Qle_bool a b = false → b < a.
Proof.
  intros H. apply Qnot_le_lt. intros Hle.
  apply Qle_bool_iff in Hle. congruence.
Qed.

(** Python's [max] and [min] pick the same argument as [Qmax], [Qmin]. *)
Lemma py_max_Qmax (a b : Q) : Py.max a b = Qmax a b.
Proof.
  unfold Py.max, Qmax, GenericMinMax.gmax.
  destruct (Qle_bool b a) eqn:E;
    [apply Qle_bool_iff in E | apply Qle_bool_false in E];
    destruct (Qcompare_spec a b) as [H | H | H]; try reflexivity;
    exfalso; unfold Qle, Qlt, Qeq in *; lia.
Qed.

Lemma py_min_Qmin (a b : Q) : Py.min a b = Qmin a b.
Proof.
  unfold Py.min, Qmin, GenericMinMax.gmin.
  destruct (Qle_bool a b) eqn:E;
    [apply Qle_bool_iff in E | apply Qle_bool_false in E];
    destruct (Qcompare_spec a b) as [H | H | H]; try reflexivity;
    exfalso; unfold Qle, Qlt, Qeq in *; lia.
Qed.

(** [int] keeps a float between the integers that bound it. *)
Lemma py_int_lower (z : Z) (q : Q) : inject_Z z <= q → (z <= Py.int q)%Z.
Proof.
  destruct q as [n d]. unfold Qle, Py.int. simpl. intros H.
  destruct (Z_lt_le_dec n 0) as [Hn | Hn].
  - replace n with (- (- n))%Z by lia.
    rewrite Z.quot_opp_l by lia.
    rewrite Z.quot_div_nonneg by lia.
    assert (- n / Z.pos d <= - z)%Z; [| lia].
    apply Z.div_le_upper_bound; lia.
  - rewrite Z.quot_div_nonneg by lia.
    apply Z.div_le_lower_bound; lia.
Qed.

Lemma py_int_upper (z : Z) (q : Q) : q <= inject_Z z → (Py.int q <= z)%Z.
Proof.
  destruct q as [n d]. unfold Qle, Py.int. simpl. intros H.
  destruct (Z_lt_le_dec n 0) as [Hn | Hn].
  - replace n with (- (- n))%Z by lia.
    rewrite Z.quot_opp_l by lia.
    rewrite Z.quot_div_nonneg by lia.
    assert (- z <= - n / Z.pos d)%Z; [| lia].
    apply Z.div_le_lower_bound; lia.
  - rewrite Z.quot_div_nonneg by lia.
    apply Z.div_le_upper_bound; lia.
Qed.

Lemma uplift_le (x : Q) (r k : Z) : x <= inject_Z (r + k) → x - inject_Z r <= inject_Z k.
Proof.
  destruct x as [n d]. unfold Qle, Qminus, Qplus, Qopp, inject_Z. simpl. lia.
Qed.

(** The fused value stays within 20 points above the rule score. *)
Lemma fuse_bounds (rule_score : Z) (ml_score : Q) :
  inject_Z rule_score <= Risk.fuse rule_score ml_score
  ∧ Risk.fuse rule_score ml_score <= inject_Z (rule_score + 20).
Proof.
  unfold Risk.fuse. rewrite py_max_Qmax, py_min_Qmin. split.
  - apply Q.le_max_l.
  - apply Q.max_lub.
    + rewrite <- Zle_Qle. lia.
    + apply Q.le_min_l.
Qed.

End Numbers.

(** ** Risk fusion *)

Section RiskFacts.

Variable model_predict : list Q → string.
Variable model_predict_proba : list Q → list Q.
Variable model_classes : list string.
Variable model_top_features : list (string * Q).

Local Abbreviation predict :=
  (Risk.predict model_predict model_predict_proba model_classes model_top_features).
Local Abbreviation assess_one :=
  (Risk.assess_one model_predict model_predict_proba model_classes model_top_features).
Local Abbreviation assess_risk :=
  (Risk.assess_risk model_predict model_predict_proba model_classes model_top_features).
Local Abbreviation fusion_invariant :=
  (Statements.fusion_invariant model_predict model_predict_proba model_classes
     model_top_features).

Lemma assess_one_fusion (f g : finding) :
  assess_one f = Some g → fusion_invariant f g.
Proof.
  unfold Risk.assess_one. intros H.
  destruct (Risk.calculate_base_score f) as [[[rule_score rule_severity] rule_factors] |] eqn:Hr;
    [| discriminate].
  destruct (predict f) as [[[ml_score ml_severity] ml_top] |] eqn:Hm; [| discriminate].
  simpl in H. injection H as <-.
  destruct (fuse_bounds rule_score ml_score) as [Hlo Hhi].
  eexists rule_score, rule_severity, rule_factors, ml_score, ml_severity, ml_top, _.
  split; [exact Hr |]. split; [exact Hm |]. split; [reflexivity |].
  cbv zeta. split; [| split; [| split; [| split; [| split]]]].
  - unfold Risk.fuse. now rewrite py_max_Qmax, py_min_Qmin.
  - exact Hlo.
  - now apply uplift_le.
  - reflexivity.
  - simpl. split; [now apply py_int_lower | now apply py_int_upper].
  - reflexivity.
Qed.

(** C1. For every finding processed by [assess_risk], the final score
    is [max(rule_score, min(rule_score + 20, ml_score))], with
    [rule_score] from [calculate_base_score] and [ml_score] the
    classifier's weighted score; hence it is at least the rule score
    and exceeds it by at most 20, and so does the integer stored as
    the finding's risk score. *)
Theorem C1_fusion_bounded (findings out : list finding) :
  assess_risk findings = Some out → Forall2 fusion_invariant findings out.
Proof.
  unfold Risk.assess_risk. intros H.
  apply mapM_Some in H.
  induction H as [| f g fs gs Hfg _ IH]; constructor; [| exact IH].
  now apply assess_one_fusion.
Qed.

(** [assess_risk] does process every finding whose validation field
    is the analyzer's dict. *)
Lemma assess_one_total (f : finding) (r : vresult) :
  is_Some (assess_one (set_validation (result_doc r) f)).
Proof.
  unfold Risk.assess_one, Risk.calculate_base_score, Risk.predict, Risk._extract_features.
  simpl. eexists. reflexivity.
Qed.

End RiskFacts.

(** The premise of C1 holds of a finding the validation stage has
    annotated, and the theorem then bounds its score: rule score 15,
    classifier score 50, final score 35. *)
Lemma C1_fusion_bounded_witness :
  let findings := [set_validation (result_doc (Validation._result Valid 95 "Structurally valid JWT" ∅))
                     Sample.jwt_leak] in
  ∃ out,
    Risk.assess_risk Sample.model_predict Sample.model_predict_proba Sample.model_classes
      Sample.model_top_features findings = Some out
    ∧ Forall2 (Statements.fusion_invariant Sample.model_predict Sample.model_predict_proba
                 Sample.model_classes Sample.model_top_features) findings out
    ∧ (score <$> (out !! 0%nat ≫= risk)) = Some 35.
Proof.
  eexists. split; [vm_compute; reflexivity |]. split.
  - apply (C1_fusion_bounded Sample.model_predict Sample.model_predict_proba
             Sample.model_classes Sample.model_top_features).
    vm_compute. reflexivity.
  - vm_compute. reflexivity.
Defined.

(** ** The validity bonus of the rule component *)

Lemma result_doc_no_validity (r : vresult) : result_doc r !! "validity" = None.
Proof.
  unfold result_doc. now rewrite !lookup_insert_ne, lookup_empty by discriminate.
Qed.

(** The rule score of a finding does not depend on what the analyzer
    said of it: the analyzer's dict has no key [validity]. *)
Lemma calculate_base_score_verdict_blind (r r' : vresult) (f : finding) :
  Risk.calculate_base_score (set_validation (result_doc r) f)
  = Risk.calculate_base_score (set_validation (result_doc r') f).
Proof.
  unfold Risk.calculate_base_score, get_str. simpl.
  now rewrite !result_doc_no_validity.
Qed.

Section ValidationStage.

Variable b64decode : string → option string.
Variable json_loads : string → option json.
Variable log : Q → Q → Q.
Variable round : Q → Z → Q.
Variable DNS_AVAILABLE : bool.
Variable resolve : string → string → Validation.exn + bool.

Local Abbreviation validate_leak :=
  (Validation.validate_leak b64decode json_loads log round DNS_AVAILABLE resolve).

(** What the loop body writes, when it does not raise. *)
Lemma validate_leak_annotates (leak f : finding) :
  validate_leak leak = Some f → ∃ res, f = set_validation (result_doc res) leak.
Proof.
  unfold Validation.validate_leak.
  destruct (Validation.leak_verdict _ _ _ _ _ _ leak) as [res |]; [| discriminate].
  simpl. intros [= <-]. eauto.
Qed.

(** The validity rule contributes nothing to a finding annotated by the
    validation stage, whatever the verdict: the score is the category
    and OSINT part alone, and neither validity factor is listed. *)
Lemma validity_bonus_absent (leak f : finding) :
  validate_leak leak = Some f →
  ∃ score sev factors,
    Risk.calculate_base_score f = Some (score, sev, factors)
    ∧ factors = ((Risk.category_rule (Py.upper (default "" (category leak)))).2
                 ++ (Risk.osint_rule (from_option labels [] (osint leak))).2)%list
    ∧ (score ≤ 50)%Z.
Proof.
  intros H. apply validate_leak_annotates in H as [res ->].
  unfold Risk.calculate_base_score, get_str. simpl.
  rewrite result_doc_no_validity. simpl.
  eexists _, _, _. split; [reflexivity |]. split; [reflexivity |].
  unfold Risk.category_rule, Risk.osint_rule.
  repeat match goal with |- context [if ?b then _ else _] => destruct b end;
    simpl; lia.
Qed.

End ValidationStage.

(** C2, on the code: a finding of the rule [jwt_token] whose token is a
    well-formed JWT leaves the validation stage labelled [valid], and
    [calculate_base_score] gives it 15 points, the category tier alone:
    the 60 points for a confirmed secret are not added. *)
Theorem C2_valid_verdict_earns_no_bonus
    (log : Q → Q → Q) (round : Q → Z → Q) (DNS_AVAILABLE : bool)
    (resolve : string → string → Validation.exn + bool) :
  ∃ f,
    Validation.validate_leak Ref.b64decode Ref.json_loads log round
      DNS_AVAILABLE resolve Sample.jwt_leak = Some f
    ∧ (validation f ≫= (.!! "label")) = Some (PStr "valid")
    ∧ Risk.calculate_base_score f = Some (15, "Low", ["High-Value Secret Type: JWT"]).
Proof.
  eexists. split; [reflexivity |]. split.
  - vm_compute. reflexivity.
  - rewrite (calculate_base_score_verdict_blind _ (Validation._result Invalid 0 "" ∅)).
    vm_compute. reflexivity.
Qed.

(** ** OSINT correlation *)

Lemma elem_of_fromkeys (x : string) (l seen : list string) :
  x ∈ Osint.fromkeys seen l ↔ x ∈ l ∧ x ∉ seen.
Proof.
  revert seen. induction l as [| y l IH]; intros seen; simpl.
  - rewrite elem_of_nil. tauto.
  - unfold Py.mem. case_bool_decide as Hy.
    + rewrite IH, elem_of_cons. split; [tauto |].
      intros [[-> | H] Hs]; [contradiction | tauto].
    + rewrite !elem_of_cons, IH, elem_of_cons.
      destruct (decide (x = y)) as [-> | Hne]; [tauto |]. tauto.
Qed.

Lemma mem_fromkeys (x : string) (l : list string) :
  Py.mem x (Osint.fromkeys [] l) = Py.mem x l.
Proof.
  unfold Py.mem. apply bool_decide_ext.
  rewrite elem_of_fromkeys, elem_of_nil. tauto.
Qed.

Section OsintFacts.

Variables sensitive_files disposable_domains free_domains
          breached_org_domains admin_paths : gset string.
Variable cloud_fingerprints : list (string * list string).

Local Abbreviation check_sensitive_file := (Osint.check_sensitive_file sensitive_files).
Local Abbreviation check_admin_path := (Osint.check_admin_path admin_paths).
Local Abbreviation correlate_one :=
  (Osint.correlate_one sensitive_files disposable_domains free_domains
     breached_org_domains admin_paths).
Local Abbreviation detect_cloud_provider := (Osint.detect_cloud_provider cloud_fingerprints).
Local Abbreviation correlate :=
  (Osint.correlate sensitive_files disposable_domains free_domains
     breached_org_domains admin_paths cloud_fingerprints).
Local Abbreviation osint_labels := Statements.osint_labels.
Local Abbreviation sensitive_file_hit := (Statements.sensitive_file_hit sensitive_files).
Local Abbreviation admin_path_hit := (Statements.admin_path_hit admin_paths).
Local Abbreviation public_js_hit := Statements.public_js_hit.
Local Abbreviation fingerprint_gated := Statements.fingerprint_gated.

(** The labels of the exposure checks and of the fingerprint step,
    read off the code of [correlate_one]. *)
Lemma correlate_one_labels (providers : list string) (f : finding) :
  let ls := osint_labels (correlate_one providers f) in
  Py.mem "KNOWN_SENSITIVE_FILE" ls = sensitive_file_hit f
  ∧ Py.mem "EXPOSED_ADMIN_PATH" ls = admin_path_hit f
  ∧ Py.mem "PUBLICLY_EXPOSED_ARTIFACT" ls = public_js_hit f
  ∧ Py.mem "INFRASTRUCTURE_FINGERPRINT_EXPOSED" ls
    = negb (bool_decide (providers = []))
      && (sensitive_file_hit f || admin_path_hit f || public_js_hit f).
Proof.
  unfold Statements.osint_labels, Osint.correlate_one, Statements.sensitive_file_hit,
    Statements.admin_path_hit, Statements.public_js_hit.
  cbv zeta.
  destruct (check_sensitive_file (default "" (url f)) || check_sensitive_file (default "" (source_file f)));
  destruct (check_admin_path (default "" (url f)) || check_admin_path (default "" (source_file f)));
  cbv beta iota;
  (destruct (Osint.truthy_opt _);
   [destruct (Osint.check_email_domain _ _ _ _) as [[dtype dom] |];
    [destruct (Py.mem dtype _) |] |]);
  cbv beta iota;
  destruct (Py.truthy (default "" (source_file f)) && Py.endswith (default "" (source_file f)) ".js");
  destruct providers as [| p ps];
  destruct (1 <? default 0 (reuse_count f))%Z;
  cbn -[Osint.fromkeys Py.mem]; rewrite ?mem_fromkeys;
  repeat split; reflexivity.
Qed.

Lemma correlate_one_gated (providers : list string) (f : finding) :
  fingerprint_gated providers (correlate_one providers f).
Proof.
  destruct (correlate_one_labels providers f) as (H1 & H2 & H4 & H5).
  unfold Statements.fingerprint_gated. cbv zeta.
  set (ls := osint_labels (correlate_one providers f)) in *.
  unfold Py.mem in *.
  assert (Hgate : "INFRASTRUCTURE_FINGERPRINT_EXPOSED" ∈ ls →
                  providers ≠ []
                  ∧ ("KNOWN_SENSITIVE_FILE" ∈ ls ∨ "EXPOSED_ADMIN_PATH" ∈ ls
                     ∨ "PUBLICLY_EXPOSED_ARTIFACT" ∈ ls)).
  { intros Hin. apply (bool_decide_eq_true_2 _) in Hin. rewrite H5 in Hin.
    apply andb_true_iff in Hin as [Hp Hs]. split.
    - apply negb_true_iff, bool_decide_eq_false in Hp. exact Hp.
    - rewrite <- H1, <- H2, <- H4 in Hs.
      apply orb_true_iff in Hs as [Hs | Hs]; [apply orb_true_iff in Hs as [Hs | Hs] |];
        apply bool_decide_eq_true_1 in Hs; tauto. }
  split; [exact Hgate |].
  intros N1 N2 N4 Hin. destruct (Hgate Hin) as [_ [H | [H | H]]]; contradiction.
Qed.

(** C3. [correlate] attaches INFRASTRUCTURE_FINGERPRINT_EXPOSED to a
    finding only when the global provider list is non-empty and the
    finding carries the label of the sensitive-file, the admin-path or
    the public-JS check; a finding with none of these three labels
    never receives it, whatever the provider list. *)
Theorem C3_fingerprint_label_gated (findings : list finding) (ctx : Osint.crawl_context) :
  Forall (fingerprint_gated
            (detect_cloud_provider (Osint.headers ctx) (Osint.urls ctx) (Osint.js_files ctx)))
         (correlate findings ctx).
Proof.
  unfold Osint.correlate. destruct findings as [| f fs]; [constructor |].
  apply Forall_fmap, Forall_forall. intros g _. apply correlate_one_gated.
Qed.

End OsintFacts.

Lemma truthy_iff (s : string) : Py.truthy s = true ↔ s ≠ "".
Proof.
  unfold Py.truthy. rewrite negb_true_iff. split.
  - intros H ->. discriminate H.
  - intros H. apply String.eqb_neq. exact H.
Qed.

Lemma check_admin_path_segments (admin_paths : gset string) (path : string) :
  Osint.check_admin_path admin_paths path = true ↔ Statements.segment_match admin_paths path.
Proof.
  unfold Osint.check_admin_path, Statements.segment_match.
  destruct (Py.truthy path) eqn:Hp; simpl.
  - rewrite existsb_exists. split.
    + intros (p & Hin & Hd). apply bool_decide_eq_true_1 in Hd.
      apply list_elem_of_In, list_elem_of_fmap in Hin as (seg & -> & Hseg).
      apply list_elem_of_filter in Hseg as [Ht Hseg].
      exists seg. rewrite <- truthy_iff. auto.
    + intros (seg & Hseg & Hne & Hd). exists (Py.lower seg). split.
      * apply list_elem_of_In, list_elem_of_fmap. exists seg. split; [reflexivity |].
        apply list_elem_of_filter. split; [now apply truthy_iff | exact Hseg].
      * now apply bool_decide_eq_true_2.
  - split; [discriminate |].
    apply negb_false_iff, String.eqb_eq in Hp. subst path.
    intros (seg & Hseg & Hne & _). simpl in Hseg.
    apply list_elem_of_singleton in Hseg. contradiction.
Qed.

(** C5, as the code has it. The admin-path check matches full path
    segments only, never substrings.  Against the dataset
    {admin, wp-admin}, [/content/administration-guide] does not match
    and [/wp-admin] does; [/sub/dashboard] matches once [dashboard] is
    an entry of the dataset, as in {admin, wp-admin, dashboard}. *)
Theorem C5_admin_path_full_segments :
  (∀ admin_paths path,
     Osint.check_admin_path admin_paths path = true ↔ Statements.segment_match admin_paths path)
  ∧ Osint.check_admin_path Sample.admin_paths "/content/administration-guide" = false
  ∧ Osint.check_admin_path Sample.admin_paths "/wp-admin" = true
  ∧ Osint.check_admin_path Sample.admin_paths_dashboard "/sub/dashboard" = true
  ∧ Osint.check_admin_path Sample.admin_paths_dashboard "/content/administration-guide" = false.
Proof.
  split; [exact check_admin_path_segments |].
  repeat split; vm_compute; reflexivity.
Qed.

(** Against {admin, wp-admin} the path [/sub/dashboard] does not
    match: its segments are [sub] and [dashboard], and neither is an
    entry of the dataset. *)
Lemma C5_dashboard_not_in_dataset :
  Osint.check_admin_path Sample.admin_paths "/sub/dashboard" = false.
Proof. vm_compute. reflexivity. Qed.

(** ** The validation analyzer *)

Lemma split_length (c : ascii) (s : string) :
  length (Py.split c s) = S (Py.count c s).
Proof.
  induction s as [| a t IH]; [reflexivity |].
  simpl. destruct (Ascii.eqb a c); simpl.
  - now rewrite IH.
  - destruct (Py.split c t) as [| h r]; simpl in *; [discriminate | exact IH].
Qed.

Section AnalyzerFacts.

Variable b64decode : string → option string.
Variable json_loads : string → option json.
Variable log : Q → Q → Q.
Variable round : Q → Z → Q.
Variable resolve : string → string → Validation.exn + bool.

Local Abbreviation _shannon_entropy := (Validation._shannon_entropy log).
Local Abbreviation _validate_jwt := (Validation._validate_jwt b64decode json_loads log).
Local Abbreviation _validate_generic_token :=
  (Validation._validate_generic_token b64decode json_loads log round).
Local Abbreviation analyze :=
  (Validation.analyze b64decode json_loads log round).
Local Abbreviation email_candidate := Statements.email_candidate.
Local Abbreviation decodes_to_json := (Statements.decodes_to_json b64decode json_loads).
Local Abbreviation entropy_rules := Statements.entropy_rules.

(** The verdict [_result] builds for a confidence within range. *)
Lemma result_verdict (l : vlabel) (conf : Z) (why : string) (md : gmap string pyval) :
  (0 ≤ conf ≤ 100)%Z →
  label (Validation._result l conf why md) = l
  ∧ confidence (Validation._result l conf why md) = conf.
Proof. intros H. unfold Validation._result. simpl. split; [reflexivity | lia]. Qed.

(** C10. On the empty string the analyzer answers [invalid],
    confidence 0, reason [Empty secret], for every declared type, and
    whatever the decoders, the resolver and its availability would have
    answered: no type-specific validator is consulted. *)
Theorem C10_empty_secret_invalid (DNS_AVAILABLE : bool) (secret_type : string) :
  analyze DNS_AVAILABLE resolve "" secret_type
  = {| label := Invalid; confidence := 0; reason := "Empty secret"; metadata := ∅ |}.
Proof. reflexivity. Qed.

(** A candidate without three dot-separated segments is rejected by
    [_validate_jwt], the empty string included. *)
Lemma validate_jwt_malformed (token : string) :
  (Py.count "." token ≤ 1)%nat →
  _validate_jwt token
  = Validation._result Invalid 100 "Malformatted JWT: Incorrect number of segments" ∅.
Proof.
  intros H. unfold Validation._validate_jwt.
  pose proof (split_length "." token) as Hlen.
  destruct (Py.split "." token) as [| a [| b [| c [| d r]]]]; try reflexivity.
  simpl in Hlen. lia.
Qed.

(** C6, as the code has it. For every non-empty string validated with
    a declared type that names [jwt], if it has zero or one [.]
    separator the analyzer returns [invalid] with confidence 100. *)
Theorem C6_malformed_jwt_rejected (DNS_AVAILABLE : bool) (candidate secret_type : string) :
  candidate ≠ "" →
  Py.contains "jwt" (Py.lower secret_type) = true →
  (Py.count "." candidate ≤ 1)%nat →
  label (analyze DNS_AVAILABLE resolve candidate secret_type) = Invalid
  ∧ confidence (analyze DNS_AVAILABLE resolve candidate secret_type) = 100.
Proof.
  intros Hne Hty Hdots. unfold Validation.analyze.
  apply truthy_iff in Hne. rewrite Hne. simpl. rewrite Hty. simpl.
  rewrite validate_jwt_malformed by exact Hdots.
  apply result_verdict. lia.
Qed.

(** When the resolver is unavailable, [_validate_email] does not look
    at it. *)
Lemma validate_email_offline (email : string) :
  Py.count "@" email = 1%nat →
  ∃ domain,
    Py.split "@" email !! 1%nat = Some domain
    ∧ Validation._validate_email false resolve email
      = Validation._result Likely 50 "Email structure valid (DNS check skipped)"
          (<["domain" := PStr domain]> ∅).
Proof.
  intros H. unfold Validation._validate_email.
  pose proof (split_length "@" email) as Hlen. rewrite H in Hlen.
  destruct (Py.split "@" email) as [| a [| domain [| c r]]]; simpl in Hlen; try lia.
  exists domain. split; reflexivity.
Qed.

Lemma analyze_email (DNS_AVAILABLE : bool) (candidate secret_type : string) :
  email_candidate candidate secret_type = true →
  analyze DNS_AVAILABLE resolve candidate secret_type
  = Validation._validate_email DNS_AVAILABLE resolve candidate.
Proof.
  unfold Statements.email_candidate, Validation.analyze. intros H.
  apply andb_true_iff in H as [H Hshape]. apply andb_true_iff in H as [H Hmail].
  apply andb_true_iff in H as [Ht Hjwt]. apply negb_true_iff in Hjwt.
  rewrite Ht. simpl. rewrite Hjwt, Hmail, Hshape. reflexivity.
Qed.

(** C7, as the code has it. For every email candidate with exactly
    one [@] validated when the resolver library is unavailable, the
    analyzer returns [likely] with confidence 50. *)
Theorem C7_email_without_resolver (candidate secret_type : string) :
  email_candidate candidate secret_type = true →
  Py.count "@" candidate = 1%nat →
  label (analyze false resolve candidate secret_type) = Likely
  ∧ confidence (analyze false resolve candidate secret_type) = 50.
Proof.
  intros Hc Hat. rewrite analyze_email by exact Hc.
  destruct (validate_email_offline candidate Hat) as (domain & _ & ->).
  apply result_verdict. lia.
Qed.

(** With the resolver available, no exception of a lookup reaches the
    outer handler of [_validate_email]: the inner handlers take them
    all, and a lookup that fails ends in the verdict for a domain
    without records. *)
Lemma dns_lookups_never_raise (domain : string) :
  ∃ o, Validation.dns_lookups resolve domain = inr o.
Proof.
  unfold Validation.dns_lookups.
  destruct (resolve domain "MX") as [[| | msg] | [|]]; eauto;
    destruct (resolve domain "A") as [e | [|]]; eauto.
Qed.

Lemma entropy_verdict_rules (H : Q) (len : Z) (md : gmap string pyval) :
  entropy_rules H len (label (Validation.entropy_verdict H len md))
    (confidence (Validation.entropy_verdict H len md)).
Proof.
  unfold Statements.entropy_rules, Validation.entropy_verdict,
    Validation.ENTROPY_low, Validation.ENTROPY_high.
  destruct (Qle_bool 2.5 H) eqn:Hlow; simpl;
    [apply Qle_bool_iff in Hlow | apply Qle_bool_false in Hlow].
  - destruct (Qle_bool H 4.5) eqn:Hhigh; simpl;
      [apply Qle_bool_iff in Hhigh | apply Qle_bool_false in Hhigh];
      (split; [intros [_ Hlt]; exfalso; apply (Qlt_not_le _ _ Hlt Hlow) |]);
      split; intros _ Hcmp; try (split; reflexivity);
      exfalso; eapply Qlt_not_le; eassumption.
  - destruct (20 <? len)%Z eqn:Hlen; simpl;
      [apply Z.ltb_lt in Hlen | apply Z.ltb_ge in Hlen].
    + split; [intros _; split; reflexivity |].
      split; intros Hn; exfalso; apply Hn; split; assumption.
    + destruct (Qle_bool H 4.5) eqn:Hhigh; simpl;
        [apply Qle_bool_iff in Hhigh | apply Qle_bool_false in Hhigh];
        (split; [intros [Hl _]; lia |]);
        split; intros _ Hcmp; try (split; reflexivity);
        exfalso; eapply Qlt_not_le; eassumption.
Qed.

Lemma base64_block_cases (token : string) (md : gmap string pyval) :
  (decodes_to_json token = true ∧
   Validation.base64_block b64decode json_loads round token (Py.len token) md
   = inl (Validation._result Valid 80 "Base64 decoded to valid JSON"
            (<["decoded_content" := PStr "json"]> md)))
  ∨ (decodes_to_json token = false ∧
     ∃ md', Validation.base64_block b64decode json_loads round token (Py.len token) md
            = inr md'
            ∧ ∀ k, k ≠ "decoded_printable_ratio" → md' !! k = md !! k).
Proof.
  unfold Statements.decodes_to_json, Validation.base64_block.
  destruct (Validation.b64_shaped token && (Py.len token mod 4 =? 0)%Z); simpl;
    [| right; eauto].
  destruct (b64decode token) as [decoded |]; [| right; eauto].
  destruct (Py.contains "{" decoded && Py.contains "}" decoded); simpl.
  - destruct (json_loads decoded) as [obj |].
    + destruct (Validation.is_dict obj || Validation.is_list obj); [left; auto |].
      right. split; [reflexivity |]. eexists. split; [reflexivity |].
      intros k Hk. now rewrite lookup_insert_ne.
    + right. split; [reflexivity |]. eexists. split; [reflexivity |].
      intros k Hk. now rewrite lookup_insert_ne.
  - right. split; [reflexivity |]. eexists. split; [reflexivity |].
    intros k Hk. now rewrite lookup_insert_ne.
Qed.


End AnalyzerFacts.



(** The braces are part of the test: the token [WzEsMiwzXQ==] decodes
    to the JSON array [[1,2,3]], which holds none, so the decode step
    does not decide and the entropy rules give [likely]/50. *)
Example json_array_without_braces :
  let r := Validation._validate_generic_token Ref.b64decode Ref.json_loads Ref.log
             Ref.round "WzEsMiwzXQ==" "generic" in
  Ref.b64decode "WzEsMiwzXQ==" = Some "[1,2,3]"
  ∧ Ref.json_loads "[1,2,3]" = Some (JArr [JNum 1; JNum 2; JNum 3])
  ∧ Statements.decodes_to_json Ref.b64decode Ref.json_loads "WzEsMiwzXQ==" = false
  ∧ label r = Likely ∧ confidence r = 50%Z.
Proof. vm_compute. repeat split; reflexivity. Qed.

(** C6 at the candidate [abc.def], declared [jwt]. *)
Lemma C6_malformed_jwt_rejected_witness :
  "abc.def" ≠ ""
  ∧ label (Validation.analyze Ref.b64decode Ref.json_loads Ref.log Ref.round true
             Ref.resolve_mx "abc.def" "jwt") = Invalid
  ∧ confidence (Validation.analyze Ref.b64decode Ref.json_loads Ref.log Ref.round true
                  Ref.resolve_mx "abc.def" "jwt") = 100.
Proof.
  assert (Hne : "abc.def" ≠ "") by discriminate.
  split; [exact Hne |].
  apply (C6_malformed_jwt_rejected Ref.b64decode Ref.json_loads Ref.log Ref.round
           Ref.resolve_mx true "abc.def" "jwt" Hne).
  - vm_compute. reflexivity.
  - vm_compute. lia.
Defined.

(** The empty string has no [.] separator, and with the declared type
    [jwt] the analyzer returns [invalid] with confidence 0, not 100. *)
Lemma C6_empty_candidate_confidence_0 :
  let r := Validation.analyze Ref.b64decode Ref.json_loads Ref.log Ref.round true
             Ref.resolve_mx "" "jwt" in
  Py.count "." "" = 0%nat ∧ label r = Invalid ∧ confidence r = 0.
Proof. repeat split; reflexivity. Qed.

(** C7 at [bob@example.com], declared [email], resolver unavailable. *)
Lemma C7_email_without_resolver_witness :
  Statements.email_candidate "bob@example.com" "email" = true
  ∧ label (Validation.analyze Ref.b64decode Ref.json_loads Ref.log Ref.round false
             Ref.resolve_timeout "bob@example.com" "email") = Likely
  ∧ confidence (Validation.analyze Ref.b64decode Ref.json_loads Ref.log Ref.round false
                  Ref.resolve_timeout "bob@example.com" "email") = 50.
Proof.
  assert (Hc : Statements.email_candidate "bob@example.com" "email" = true) by (vm_compute; reflexivity).
  split; [exact Hc |].
  apply (C7_email_without_resolver Ref.b64decode Ref.json_loads Ref.log Ref.round
           Ref.resolve_timeout "bob@example.com" "email" Hc).
  vm_compute. reflexivity.
Defined.

(** With the resolver available and every lookup timing out, the
    email candidate [bob@example.com] is answered [invalid]/90, not
    [likely]/50; and with the resolver unavailable, the candidate
    [a@b.c@d], which the analyzer hands to the email validator, is
    answered [invalid]/100. *)
Lemma C7_lookup_timeout_is_invalid :
  let timed_out := Validation.analyze Ref.b64decode Ref.json_loads Ref.log Ref.round true
                     Ref.resolve_timeout "bob@example.com" "email" in
  let two_ats := Validation.analyze Ref.b64decode Ref.json_loads Ref.log Ref.round false
                   Ref.resolve_timeout "a@b.c@d" "email" in
  Statements.email_candidate "bob@example.com" "email" = true
  ∧ label timed_out = Invalid ∧ confidence timed_out = 90
  ∧ reason timed_out = "Domain example.com has no MX or A records"
  ∧ Statements.email_candidate "a@b.c@d" "email" = true
  ∧ label two_ats = Invalid ∧ confidence two_ats = 100.
Proof. repeat split; vm_compute; reflexivity. Qed.

(** ** The traversal of [js_discovery] *)

Lemma rstrip_keep (p : ascii → bool) (a : ascii) (t : string) :
  p a = false → Py.rstrip p (String a t) = String a (Py.rstrip p t).
Proof. intros H. simpl. rewrite H. now destruct (Py.rstrip p t). Qed.

Lemma rstrip_cons (p : ascii → bool) (a : ascii) (t : string) :
  Py.rstrip p t ≠ "" → Py.rstrip p (String a t) = String a (Py.rstrip p t).
Proof. intros H. simpl. now destruct (Py.rstrip p t). Qed.

Lemma rstrip_idem (p : ascii → bool) (s : string) :
  Py.rstrip p (Py.rstrip p s) = Py.rstrip p s.
Proof.
  induction s as [| a t IH]; [reflexivity |].
  destruct (Py.rstrip p t) as [| b r] eqn:E.
  - assert (Py.rstrip p (String a t) = if p a then "" else String a "") as ->
      by (simpl; now rewrite E).
    destruct (p a) eqn:Ha; [reflexivity |]. simpl. now rewrite Ha.
  - assert (Py.rstrip p (String a t) = String a (String b r)) as ->
      by (simpl; now rewrite E).
    rewrite rstrip_cons; rewrite IH; [reflexivity | discriminate].
Qed.

Lemma rstrip_length (p : ascii → bool) (s : string) :
  (String.length (Py.rstrip p s) ≤ String.length s)%nat.
Proof.
  induction s as [| a t IH]; [reflexivity |].
  simpl. destruct (Py.rstrip p t); [destruct (p a) |]; simpl in *; lia.
Qed.

(** A prefix without whitespace survives [strip]. *)
Lemma rstrip_prefix (p : ascii → bool) (pre s : string) :
  Validation.all_chars (fun c => negb (p c)) pre = true →
  String.prefix pre s = true → String.prefix pre (Py.rstrip p s) = true.
Proof.
  revert s. induction pre as [| c pre IH]; intros s Hall Hpre.
  - now destruct (Py.rstrip p s).
  - destruct s as [| a t]; [simpl in Hpre; discriminate Hpre |].
    simpl in Hall. apply andb_true_iff in Hall as [Hc Hall].
    simpl in Hpre. destruct (ascii_dec c a) as [-> | Hne]; [| discriminate Hpre].
    rewrite rstrip_keep by (now apply negb_true_iff).
    simpl. destruct (ascii_dec a a) as [_ | Hn]; [| now destruct Hn]. now apply IH.
Qed.

Lemma is_http_nonempty (s : string) : Crawler.is_http s = true → Py.truthy s = true.
Proof. destruct s; [discriminate | reflexivity]. Qed.

Lemma is_http_lstrip (s : string) : Crawler.is_http s = true → Py.lstrip Py.is_space s = s.
Proof.
  destruct s as [| a t]; [reflexivity |]. unfold Crawler.is_http, Py.startswith.
  intros H. apply orb_true_iff in H.
  assert (a = "h"%char) as ->.
  { destruct H as [H | H]; apply String.prefix_correct in H; simpl in H;
      now injection H. }
  reflexivity.
Qed.

Lemma is_http_strip (s : string) :
  Crawler.is_http s = true →
  Py.strip s = Py.rstrip Py.is_space s ∧ Crawler.is_http (Py.strip s) = true.
Proof.
  intros H. unfold Py.strip, Py.strip_by. rewrite (is_http_lstrip s H).
  split; [reflexivity |].
  unfold Crawler.is_http, Py.startswith in *.
  apply orb_true_iff in H. apply orb_true_iff.
  destruct H as [H | H]; [left | right];
    (apply rstrip_prefix; [reflexivity | exact H]).
Qed.

Section CrawlerFacts.

Variable urljoin : string → string → string.
Variable DEEP_JS_PATTERNS : list (string → list string).
Variable list_of_set : gset string → list string.
Variable safe_get : string → option string.

(** [list(found)] lists elements of [found] only. *)
Hypothesis list_of_set_sound : ∀ (X : gset string) (x : string), x ∈ list_of_set X → x ∈ X.

Variable start_url : string.
Variable max_js : nat.

Local Abbreviation normalize_url := (Crawler.normalize_url urljoin).
Local Abbreviation extract_nested_js :=
  (Crawler.extract_nested_js urljoin DEEP_JS_PATTERNS list_of_set).
Local Abbreviation enqueue_nested := (Crawler.enqueue_nested urljoin).
Local Abbreviation step :=
  (Crawler.step urljoin DEEP_JS_PATTERNS list_of_set safe_get start_url).
Local Abbreviation bfs :=
  (fun fuel => Crawler.bfs urljoin DEEP_JS_PATTERNS list_of_set safe_get fuel start_url max_js).
Local Abbreviation fetched := (Crawler.fetched safe_get).
Local Abbreviation references :=
  (Crawler.references urljoin DEEP_JS_PATTERNS list_of_set safe_get).
Local Abbreviation reachable :=
  (Crawler.reachable urljoin DEEP_JS_PATTERNS list_of_set safe_get start_url).
Local Abbreviation outcome :=
  (Statements.outcome urljoin DEEP_JS_PATTERNS list_of_set safe_get start_url).
Local Abbreviation crawl_inv :=
  (Statements.crawl_inv urljoin DEEP_JS_PATTERNS list_of_set safe_get start_url max_js).

(** *** Normalisation of absolute references *)

Lemma normalize_http (base n0 n : string) :
  Crawler.is_http n0 = true → normalize_url base n0 = Some n →
  n = Py.rstrip Py.is_space n0 ∧ Crawler.is_http n = true ∧ (Py.len n0 ≤ 500)%Z.
Proof.
  intros Hh. unfold Crawler.normalize_url.
  destruct (negb (Py.truthy n0) || (500 <? Py.len n0)%Z) eqn:E; [discriminate |].
  apply orb_false_iff in E as [_ Hlen]. apply Z.ltb_ge in Hlen.
  destruct (is_http_strip n0 Hh) as [Hs Hhs]. rewrite Hhs.
  intros [= <-]. now rewrite <- Hs.
Qed.

Lemma normalize_fixed (base n : string) :
  Crawler.is_http n = true → Py.rstrip Py.is_space n = n → (Py.len n ≤ 500)%Z →
  normalize_url base n = Some n.
Proof.
  intros Hh Hs Hlen. unfold Crawler.normalize_url.
  rewrite (is_http_nonempty n Hh). apply Z.ltb_ge in Hlen. rewrite Hlen. simpl.
  destruct (is_http_strip n Hh) as [Hs' Hhs]. rewrite Hhs, Hs', Hs. reflexivity.
Qed.

(** What [normalize_url] makes of an absolute reference is a URL that
    [normalize_url] leaves alone, against any base. *)
Lemma normalize_http_fixed (base base' n0 n : string) :
  Crawler.is_http n0 = true → normalize_url base n0 = Some n →
  normalize_url base' n = Some n ∧ Py.truthy n = true.
Proof.
  intros Hh Hn. destruct (normalize_http base n0 n Hh Hn) as (-> & Hhn & Hlen).
  split; [| now apply is_http_nonempty].
  apply normalize_fixed; [exact Hhn | apply rstrip_idem |].
  pose proof (rstrip_length Py.is_space n0). unfold Py.len in *. lia.
Qed.

(** *** What [extract_nested_js] returns *)

Lemma nested_found_http (content base x : string) :
  x ∈ Crawler.nested_found urljoin DEEP_JS_PATTERNS content base → Crawler.is_http x = true.
Proof.
  unfold Crawler.nested_found.
  generalize (flat_map (fun findall : string → list string => findall content)
                DEEP_JS_PATTERNS).
  intros l. assert (Hempty : ∀ y : string, y ∈ (∅ : gset string) → Crawler.is_http y = true)
    by (intros y Hy; now apply not_elem_of_empty in Hy).
  revert Hempty. generalize (∅ : gset string). revert x.
  induction l as [| m l IH]; intros x acc Hacc; simpl.
  - apply Hacc.
  - apply IH. intros y.
    destruct (negb (Py.truthy m) || Py.startswith m "data:"); [apply Hacc |].
    destruct (normalize_url base m) as [n |] eqn:Hn; simpl; [| apply Hacc].
    destruct (Py.truthy n && Crawler.is_http n && Py.contains ".js" n) eqn:Hok;
      [| apply Hacc].
    rewrite elem_of_union, elem_of_singleton. intros [-> | Hy]; [| now apply Hacc].
    apply andb_true_iff in Hok as [Hok _]. now apply andb_true_iff in Hok as [_ Hok].
Qed.

Lemma extract_nested_js_http (content base x : string) :
  x ∈ extract_nested_js content base → Crawler.is_http x = true.
Proof.
  intros H. apply list_of_set_sound in H. now apply nested_found_http in H.
Qed.

(** The references of a script are URLs the loop will not rewrite when
    it takes them from the queue. *)
Lemma references_fixed (u n : string) :
  n ∈ references u →
  normalize_url start_url n = Some n ∧ Py.truthy n = true ∧ is_Some (fetched u).
Proof.
  unfold Crawler.references. destruct (fetched u) as [content |] eqn:Hf;
    [| intros H; now apply elem_of_nil in H].
  intros H. apply list_elem_of_omap in H as (n0 & Hn0 & Hn).
  destruct (normalize_url u n0) as [n' |] eqn:Hnorm; [| discriminate].
  destruct (Py.truthy n'); [| discriminate]. injection Hn as ->.
  apply extract_nested_js_http in Hn0.
  destruct (normalize_http_fixed u start_url n0 n Hn0 Hnorm) as [H1 H2].
  split; [exact H1 |]. split; [exact H2 | eauto].
Qed.

(** *** The inner loop *)

Lemma enqueue_nested_spec (u : string) (vis : gset string) (nested queue : list string) (x : string) :
  x ∈ enqueue_nested u vis queue nested ↔
  (x ∈ queue)
  ∨ ((x ∉ vis) ∧ Py.truthy x = true ∧ ∃ n0, n0 ∈ nested ∧ normalize_url u n0 = Some x).
Proof.
  unfold Crawler.enqueue_nested. revert queue.
  induction nested as [| n0 nested IH]; intros queue; simpl.
  - split; [auto |]. intros [H | (_ & _ & n0 & H & _)]; [exact H |].
    now apply elem_of_nil in H.
  - rewrite IH. clear IH. setoid_rewrite elem_of_cons.
    destruct (normalize_url u n0) as [n |] eqn:Hn.
    + unfold Py.mem.
      destruct (Py.truthy n) eqn:Ht; simpl;
        [destruct (decide (n ∈ vis)) as [Hv | Hv];
           [rewrite (bool_decide_eq_true_2 _ Hv)
           | rewrite (bool_decide_eq_false_2 _ Hv)]; simpl;
           [| destruct (decide (n ∈ queue)) as [Hq | Hq];
                [rewrite (bool_decide_eq_true_2 _ Hq)
                | rewrite (bool_decide_eq_false_2 _ Hq)]; simpl] |].
      * split; [naive_solver |].
        intros [H | (Hx & Htx & m & [-> | Hm] & Hnm)]; [auto | | naive_solver].
        rewrite Hn in Hnm. injection Hnm as ->. contradiction.
      * split; [naive_solver |].
        intros [H | (Hx & Htx & m & [-> | Hm] & Hnm)]; [auto | | naive_solver].
        rewrite Hn in Hnm. injection Hnm as ->. auto.
      * rewrite elem_of_app, list_elem_of_singleton. split.
        -- intros [[H | ->] | H]; [auto | | naive_solver].
           right. split; [exact Hv |]. split; [exact Ht |]. exists n0. auto.
        -- intros [H | (Hx & Htx & m & [-> | Hm] & Hnm)]; [auto | | naive_solver].
           rewrite Hn in Hnm. injection Hnm as ->. auto.
      * split; [naive_solver |].
        intros [H | (Hx & Htx & m & [-> | Hm] & Hnm)]; [auto | | naive_solver].
        rewrite Hn in Hnm. injection Hnm as ->. congruence.
    + split; [naive_solver |].
      intros [H | (Hx & Htx & m & [-> | Hm] & Hnm)]; [auto | | naive_solver].
      congruence.
Qed.

(** *** One iteration *)

Lemma step_outcome (st : Crawler.state) :
  Crawler.queue st ≠ [] → outcome st (step st).
Proof.
  intros Hq. unfold Crawler.step.
  destruct (Crawler.queue st) as [| q tl] eqn:Eq; [contradiction |].
  destruct (normalize_url start_url q) as [v |] eqn:Hn;
    [| eapply Statements.skipped; [exact Eq | rewrite Hn; discriminate | reflexivity]].
  destruct (Py.truthy v) eqn:Ht; simpl;
    [| eapply Statements.skipped; [exact Eq | | reflexivity]; rewrite Hn; intros ? [= <-]; congruence].
  destruct (decide (v ∈ Crawler.visited st)) as [Hv | Hv].
  - rewrite (bool_decide_eq_true_2 _ Hv).
    eapply Statements.skipped; [exact Eq | | reflexivity]. rewrite Hn. now intros ? [= <-].
  - rewrite (bool_decide_eq_false_2 _ Hv).
    destruct (safe_get v) as [content |] eqn:Hs.
    + destruct (negb (Py.truthy content) || (2000000 <? Py.len content)%Z) eqn:Hc.
      * eapply Statements.no_asset; eauto. unfold Crawler.fetched. now rewrite Hs, Hc.
      * eapply Statements.asset; eauto. unfold Crawler.fetched. now rewrite Hs, Hc.
    + eapply Statements.no_asset; eauto. unfold Crawler.fetched. now rewrite Hs.
Qed.

Lemma running_spec (st : Crawler.state) :
  Crawler.running max_js st = true ↔
  Crawler.queue st ≠ [] ∧ (size (Crawler.visited st) < max_js)%nat.
Proof.
  unfold Crawler.running. rewrite andb_true_iff, negb_true_iff, bool_decide_eq_false.
  now rewrite Nat.ltb_lt.
Qed.

Lemma size_visit (v : string) (X : gset string) : v ∉ X → size ({[ v ]} ∪ X) = S (size X).
Proof. intros H. rewrite size_union by set_solver. now rewrite size_singleton. Qed.

(** *** Termination *)

(** The loop ends, and what every iteration preserves holds when it
    does: each iteration shortens the queue or adds to the visited
    set, which the loop condition keeps below the cap. *)
Lemma bfs_ends (P : Crawler.state → Prop) :
  (∀ st, P st → Crawler.running max_js st = true → P (step st)) →
  ∀ st, P st →
  ∃ fuel st', bfs fuel st = Some st' ∧ P st' ∧ Crawler.running max_js st' = false.
Proof.
  intros Hstep.
  assert (H : ∀ k m st,
             (max_js - size (Crawler.visited st) ≤ k)%nat →
             (length (Crawler.queue st) ≤ m)%nat → P st →
             ∃ fuel st', bfs fuel st = Some st' ∧ P st'
                         ∧ Crawler.running max_js st' = false).
  { induction k as [| k IHk].
    - intros m st Hk _ HP. exists 0%nat, st. simpl.
      destruct (Crawler.running max_js st) eqn:Hr; [| auto].
      apply running_spec in Hr. lia.
    - induction m as [| m IHm]; intros st Hk Hm HP.
      + exists 0%nat, st. simpl.
        destruct (Crawler.running max_js st) eqn:Hr; [| auto].
        apply running_spec in Hr as [Hq _].
        destruct (Crawler.queue st); [contradiction | simpl in Hm; lia].
      + destruct (Crawler.running max_js st) eqn:Hr;
          [| exists 0%nat, st; simpl; rewrite Hr; auto].
        pose proof (Hstep st HP Hr) as HP'.
        apply running_spec in Hr as [Hq Hlt].
        assert (Hnext : ∃ fuel st', bfs fuel (step st) = Some st' ∧ P st'
                                    ∧ Crawler.running max_js st' = false).
        { destruct (step_outcome st Hq) as [q tl Eq _ E | q tl v Eq _ _ Hv _ E
                                           | q tl v content Eq _ _ Hv _ E];
            rewrite E in HP' |- *.
          - apply IHm; [exact Hk | | exact HP'].
            simpl. rewrite Eq in Hm. simpl in Hm. lia.
          - eapply IHk; [| reflexivity | exact HP'].
            simpl. rewrite size_visit by exact Hv. lia.
          - eapply IHk; [| reflexivity | exact HP'].
            simpl. rewrite size_visit by exact Hv. lia. }
        destruct Hnext as (fuel & st' & Hb & HP'' & Hr').
        exists (S fuel), st'. simpl.
        assert (Hrun : Crawler.running max_js st = true) by (apply running_spec; auto).
        rewrite Hrun. auto. }
  intros st HP. eapply H; [reflexivity | reflexivity | exact HP].
Qed.

(** *** What the loop preserves *)

Lemma crawl_inv_initial (seeds inline : list string) :
  crawl_inv seeds (Crawler.initial seeds inline).
Proof.
  assert (He : Crawler.externals (Crawler.initial seeds inline) = []).
  { unfold Crawler.externals, Crawler.initial. simpl.
    induction inline as [| x l IH]; [reflexivity | exact IH]. }
  unfold Statements.crawl_inv. rewrite He. simpl. split; [apply Nat.le_0_l |].
  split; [auto |]. split; [intros u n Hu; now apply not_elem_of_empty in Hu |].
  split; [constructor |].
  intros u. rewrite elem_of_nil. split; [tauto |].
  intros [Hu _]. now apply not_elem_of_empty in Hu.
Qed.

Lemma externals_app (st : Crawler.state) (v : string) (vis : gset string) (qu : list string) :
  Crawler.externals {| Crawler.visited := vis; Crawler.queue := qu;
                       Crawler.discovered := (Crawler.discovered st ++ [Crawler.External v])%list |}
  = (Crawler.externals st ++ [v])%list.
Proof. unfold Crawler.externals. simpl. now rewrite omap_app. Qed.

Lemma crawl_inv_step (seeds : list string) (st : Crawler.state) :
  crawl_inv seeds st → Crawler.running max_js st = true → crawl_inv seeds (step st).
Proof.
  intros (Hsize & Hseeds & Hrefs & Hnd & Hext) Hr.
  apply running_spec in Hr as [Hq Hlt].
  destruct (step_outcome st Hq) as [q tl Eq Hs E | q tl v Eq Hn Ht Hv Hf E
                                   | q tl v content Eq Hn Ht Hv Hf E];
    rewrite E; clear E; unfold Statements.crawl_inv; simpl; rewrite Eq in *.
  - (* nothing new *)
    split; [exact Hsize |]. split; [| split; [| split; [exact Hnd | exact Hext]]].
    + intros q' Hq'. destruct (Hseeds q' Hq') as [Hin | Hin]; [| auto].
      apply elem_of_cons in Hin as [-> | Hin]; auto.
    + intros u n Hu Hn. destruct (Hrefs u n Hu Hn) as [Hin | Hin]; [auto |].
      apply elem_of_cons in Hin as [-> | Hin]; [| auto].
      destruct (references_fixed u q Hn) as (Hfix & Htq & _). left. now apply Hs.
  - (* visited, no asset *)
    split; [rewrite size_visit by exact Hv; lia |].
    split; [| split; [| split; [exact Hnd |]]].
    + intros q' Hq'. destruct (Hseeds q' Hq') as [Hin | Hin].
      * apply elem_of_cons in Hin as [-> | Hin]; [| auto].
        right. intros v' Hv'. rewrite Hn in Hv'. injection Hv' as <-. set_solver.
      * right. intros v' Hv' Ht'. specialize (Hin v' Hv' Ht'). set_solver.
    + intros u n Hu Hnr. apply elem_of_union in Hu as [Hu | Hu].
      * apply elem_of_singleton in Hu as ->.
        destruct (references_fixed v n Hnr) as (_ & _ & [c Hc]). congruence.
      * destruct (Hrefs u n Hu Hnr) as [Hin | Hin]; [set_solver |].
        apply elem_of_cons in Hin as [-> | Hin]; [| auto].
        destruct (references_fixed u q Hnr) as (Hfix & _ & _).
        rewrite Hfix in Hn. injection Hn as ->. set_solver.
    + intros u. rewrite Hext, elem_of_union, elem_of_singleton. split; [tauto |].
      intros [[-> | Hu] Hfu]; [| tauto]. destruct Hfu as [c Hc]. congruence.
  - (* visited, asset *)
    rewrite externals_app.
    split; [rewrite size_visit by exact Hv; lia |].
    split; [| split; [| split]].
    + intros q' Hq'. destruct (Hseeds q' Hq') as [Hin | Hin].
      * apply elem_of_cons in Hin as [-> | Hin].
        -- right. intros v' Hv'. rewrite Hn in Hv'. injection Hv' as <-. set_solver.
        -- left. apply enqueue_nested_spec. auto.
      * right. intros v' Hv' Ht'. specialize (Hin v' Hv' Ht'). set_solver.
    + intros u n Hu Hnr.
      destruct (decide (n ∈ ({[ v ]} ∪ Crawler.visited st : gset string))) as [Hin | Hnin];
        [auto |].
      right. apply enqueue_nested_spec.
      apply elem_of_union in Hu as [Hu | Hu].
      * apply elem_of_singleton in Hu as ->. right.
        destruct (references_fixed v n Hnr) as (_ & Htn & _).
        split; [exact Hnin |]. split; [exact Htn |].
        unfold Crawler.references in Hnr. rewrite Hf in Hnr.
        apply list_elem_of_omap in Hnr as (n0 & Hn0 & Hnn).
        exists n0. split; [exact Hn0 |].
        destruct (normalize_url v n0) as [n' |]; [| discriminate].
        destruct (Py.truthy n'); [| discriminate]. now injection Hnn as ->.
      * destruct (Hrefs u n Hu Hnr) as [Hin | Hin]; [set_solver |].
        apply elem_of_cons in Hin as [-> | Hin]; [| auto].
        destruct (references_fixed u q Hnr) as (Hfix & _ & _).
        rewrite Hfix in Hn. injection Hn as ->. set_solver.
    + apply NoDup_app. split; [exact Hnd |]. split; [| apply NoDup_singleton].
      intros x Hx Hx'. apply list_elem_of_singleton in Hx' as ->.
      apply Hext in Hx as [Hx _]. contradiction.
    + intros u. rewrite elem_of_app, list_elem_of_singleton, Hext, elem_of_union,
        elem_of_singleton.
      split; [intros [H | ->]; [tauto | eauto] |].
      intros [[-> | Hu] Hfu]; tauto.
Qed.

(** Once the queue is empty, every reachable URL has been visited. *)
Lemma crawl_inv_closed (seeds : list string) (st : Crawler.state) (u : string) :
  crawl_inv seeds st → Crawler.queue st = [] → reachable seeds u →
  u ∈ Crawler.visited st.
Proof.
  intros (_ & Hseeds & Hrefs & _) Hq Hreach.
  induction Hreach as [q u Hin Hn Ht | u n v _ IH Hnr Hn Ht].
  - destruct (Hseeds q Hin) as [H | H]; [| now apply H].
    rewrite Hq in H. now apply elem_of_nil in H.
  - destruct (references_fixed u n Hnr) as (Hfix & _ & _).
    rewrite Hfix in Hn. injection Hn as <-.
    destruct (Hrefs u n IH Hnr) as [H | H]; [exact H |].
    rewrite Hq in H. now apply elem_of_nil in H.
Qed.

Lemma NoDup_length_le_size (l : list string) (X : gset string) :
  NoDup l → (∀ x, x ∈ l → x ∈ X) → (length l ≤ size X)%nat.
Proof.
  intros Hnd Hsub. rewrite <- (size_list_to_set (C := gset string) l Hnd).
  apply subseteq_size. intros x Hx. apply elem_of_list_to_set in Hx. auto.
Qed.

(** C8, as the code has it. Given more reachable unique external
    script URLs than the asset cap, the breadth-first traversal
    terminates, having stopped as soon as the visited set reached the
    cap or the queue emptied; it has then visited exactly [cap] unique
    URLs and discovered at most [cap] unique external assets, and
    exactly [cap] when every URL it visited was fetched with a
    non-empty body of at most 2,000,000 characters. *)
Theorem C8_crawl_cap (seeds inline l : list string) :
  NoDup l → (∀ u, u ∈ l → reachable seeds u) → (max_js < length l)%nat →
  ∃ fuel st,
    bfs fuel (Crawler.initial seeds inline) = Some st
    ∧ Crawler.running max_js st = false
    ∧ size (Crawler.visited st) = max_js
    ∧ NoDup (Crawler.externals st)
    ∧ (length (Crawler.externals st) ≤ max_js)%nat
    ∧ ((∀ u, u ∈ Crawler.visited st → is_Some (fetched u)) →
       length (Crawler.externals st) = max_js).
Proof.
  intros Hnd Hreach Hmore.
  destruct (bfs_ends (crawl_inv seeds) (crawl_inv_step seeds) _
              (crawl_inv_initial seeds inline)) as (fuel & st & Hb & Hinv & Hr).
  exists fuel, st. split; [exact Hb |]. split; [exact Hr |].
  pose proof Hinv as (Hsize & _ & _ & Hnde & Hext).
  assert (Hcap : size (Crawler.visited st) = max_js).
  { destruct (decide (Crawler.queue st = [])) as [Hq | Hq].
    - assert (length l ≤ size (Crawler.visited st))%nat; [| lia].
      apply NoDup_length_le_size; [exact Hnd |].
      intros u Hu. eapply crawl_inv_closed; eauto.
    - destruct (Nat.lt_ge_cases (size (Crawler.visited st)) max_js) as [Hlt | Hge]; [| lia].
      assert (Crawler.running max_js st = true) by (apply running_spec; auto).
      congruence. }
  split; [exact Hcap |]. split; [exact Hnde |]. split.
  - rewrite <- Hcap. apply NoDup_length_le_size; [exact Hnde |].
    intros u Hu. now apply Hext in Hu.
  - intros Hall. rewrite <- Hcap, <- (size_list_to_set (C := gset string) _ Hnde).
    f_equal. apply set_eq. intros u. rewrite elem_of_list_to_set, Hext.
    split; [tauto | auto].
Qed.

End CrawlerFacts.

Lemma elements_sound (X : gset string) (x : string) : x ∈ elements X → x ∈ X.
Proof. apply elem_of_elements. Qed.

(** C8 on the sample site with a cap of 2: three reachable URLs, two
    of them visited, both assets. *)
Lemma C8_crawl_cap_witness :
  ∃ fuel st,
    Crawler.bfs Ref.urljoin [Sample.findall_import] elements Sample.safe_get_all fuel
      Sample.site 2 (Crawler.initial [Sample.a_js; Sample.b_js] []) = Some st
    ∧ Crawler.running 2 st = false
    ∧ size (Crawler.visited st) = 2%nat
    ∧ NoDup (Crawler.externals st)
    ∧ (length (Crawler.externals st) ≤ 2)%nat
    ∧ ((∀ u, u ∈ Crawler.visited st → is_Some (Crawler.fetched Sample.safe_get_all u)) →
       length (Crawler.externals st) = 2%nat).
Proof.
  apply (C8_crawl_cap Ref.urljoin [Sample.findall_import] elements Sample.safe_get_all
           elements_sound Sample.site 2 [Sample.a_js; Sample.b_js] []
           [Sample.a_js; Sample.b_js; Sample.c_js]).
  - apply (bool_decide_unpack _). vm_compute. exact I.
  - intros u Hu. apply list_elem_of_In in Hu. simpl in Hu.
    destruct Hu as [<- | [<- | [<- | []]]].
    + eapply Crawler.reach_seed with (q := Sample.a_js);
        [apply list_elem_of_In; simpl; auto | vm_compute; reflexivity | reflexivity].
    + eapply Crawler.reach_seed with (q := Sample.b_js);
        [apply list_elem_of_In; simpl; auto | vm_compute; reflexivity | reflexivity].
    + eapply Crawler.reach_ref with (u := Sample.a_js) (n := Sample.c_js).
      * eapply Crawler.reach_seed with (q := Sample.a_js);
          [apply list_elem_of_In; simpl; auto | vm_compute; reflexivity | reflexivity].
      * apply list_elem_of_In. vm_compute. auto.
      * vm_compute. reflexivity.
      * reflexivity.
  - simpl. lia.
Defined.

(** With a cap of 1 and the two seeds [a.js] and [b.js], both
    reachable, the traversal visits [a.js] and stops; when the request
    for [a.js] fails, or returns an empty body, it has then discovered
    no external asset at all, not one. *)
Lemma C8_visited_url_without_asset :
  Crawler.reachable Ref.urljoin [Sample.findall_import] elements Sample.safe_get_a_fails
    Sample.site [Sample.a_js; Sample.b_js] Sample.a_js
  ∧ Crawler.reachable Ref.urljoin [Sample.findall_import] elements Sample.safe_get_a_fails
      Sample.site [Sample.a_js; Sample.b_js] Sample.b_js
  ∧ Sample.a_js ≠ Sample.b_js
  ∧ (Crawler.bfs Ref.urljoin [Sample.findall_import] elements Sample.safe_get_a_fails 3
       Sample.site 1 (Crawler.initial [Sample.a_js; Sample.b_js] [])
     ≫= fun st => Some (size (Crawler.visited st), Crawler.externals st))
    = Some (1%nat, [])
  ∧ (Crawler.bfs Ref.urljoin [Sample.findall_import] elements Sample.safe_get_a_empty 3
       Sample.site 1 (Crawler.initial [Sample.a_js; Sample.b_js] [])
     ≫= fun st => Some (size (Crawler.visited st), Crawler.externals st))
    = Some (1%nat, []).
Proof.
  split; [| split; [| split; [| split]]].
  - eapply Crawler.reach_seed with (q := Sample.a_js);
      [apply list_elem_of_In; simpl; auto | vm_compute; reflexivity | reflexivity].
  - eapply Crawler.reach_seed with (q := Sample.b_js);
      [apply list_elem_of_In; simpl; auto | vm_compute; reflexivity | reflexivity].
  - discriminate.
  - vm_compute. reflexivity.
  - vm_compute. reflexivity.
Qed.

(** ** The leak detector *)

(** The final loop keeps one finding per key, and none whose key was
    seen before. *)
Lemma dedupe_keys (seen : list (option string * string * string)) (leaks : list Leaks.leak) :
  NoDup (Leaks.leak_key <$> Leaks.dedupe seen leaks)
  ∧ ∀ k, k ∈ Leaks.leak_key <$> Leaks.dedupe seen leaks → k ∉ seen.
Proof.
  revert seen. induction leaks as [| l leaks IH]; intros seen; simpl.
  - split; [constructor |]. intros k Hk. now apply elem_of_nil in Hk.
  - case_bool_decide as Hl; [apply IH |].
    destruct (IH (Leaks.leak_key l :: seen)) as [Hnd Hnot]. simpl. split.
    + constructor; [| exact Hnd].
      intros Hin. apply Hnot in Hin. apply Hin. now left.
    + intros k Hk. apply elem_of_cons in Hk as [-> | Hk]; [exact Hl |].
      apply Hnot in Hk. intros Hs. apply Hk. now right.
Qed.

(** It drops duplicates only: what it returns was found, in the order
    it was found, and every key found is still there. *)
Lemma dedupe_sublist (seen : list (option string * string * string)) (leaks : list Leaks.leak) :
  sublist (Leaks.dedupe seen leaks) leaks.
Proof.
  revert seen. induction leaks as [| l leaks IH]; intros seen; simpl.
  - constructor.
  - case_bool_decide; [apply sublist_cons | apply sublist_skip]; apply IH.
Qed.

Lemma dedupe_covers (seen : list (option string * string * string)) (leaks : list Leaks.leak)
    (l : Leaks.leak) :
  l ∈ leaks → Leaks.leak_key l ∈ seen ∨ Leaks.leak_key l ∈ Leaks.leak_key <$> Leaks.dedupe seen leaks.
Proof.
  revert seen. induction leaks as [| x leaks IH]; intros seen Hl.
  - now apply elem_of_nil in Hl.
  - apply elem_of_cons in Hl as [-> | Hl]; simpl.
    + case_bool_decide as Hx; [now left |]. right. simpl. now left.
    + case_bool_decide as Hx; [now apply IH |].
      destruct (IH (Leaks.leak_key x :: seen) Hl) as [Hin | Hin].
      * apply elem_of_cons in Hin as [-> | Hin]; [| now left].
        right. simpl. now left.
      * right. simpl. now right.
Qed.

Section DetectorFacts.

Variable parseScript : string → option Leaks.node.
Variable _CACHE_TTL : Q.
Variable fallback_rules : list Leaks.rule.

Local Abbreviation detect_leaks := (Leaks.detect_leaks parseScript _CACHE_TTL fallback_rules).
Local Abbreviation load_patterns_from_db :=
  (Leaks.load_patterns_from_db _CACHE_TTL fallback_rules).
Local Abbreviation candidates := (Statements.candidates parseScript).

(** Given the rule set, a run reads neither the clock, nor the store,
    nor the cache, and leaves the cache as it was. *)
Lemma detect_leaks_given (content source : string) (patterns : list Leaks.rule)
    (w : Leaks.world) (c : Leaks.cache) :
  detect_leaks content source (Some patterns) w c
  = (Leaks.dedupe [] (candidates content source patterns), c).
Proof. reflexivity. Qed.

(** Without one, it runs on the rule set the cache layer hands out. *)
Lemma detect_leaks_loaded (content source : string) (w : Leaks.world) (c : Leaks.cache) :
  detect_leaks content source None w c
  = (Leaks.dedupe [] (candidates content source (load_patterns_from_db false w c).1),
     (load_patterns_from_db false w c).2).
Proof.
  unfold Leaks.detect_leaks. now destruct (load_patterns_from_db false w c).
Qed.

(** C9. For every content string and fixed rule set, a second run of
    [detect_leaks], at any later time and on the cache the first run
    left, returns the list the first run returned: the same findings
    (rule ids, matched values, snippets) in the same order.  No two
    findings of that list share the key (rule id, matched value,
    source), and every match found is represented in it by its key. *)
Theorem C9_detector_deterministic_deduplicated
    (content source : string) (patterns : list Leaks.rule)
    (w1 w2 : Leaks.world) (c : Leaks.cache) :
  let first := detect_leaks content source (Some patterns) w1 c in
  let second := detect_leaks content source (Some patterns) w2 first.2 in
  second.1 = first.1
  ∧ NoDup (Leaks.leak_key <$> first.1)
  ∧ sublist first.1 (candidates content source patterns)
  ∧ Forall (fun l => Leaks.leak_key l ∈ Leaks.leak_key <$> first.1)
           (candidates content source patterns).
Proof.
  cbv zeta. rewrite !detect_leaks_given. simpl.
  split; [reflexivity |]. split; [apply dedupe_keys |]. split; [apply dedupe_sublist |].
  apply Forall_forall. intros l Hl.
  destruct (dedupe_covers [] _ l Hl) as [Hin | Hin]; [| exact Hin].
  now apply elem_of_nil in Hin.
Qed.

(** The same holds of two runs that load the rule set themselves,
    as long as the cache layer hands out the same set to both. *)
Lemma detect_leaks_loaded_twice (content source : string) (w1 w2 : Leaks.world) (c : Leaks.cache) :
  let first := detect_leaks content source None w1 c in
  (load_patterns_from_db false w2 first.2).1 = (load_patterns_from_db false w1 c).1 →
  (detect_leaks content source None w2 first.2).1 = first.1.
Proof.
  cbv zeta. rewrite !detect_leaks_loaded. simpl. now intros ->.
Qed.

End DetectorFacts.

(** The specification's scenario: the bearer token written twice in
    one asset is reported once, by the fallback rule, with severity
    [high] and category [auth]. *)
Example bearer_reported_once :
  (fun l => (Leaks.l_rule_id l, Leaks.l_severity l, Leaks.l_category l, Leaks.l_match l))
    <$> (Leaks.detect_leaks Sample.parse_fails 300 [Sample.fallback_bearer]
           Sample.bearer_twice "main.js" (Some [Sample.fallback_bearer])
           {| Leaks.now := 0; Leaks.store_rules := [] |}
           {| Leaks._cache_loaded_at := 0; Leaks._cached_compiled := None |}).1
  = [(Some "fallback_bearer", "high", "auth", "Bearer abcdef0123456789")].
Proof. vm_compute. reflexivity. Qed.

(** ** The global provider list *)

Lemma insert_sorted_nonempty (x : string) (l : list string) : Osint.insert_sorted x l ≠ [].
Proof. destruct l as [| y t]; simpl; [discriminate |]. now destruct (String.leb x y). Qed.

Lemma sorted_nil (l : list string) : Osint.sorted l = [] ↔ l = [].
Proof.
  split; [| now intros ->].
  destruct l as [| x l]; [reflexivity |]. unfold Osint.sorted. simpl. intros H.
  now apply insert_sorted_nonempty in H.
Qed.

(** The provider list is non-empty exactly when an indicator of some
    provider occurs in a header, a crawled URL or a script URL. *)
Lemma detect_cloud_provider_nonempty
    (cloud_fingerprints : list (string * list string))
    (headers : list (string * string)) (urls js_files : list string) :
  Osint.detect_cloud_provider cloud_fingerprints headers urls js_files ≠ [] ↔
  ∃ provider indicators,
    (provider, indicators) ∈ cloud_fingerprints
    ∧ Osint.provider_hit (Osint.search_space headers urls js_files) indicators = true.
Proof.
  unfold Osint.detect_cloud_provider. cbv zeta. rewrite sorted_nil.
  set (space := Osint.search_space headers urls js_files).
  assert (Hfold : ∀ (l : list (string * list string)) (acc : gset string) (x : string),
             x ∈ foldl (fun (acc : gset string) (pi : string * list string) =>
                          if Osint.provider_hit space pi.2 then {[ pi.1 ]} ∪ acc else acc)
                       acc l
             ↔ x ∈ acc ∨ ∃ inds, (x, inds) ∈ l ∧ Osint.provider_hit space inds = true).
  { induction l as [| [p inds] l IH]; intros acc x; simpl.
    - split; [auto |]. intros [H | (i & H & _)]; [exact H | now apply elem_of_nil in H].
    - rewrite IH. setoid_rewrite elem_of_cons.
      destruct (Osint.provider_hit space inds) eqn:Hhit.
      + rewrite elem_of_union, elem_of_singleton. split.
        * intros [[-> | H] | (i & H & Hi)]; eauto.
        * intros [H | (i & [[= -> ->] | H] & Hi)]; eauto.
      + split.
        * intros [H | (i & H & Hi)]; eauto.
        * intros [H | (i & [[= -> ->] | H] & Hi)]; eauto. congruence. }
  split.
  - intros Hne.
    destruct (elements (foldl _ ∅ cloud_fingerprints)) as [| x l] eqn:E; [contradiction |].
    assert (Hx : x ∈ elements (foldl (fun (acc : gset string) (pi : string * list string) =>
                                        if Osint.provider_hit space pi.2
                                        then {[ pi.1 ]} ∪ acc else acc)
                                     ∅ cloud_fingerprints))
      by (rewrite E; now left).
    apply elem_of_elements, Hfold in Hx as [Hx | (inds & Hin & Hhit)];
      [now apply not_elem_of_empty in Hx | eauto].
  - intros (p & inds & Hin & Hhit) He.
    assert (Hp : p ∈ foldl (fun (acc : gset string) (pi : string * list string) =>
                              if Osint.provider_hit space pi.2
                              then {[ pi.1 ]} ∪ acc else acc)
                           ∅ cloud_fingerprints)
      by (apply Hfold; eauto).
    apply elem_of_elements in Hp. rewrite He in Hp. now apply elem_of_nil in Hp.
Qed.

(** The repository's correlator test: with a cloud fingerprint in the
    headers, the finding in [.env] and the finding in [main.js] get the
    fingerprint label, the finding in [index.html] gets no signal. *)
Example correlator_test :
  (fun g => from_option labels [] (osint g))
    <$> Osint.correlate Sample.sensitive_files Sample.disposable_domains Sample.free_domains
          Sample.breached_org_domains Sample.admin_paths_dashboard Sample.cloud_fingerprints
          [Sample.env_finding; Sample.email_finding; Sample.page_finding]
          Sample.cloudflare_context
  = [ ["KNOWN_SENSITIVE_FILE"; "INFRASTRUCTURE_FINGERPRINT_EXPOSED"];
      ["HIGH_RISK_DOMAIN_CONTEXT"; "PUBLICLY_EXPOSED_ARTIFACT";
       "INFRASTRUCTURE_FINGERPRINT_EXPOSED"];
      ["NO_OSINT_SIGNAL"] ].
Proof. vm_compute. reflexivity. Qed.

(** The only candidate the analyzer's first test rejects is the empty
    string. *)
Lemma falsy_candidate_is_empty (candidate : string) :
  Py.truthy candidate = false ↔ candidate = "".
Proof.
  unfold Py.truthy. rewrite negb_false_iff. apply String.eqb_eq.
Qed.

(** * Properties of the stages and of the tasks that run them *)

(** ** More on the rule component and the fusion *)

Lemma severity_of_cases (score : Q) :
  (severity_of score = "High" ∧ (80 <= score)%Q)
  ∨ (severity_of score = "Medium" ∧ (40 <= score)%Q ∧ (score < 80)%Q)
  ∨ (severity_of score = "Low" ∧ (score < 40)%Q).
Proof.
  unfold severity_of.
  destruct (Qle_bool 80 score) eqn:H80;
    [apply Qle_bool_iff in H80; now left | apply Qle_bool_false in H80].
  destruct (Qle_bool 40 score) eqn:H40;
    [apply Qle_bool_iff in H40; right; left; auto | apply Qle_bool_false in H40].
  right. right. auto.
Qed.

Lemma calculate_base_score_shape (f : finding) (score : Z) (sev : string) (factors : list string) :
  Risk.calculate_base_score f = Some (score, sev, factors) →
  ∃ validity,
    (Py.lower <$> get_str (default ∅ (validation f)) "validity" "unknown") = Some validity
    ∧ let category := Py.upper (default "" (category f)) in
      let raw := (Risk.validity_rule validity).1 + (Risk.category_rule category).1
                 + (Risk.osint_rule (from_option labels [] (osint f))).1 in
      let capped := if Py.contains "generic" (Py.lower category)
                       && negb (String.eqb validity "confirmed")
                    then Z.min raw 40 else raw in
      score = Z.min 100 (Z.max 10 capped) ∧ sev = severity_of (inject_Z score).
Proof.
  unfold Risk.calculate_base_score. intros H.
  destruct (Py.lower <$> get_str (default ∅ (validation f)) "validity" "unknown")
    as [validity |] eqn:Hv; [| discriminate].
  simpl in H. injection H as <- <- <-. exists validity. split; [reflexivity |].
  cbv zeta. split; reflexivity.
Qed.

(** X1. Whatever the finding, the rule score lies in [10, 100] and the
    rule severity is the one the thresholds 80 and 40 give for it. *)
Theorem rule_score_range (f : finding) (score : Z) (sev : string) (factors : list string) :
  Risk.calculate_base_score f = Some (score, sev, factors) →
  (10 ≤ score ≤ 100)%Z
  ∧ (sev = "High" ↔ (80 ≤ score)%Z)
  ∧ (sev = "Medium" ↔ (40 ≤ score < 80)%Z)
  ∧ (sev = "Low" ↔ (score < 40)%Z).
Proof.
  intros H. apply calculate_base_score_shape in H as (validity & _ & Hs).
  cbv zeta in Hs. destruct Hs as [Hscore ->].
  split; [lia |].
  destruct (severity_of_cases (inject_Z score)) as [[-> H1] | [(-> & H1 & H2) | [-> H1]]];
    rewrite <- ?(Zle_Qle 80), <- ?(Zle_Qle 40), <- ?(Zlt_Qlt _ 80), <- ?(Zlt_Qlt _ 40) in *;
    repeat split; intros; try lia; try reflexivity; try discriminate.
Qed.

Lemma rule_score_range_witness :
  Risk.calculate_base_score Sample.jwt_leak = Some (15, "Low", ["High-Value Secret Type: JWT"])
  ∧ (10 ≤ 15 ≤ 100)%Z
  ∧ ("Low" = "High" ↔ (80 ≤ 15)%Z)
  ∧ ("Low" = "Medium" ↔ (40 ≤ 15 < 80)%Z)
  ∧ ("Low" = "Low" ↔ (15 < 40)%Z).
Proof.
  assert (H : Risk.calculate_base_score Sample.jwt_leak
              = Some (15, "Low", ["High-Value Secret Type: JWT"])) by (vm_compute; reflexivity).
  split; [exact H |]. exact (rule_score_range _ _ _ _ H).
Defined.

Lemma lower_upper_char (c : ascii) : Py.lower_char (Py.upper_char c) = Py.lower_char c.
Proof. destruct c as [[] [] [] [] [] [] [] []]; reflexivity. Qed.

Lemma lower_upper (s : string) : Py.lower (Py.upper s) = Py.lower s.
Proof.
  induction s as [| c s IH]; [reflexivity |].
  unfold Py.lower, Py.upper in *. simpl. now rewrite lower_upper_char, IH.
Qed.

(** X2. A finding whose category contains [generic], in any case, and
    whose validity is not [confirmed] scores at most 40 in the rule
    component, and is never rated High by it. *)
Theorem generic_unconfirmed_capped (f : finding) (score : Z) (sev : string)
    (factors : list string) :
  Risk.calculate_base_score f = Some (score, sev, factors) →
  Py.contains "generic" (Py.lower (default "" (category f))) = true →
  (∀ v, get_str (default ∅ (validation f)) "validity" "unknown" = Some v →
        Py.lower v ≠ "confirmed") →
  (score ≤ 40)%Z ∧ sev ≠ "High".
Proof.
  intros H Hgen Hval.
  destruct (calculate_base_score_shape f score sev factors H) as (validity & Hv & Hs). cbv zeta in Hs.
  rewrite lower_upper, Hgen in Hs.
  assert (Hnc : String.eqb validity "confirmed" = false).
  { apply String.eqb_neq.
    destruct (get_str (default ∅ (validation f)) "validity" "unknown") as [v |] eqn:Hg;
      [| discriminate].
    simpl in Hv. injection Hv as <-. now apply Hval. }
  rewrite Hnc in Hs. simpl in Hs. destruct Hs as [Hscore ->].
  assert (Hle : (score ≤ 40)%Z) by lia. split; [exact Hle |].
  destruct (severity_of_cases (inject_Z score)) as [[_ H1] | [(-> & _) | [-> _]]];
    [| discriminate | discriminate].
  rewrite <- (Zle_Qle 80) in H1. lia.
Qed.

Lemma generic_unconfirmed_capped_witness :
  let f := set_osint {| labels := ["PUBLICLY_EXPOSED_ARTIFACT"; "EXPOSED_ADMIN_PATH"];
                        osint_metadata := [] |}
             (set_validation (<["validity" := PStr "plausible"]> ∅)
                (set_category "Generic API Key" bare_finding)) in
  ∃ factors,
    Risk.calculate_base_score f = Some (40, "Medium", factors)
    ∧ (40 ≤ 40)%Z ∧ "Medium" ≠ "High".
Proof.
  cbv zeta. eexists.
  match goal with |- ?A ∧ _ => assert (H : A) by (vm_compute; reflexivity) end.
  split; [exact H |].
  apply (generic_unconfirmed_capped _ _ _ _ H).
  - vm_compute. reflexivity.
  - intros v Hv. vm_compute in Hv. injection Hv as <-. discriminate.
Defined.

Section PipelineRisk.

Variable model_predict : list Q → string.
Variable model_predict_proba : list Q → list Q.
Variable model_classes : list string.
Variable model_top_features : list (string * Q).

Local Abbreviation predict :=
  (Risk.predict model_predict model_predict_proba model_classes model_top_features).
Local Abbreviation assess_one :=
  (Risk.assess_one model_predict model_predict_proba model_classes model_top_features).
Local Abbreviation assess_risk :=
  (Risk.assess_risk model_predict model_predict_proba model_classes model_top_features).

(** What [assess_one] returns, spelled out. *)
Lemma assess_one_result (f g : finding) :
  assess_one f = Some g →
  ∃ rule_score rule_sev rule_factors ml_score ml_sev ml_top r,
    Risk.calculate_base_score f = Some (rule_score, rule_sev, rule_factors)
    ∧ predict f = Some (ml_score, ml_sev, ml_top)
    ∧ g = set_risk r f
    ∧ score r = Py.int (Risk.fuse rule_score ml_score)
    ∧ severity r = severity_of (Risk.fuse rule_score ml_score).
Proof.
  unfold Risk.assess_one. intros H.
  destruct (Risk.calculate_base_score f) as [[[rs rsev] rf] |] eqn:Hr; [| discriminate].
  destruct (predict f) as [[[ms msev] mt] |] eqn:Hm; [| discriminate].
  simpl in H. injection H as <-.
  eexists rs, rsev, rf, ms, msev, mt, _.
  split; [reflexivity |]. split; [reflexivity |]. split; [reflexivity |]. split; reflexivity.
Qed.

Lemma set_risk_twice (r r' : risk_doc) (f : finding) :
  set_risk r' (set_risk r f) = set_risk r' f.
Proof. reflexivity. Qed.

(** X3. Risk assessment overwrites the [risk] field and nothing else,
    and does not read it: assessing an assessed finding again returns
    it unchanged. *)
Theorem assess_risk_idempotent (findings out : list finding) :
  assess_risk findings = Some out →
  assess_risk out = Some out
  ∧ Forall2 (fun f g =>
               rule_id g = rule_id f ∧ category g = category f
               ∧ secret_match g = secret_match f ∧ secret g = secret f
               ∧ excerpt g = excerpt f ∧ url g = url f
               ∧ source_file g = source_file f ∧ reuse_count g = reuse_count f
               ∧ validation g = validation f ∧ osint g = osint f
               ∧ is_Some (risk g))
            findings out.
Proof.
  unfold Risk.assess_risk. intros H. apply mapM_Some in H.
  split.
  - apply mapM_Some. induction H as [| f g fs gs Hfg _ IH]; constructor; [| exact IH].
    destruct (assess_one_result f g Hfg) as (rs & rsev & rf & ms & msev & mt & r & _ & _ & -> & _).
    unfold Risk.assess_one in *.
    change (Risk.calculate_base_score (set_risk r f)) with (Risk.calculate_base_score f).
    change (predict (set_risk r f)) with (predict f).
    destruct (Risk.calculate_base_score f) as [[[rs' rsev'] rf'] |]; [| discriminate].
    destruct (predict f) as [[[ms' msev'] mt'] |]; [| discriminate].
    simpl in *. rewrite set_risk_twice. exact Hfg.
  - induction H as [| f g fs gs Hfg _ IH]; constructor; [| exact IH].
    destruct (assess_one_result f g Hfg) as (rs & rsev & rf & ms & msev & mt & r & _ & _ & -> & _).
    simpl. repeat split; eauto.
Qed.

End PipelineRisk.

Lemma assess_risk_idempotent_witness :
  ∃ out,
    Risk.assess_risk Sample.model_predict Sample.model_predict_proba Sample.model_classes
      Sample.model_top_features [Sample.jwt_leak; Sample.env_finding] = Some out
    ∧ Risk.assess_risk Sample.model_predict Sample.model_predict_proba Sample.model_classes
        Sample.model_top_features out = Some out.
Proof.
  eexists.
  match goal with |- ?A ∧ _ => assert (H : A) by (vm_compute; reflexivity) end.
  split; [exact H |].
  exact (proj1 (assess_risk_idempotent _ _ _ _ _ _ H)).
Defined.

(** ** The classifier's weighted score *)

Lemma score_map_range (cls : string) : (0 <= Risk.score_map cls <= 90)%Q.
Proof.
  unfold Risk.score_map.
  repeat match goal with |- context [if ?b then _ else _] => destruct b end; lra.
Qed.

Lemma Qsum_nonneg (l : list Q) : Forall (fun p => (0 <= p)%Q) l → (0 <= Qsum l)%Q.
Proof. induction 1 as [| p l Hp _ IH]; simpl; lra. Qed.

Lemma weighted_score_range (classes : list string) (probs : list Q) (acc : Q) :
  Forall (fun p => (0 <= p)%Q) probs →
  (acc <= Risk.weighted_score acc classes probs <= acc + 90 * Qsum probs)%Q.
Proof.
  intros Hp. revert classes acc.
  induction Hp as [| p probs Hp Hps IH]; intros classes acc.
  - destruct classes; simpl; lra.
  - destruct classes as [| cls classes]; simpl.
    + pose proof (Qsum_nonneg probs Hps). lra.
    + specialize (IH classes (acc + Risk.score_map cls * p)%Q).
      pose proof (score_map_range cls) as [H0 H90].
      assert (0 <= Risk.score_map cls * p)%Q by (apply Qmult_le_0_compat; lra).
      assert (Risk.score_map cls * p <= 90 * p)%Q
        by (apply Qmult_le_compat_r; lra).
      lra.
Qed.

Section ScoreRange.

Variable model_predict : list Q → string.
Variable model_predict_proba : list Q → list Q.
Variable model_classes : list string.
Variable model_top_features : list (string * Q).

Local Abbreviation predict :=
  (Risk.predict model_predict model_predict_proba model_classes model_top_features).
Local Abbreviation assess_one :=
  (Risk.assess_one model_predict model_predict_proba model_classes model_top_features).

(** X4. When the classifier's probabilities are non-negative and sum
    to at most 1, its weighted score lies in [0, 90], and the risk
    score stored with a finding lies in [10, 100]. *)
Theorem stored_score_range (f g : finding) :
  (∀ features, Forall (fun p => (0 <= p)%Q) (model_predict_proba features)
               ∧ (Qsum (model_predict_proba features) <= 1)%Q) →
  assess_one f = Some g →
  ∃ r m,
    risk g = Some r ∧ ml r = Some m
    ∧ (10 ≤ score r ≤ 100)%Z ∧ (0 ≤ confidence_score m ≤ 90)%Z.
Proof.
  intros Hmodel H. unfold Risk.assess_one in H.
  destruct (Risk.calculate_base_score f) as [[[rs rsev] rf] |] eqn:Hr; [| discriminate].
  destruct (predict f) as [[[ms msev] mt] |] eqn:Hm; [| discriminate].
  simpl in H. injection H as <-.
  eexists _, _. split; [reflexivity |]. split; [reflexivity |]. simpl.
  assert (Hrs : (10 ≤ rs ≤ 100)%Z).
  { apply calculate_base_score_shape in Hr as (v & _ & Hs). cbv zeta in Hs. lia. }
  assert (Hms : (0 <= ms <= 90)%Q).
  { unfold Risk.predict in Hm.
    destruct (Risk._extract_features f) as [features |]; [| discriminate].
    simpl in Hm. injection Hm as <- _ _.
    destruct (Hmodel features) as [Hnn Hsum].
    pose proof (weighted_score_range model_classes _ 0%Q Hnn). lra. }
  destruct (fuse_bounds rs ms) as [Hlo _].
  assert (Hhi : (Risk.fuse rs ms <= 100)%Q).
  { unfold Risk.fuse. rewrite py_max_Qmax, py_min_Qmin. apply Q.max_lub.
    - change (inject_Z rs <= inject_Z 100)%Q. rewrite <- Zle_Qle. lia.
    - eapply Qle_trans; [apply Q.le_min_r |]. lra. }
  split; split.
  - apply py_int_lower. eapply Qle_trans; [| exact Hlo]. rewrite <- Zle_Qle. lia.
  - apply py_int_upper. exact Hhi.
  - apply py_int_lower. apply Hms.
  - apply py_int_upper. apply Hms.
Qed.

End ScoreRange.

Lemma stored_score_range_witness :
  ∃ g r m,
    Risk.assess_one Sample.model_predict Sample.model_predict_proba Sample.model_classes
      Sample.model_top_features Sample.jwt_leak = Some g
    ∧ risk g = Some r ∧ ml r = Some m
    ∧ (10 ≤ score r ≤ 100)%Z ∧ (0 ≤ confidence_score m ≤ 90)%Z.
Proof.
  eexists.
  assert (Hm : ∀ features : list Q,
             Forall (fun p => (0 <= p)%Q) (Sample.model_predict_proba features)
             ∧ (Qsum (Sample.model_predict_proba features) <= 1)%Q).
  { intros features. split; [| vm_compute; discriminate].
    repeat constructor; vm_compute; discriminate. }
  match goal with |- ∃ r m, ?A ∧ _ =>
    assert (H : A) by (vm_compute; reflexivity) end.
  destruct (stored_score_range _ _ _ _ _ _ Hm H) as (r & m & H1 & H2 & H3 & H4).
  exists r, m. auto.
Defined.

(** ** The stages in sequence *)

Lemma result_doc_no_entropy (r : vresult) : result_doc r !! "entropy" = None.
Proof.
  unfold result_doc. now rewrite !lookup_insert_ne, lookup_empty by discriminate.
Qed.

(** The rule score of a finding whose validation field is the
    analyzer's dict: category tier and OSINT additions only. *)
Lemma base_score_of_annotated (f : finding) (r : vresult) :
  validation f = Some (result_doc r) →
  ∃ score sev factors,
    Risk.calculate_base_score f = Some (score, sev, factors) ∧ (10 ≤ score ≤ 50)%Z.
Proof.
  intros Hv. unfold Risk.calculate_base_score, get_str. rewrite Hv. simpl.
  rewrite result_doc_no_validity. simpl.
  eexists _, _, _. split; [reflexivity |].
  unfold Risk.category_rule, Risk.osint_rule.
  repeat match goal with |- context [if ?b then _ else _] => destruct b end;
    simpl; lia.
Qed.

(** Correlation writes the [osint] field and nothing else. *)
Lemma correlate_one_sets_osint
    (sensitive_files disposable_domains free_domains breached_org_domains
       admin_paths : gset string) (providers : list string) (f : finding) :
  ∃ o, Osint.correlate_one sensitive_files disposable_domains free_domains
         breached_org_domains admin_paths providers f = set_osint o f.
Proof.
  unfold Osint.correlate_one. cbv zeta. forget_pairs.
  eexists; reflexivity.
Qed.

Section EndToEnd.

Variable b64decode : string → option string.
Variable json_loads : string → option json.
Variable log : Q → Q → Q.
Variable round : Q → Z → Q.
Variable DNS_AVAILABLE : bool.
Variable resolve : string → string → Validation.exn + bool.
Variables sensitive_files disposable_domains free_domains
          breached_org_domains admin_paths : gset string.
Variable model_predict : list Q → string.
Variable model_predict_proba : list Q → list Q.
Variable model_classes : list string.
Variable model_top_features : list (string * Q).

Local Abbreviation validate_leak :=
  (Validation.validate_leak b64decode json_loads log round DNS_AVAILABLE resolve).
Local Abbreviation correlate_one :=
  (Osint.correlate_one sensitive_files disposable_domains free_domains
     breached_org_domains admin_paths).
Local Abbreviation predict :=
  (Risk.predict model_predict model_predict_proba model_classes model_top_features).
Local Abbreviation assess_one :=
  (Risk.assess_one model_predict model_predict_proba model_classes model_top_features).

(** X5. A finding the validation stage has annotated, once
    correlated, is always assessed, and never rated High: its rule
    score is at most 50 whatever the analyzer's verdict, so its final
    score is at most 70. *)
Theorem pipeline_finding_never_high (providers : list string) (leak f : finding) :
  validate_leak leak = Some f →
  ∃ g r,
    assess_one (correlate_one providers f) = Some g
    ∧ risk g = Some r
    ∧ (10 ≤ score r ≤ 70)%Z
    ∧ (severity r = "Low" ∨ severity r = "Medium").
Proof.
  intros Hval.
  apply (validate_leak_annotates b64decode json_loads log round DNS_AVAILABLE resolve)
    in Hval as [res0 ->].
  set (f := correlate_one providers (set_validation (result_doc res0) leak)).
  assert (Hv : ∃ res, validation f = Some (result_doc res)).
  { subst f.
    destruct (correlate_one_sets_osint sensitive_files disposable_domains free_domains
                breached_org_domains admin_paths providers
                (set_validation (result_doc res0) leak)) as [o ->].
    eexists. reflexivity. }
  destruct Hv as [res Hv].
  destruct (base_score_of_annotated f res Hv) as (rs & rsev & rf & Hr & Hrs).
  assert (Hp : is_Some (predict f)).
  { unfold Risk.predict, Risk._extract_features, get_str. rewrite Hv. simpl.
    rewrite result_doc_no_validity, result_doc_no_entropy. simpl. eauto. }
  destruct Hp as [[[ms msev] mt] Hm].
  eexists _, _. unfold Risk.assess_one. rewrite Hr, Hm. simpl.
  split; [reflexivity |]. split; [reflexivity |]. simpl.
  destruct (fuse_bounds rs ms) as [Hlo Hhi].
  split.
  - split; [apply py_int_lower | apply py_int_upper].
    + eapply Qle_trans; [| exact Hlo]. rewrite <- Zle_Qle. lia.
    + eapply Qle_trans; [exact Hhi |]. rewrite <- Zle_Qle. lia.
  - destruct (severity_of_cases (Risk.fuse rs ms)) as [[_ H1] | [(-> & _) | [-> _]]]; auto.
    exfalso. assert (H80 : (80 <= inject_Z (rs + 20))%Q) by (eapply Qle_trans; eauto).
    rewrite <- (Zle_Qle 80) in H80. lia.
Qed.

End EndToEnd.

Lemma pipeline_finding_never_high_witness :
  ∃ f g r,
    Validation.validate_leak Ref.b64decode Ref.json_loads Ref.log Ref.round true
      Ref.resolve_mx Sample.jwt_leak = Some f
    ∧ Risk.assess_one Sample.model_predict Sample.model_predict_proba Sample.model_classes
        Sample.model_top_features
        (Osint.correlate_one Sample.sensitive_files Sample.disposable_domains
           Sample.free_domains Sample.breached_org_domains Sample.admin_paths ["Cloudflare"] f)
      = Some g
    ∧ risk g = Some r
    ∧ (10 ≤ score r ≤ 70)%Z
    ∧ (severity r = "Low" ∨ severity r = "Medium").
Proof.
  eexists.
  match goal with |- ∃ g r, ?A ∧ _ =>
    assert (H : A) by (vm_compute; reflexivity) end.
  destruct (pipeline_finding_never_high Ref.b64decode Ref.json_loads Ref.log Ref.round true
              Ref.resolve_mx Sample.sensitive_files Sample.disposable_domains
              Sample.free_domains Sample.breached_org_domains Sample.admin_paths
              Sample.model_predict Sample.model_predict_proba Sample.model_classes
              Sample.model_top_features ["Cloudflare"] _ _ H)
    as (g & r & H1 & H2 & H3 & H4).
  exists g, r. auto.
Defined.

Section StageOrder.

Variable b64decode : string → option string.
Variable json_loads : string → option json.
Variable log : Q → Q → Q.
Variable round : Q → Z → Q.
Variable DNS_AVAILABLE : bool.
Variable resolve : string → string → Validation.exn + bool.
Variables sensitive_files disposable_domains free_domains
          breached_org_domains admin_paths : gset string.
Variable cloud_fingerprints : list (string * list string).

Local Abbreviation validate_leak :=
  (Validation.validate_leak b64decode json_loads log round DNS_AVAILABLE resolve).
Local Abbreviation validation_stage :=
  (Validation.validation_stage b64decode json_loads log round DNS_AVAILABLE resolve).
Local Abbreviation correlate_one :=
  (Osint.correlate_one sensitive_files disposable_domains free_domains
     breached_org_domains admin_paths).
Local Abbreviation correlate :=
  (Osint.correlate sensitive_files disposable_domains free_domains
     breached_org_domains admin_paths cloud_fingerprints).

Lemma correlate_one_again (providers : list string) (o : osint_ctx) (f : finding) :
  correlate_one providers (set_osint o f) = correlate_one providers f.
Proof. reflexivity. Qed.

Lemma correlate_one_validated (providers : list string) (v : gmap string pyval) (f : finding) :
  correlate_one providers (set_validation v f) = set_validation v (correlate_one providers f).
Proof.
  unfold Osint.correlate_one. cbv zeta.
  cbn [url source_file excerpt category secret reuse_count set_validation].
  forget_pairs. reflexivity.
Qed.

(** X6. Correlation is idempotent: it does not read the [osint] field
    it writes, so running it again on its own output, with the same
    crawl context, changes nothing. *)
Theorem correlate_idempotent (findings : list finding) (ctx : Osint.crawl_context) :
  correlate (correlate findings ctx) ctx = correlate findings ctx.
Proof.
  unfold Osint.correlate. destruct findings as [| f fs]; [reflexivity |].
  set (gp := Osint.detect_cloud_provider _ _ _ _).
  simpl. f_equal.
  - destruct (correlate_one_sets_osint sensitive_files disposable_domains free_domains
                breached_org_domains admin_paths gp f) as [o Ho].
    rewrite Ho at 1. rewrite correlate_one_again. reflexivity.
  - rewrite <- list_fmap_compose. apply list_fmap_ext. intros i g _. simpl.
    destruct (correlate_one_sets_osint sensitive_files disposable_domains free_domains
                breached_org_domains admin_paths gp g) as [o Ho].
    rewrite Ho at 1. rewrite correlate_one_again. reflexivity.
Qed.

Lemma validate_leak_correlated (providers : list string) (leak f : finding) :
  validate_leak leak = Some f →
  validate_leak (correlate_one providers leak) = Some (correlate_one providers f).
Proof.
  unfold Validation.validate_leak. intros H.
  destruct (correlate_one_sets_osint sensitive_files disposable_domains free_domains
              breached_org_domains admin_paths providers leak) as [o Ho].
  rewrite Ho at 1.
  change (Validation.leak_verdict b64decode json_loads log round DNS_AVAILABLE resolve
            (set_osint o leak))
    with (Validation.leak_verdict b64decode json_loads log round DNS_AVAILABLE resolve leak).
  destruct (Validation.leak_verdict _ _ _ _ _ _ leak) as [res |]; [| discriminate].
  simpl in *. injection H as <-. rewrite correlate_one_validated, Ho. reflexivity.
Qed.

(** X7. The validation stage and the correlation stage do not read
    each other's field: when the validation stage completes on a list
    of findings, it also completes on the correlated findings, and
    validation then correlation gives the same findings as correlation
    then validation. *)
Theorem validation_correlation_commute (findings out : list finding)
    (ctx : Osint.crawl_context) :
  validation_stage findings = Some out →
  validation_stage (correlate findings ctx) = Some (correlate out ctx).
Proof.
  unfold Validation.validation_stage. intros H. apply mapM_Some in H.
  apply mapM_Some. unfold Osint.correlate.
  destruct H as [| f g fs gs Hfg Hrest]; [constructor |].
  set (gp := Osint.detect_cloud_provider _ _ _ _).
  change (Forall2 (fun x y => validate_leak x = Some y)
            (correlate_one gp <$> f :: fs) (correlate_one gp <$> g :: gs)).
  apply Forall2_fmap. constructor; [apply validate_leak_correlated, Hfg |].
  eapply Forall2_impl; [exact Hrest |]. intros x y Hxy.
  apply validate_leak_correlated, Hxy.
Qed.

End StageOrder.

Lemma validation_correlation_commute_witness :
  ∃ out,
    Validation.validation_stage Ref.b64decode Ref.json_loads Ref.log Ref.round true
      Ref.resolve_mx [Sample.jwt_leak] = Some out
    ∧ Validation.validation_stage Ref.b64decode Ref.json_loads Ref.log Ref.round true
        Ref.resolve_mx
        (Osint.correlate Sample.sensitive_files Sample.disposable_domains Sample.free_domains
           Sample.breached_org_domains Sample.admin_paths Sample.cloud_fingerprints
           [Sample.jwt_leak] Sample.cloudflare_context)
      = Some (Osint.correlate Sample.sensitive_files Sample.disposable_domains
                Sample.free_domains Sample.breached_org_domains Sample.admin_paths
                Sample.cloud_fingerprints out Sample.cloudflare_context).
Proof.
  eexists.
  match goal with |- ?A ∧ _ => assert (H : A) by (vm_compute; reflexivity) end.
  split; [exact H |].
  exact (validation_correlation_commute Ref.b64decode Ref.json_loads Ref.log Ref.round true
           Ref.resolve_mx Sample.sensitive_files Sample.disposable_domains Sample.free_domains
           Sample.breached_org_domains Sample.admin_paths Sample.cloud_fingerprints
           _ _ Sample.cloudflare_context H).
Defined.

(** ** The labels of a correlated finding *)

Lemma fromkeys_NoDup (seen l : list string) : NoDup (Osint.fromkeys seen l).
Proof.
  revert seen. induction l as [| x l IH]; intros seen; simpl; [constructor |].
  unfold Py.mem. case_bool_decide as Hx; [apply IH |].
  constructor; [| apply IH].
  rewrite elem_of_fromkeys. intros [_ H]. apply H, elem_of_cons. now left.
Qed.

Lemma fromkeys_fixed (seen l : list string) :
  NoDup l → (∀ x, x ∈ l → x ∉ seen) → Osint.fromkeys seen l = l.
Proof.
  revert seen. induction l as [| x l IH]; intros seen Hnd Hs; [reflexivity |].
  apply NoDup_cons in Hnd as [Hx Hnd]. simpl. unfold Py.mem.
  case_bool_decide as Hin.
  - exfalso. apply (Hs x); [apply elem_of_cons; now left | exact Hin].
  - f_equal. apply IH; [exact Hnd |].
    intros y Hy Hys. apply elem_of_cons in Hys as [-> | Hys]; [contradiction |].
    apply (Hs y); [apply elem_of_cons; now right | exact Hys].
Qed.

Section LabelFacts.

Variables sensitive_files disposable_domains free_domains
          breached_org_domains admin_paths : gset string.

Local Abbreviation correlate_one :=
  (Osint.correlate_one sensitive_files disposable_domains free_domains
     breached_org_domains admin_paths).
Local Abbreviation osint_labels := Statements.osint_labels.

(** X8. Every correlated finding carries at least one label, no label
    twice, and only the seven labels of the correlator;
    NO_OSINT_SIGNAL is never mixed with another label. *)
Theorem correlate_labels_wellformed (providers : list string) (f : finding) :
  let ls := osint_labels (correlate_one providers f) in
  ls ≠ [] ∧ NoDup ls
  ∧ Forall (fun x => x ∈ ["KNOWN_SENSITIVE_FILE"; "EXPOSED_ADMIN_PATH";
                          "HIGH_RISK_DOMAIN_CONTEXT"; "PUBLICLY_EXPOSED_ARTIFACT";
                          "INFRASTRUCTURE_FINGERPRINT_EXPOSED"; "SECRET_REUSE_DETECTED";
                          "NO_OSINT_SIGNAL"]) ls
  ∧ ("NO_OSINT_SIGNAL" ∈ ls ↔ ls = ["NO_OSINT_SIGNAL"]).
Proof.
  unfold Statements.osint_labels, Osint.correlate_one. cbv zeta.
  pose proof (sublist_nil_l (@nil string)) as H0.
  label_step (@nil string) "KNOWN_SENSITIVE_FILE" H0 H1.
  label_step ["KNOWN_SENSITIVE_FILE"] "EXPOSED_ADMIN_PATH" H1 H2.
  label_step ["KNOWN_SENSITIVE_FILE"; "EXPOSED_ADMIN_PATH"] "HIGH_RISK_DOMAIN_CONTEXT" H2 H3.
  label_step ["KNOWN_SENSITIVE_FILE"; "EXPOSED_ADMIN_PATH"; "HIGH_RISK_DOMAIN_CONTEXT"]
    "PUBLICLY_EXPOSED_ARTIFACT" H3 H4.
  label_step ["KNOWN_SENSITIVE_FILE"; "EXPOSED_ADMIN_PATH"; "HIGH_RISK_DOMAIN_CONTEXT";
              "PUBLICLY_EXPOSED_ARTIFACT"] "INFRASTRUCTURE_FINGERPRINT_EXPOSED" H4 H5.
  match goal with
  | |- context [if ?c then (?l ++ ["SECRET_REUSE_DETECTED"])%list else ?l] =>
      assert (H6 : sublist (if c then (l ++ ["SECRET_REUSE_DETECTED"])%list else l)
                     ["KNOWN_SENSITIVE_FILE"; "EXPOSED_ADMIN_PATH"; "HIGH_RISK_DOMAIN_CONTEXT";
                      "PUBLICLY_EXPOSED_ARTIFACT"; "INFRASTRUCTURE_FINGERPRINT_EXPOSED";
                      "SECRET_REUSE_DETECTED"])
        by (destruct c;
            [ apply (sublist_app _ _ ["SECRET_REUSE_DETECTED"] ["SECRET_REUSE_DETECTED"] H5);
              reflexivity
            | apply (sublist_inserts_r ["SECRET_REUSE_DETECTED"] _ _ H5) ]);
      generalize dependent (if c then (l ++ ["SECRET_REUSE_DETECTED"])%list else l)
  end.
  intros raw Hraw. clear H5. simpl.
  assert (Hnd : NoDup raw).
  { eapply sublist_NoDup; [| exact Hraw]. apply (bool_decide_unpack _). vm_compute. exact I. }
  assert (Hin : ∀ x, x ∈ raw →
                  x ∈ ["KNOWN_SENSITIVE_FILE"; "EXPOSED_ADMIN_PATH"; "HIGH_RISK_DOMAIN_CONTEXT";
                       "PUBLICLY_EXPOSED_ARTIFACT"; "INFRASTRUCTURE_FINGERPRINT_EXPOSED";
                       "SECRET_REUSE_DETECTED"]).
  { intros x Hx. exact (sublist_subseteq _ _ Hraw x Hx). }
  assert (Hno : "NO_OSINT_SIGNAL" ∉ raw).
  { intros Hx. apply Hin in Hx. revert Hx. apply (bool_decide_unpack _). vm_compute. exact I. }
  case_bool_decide as He.
  - subst raw. split; [discriminate |]. split; [apply fromkeys_NoDup |].
    split; [| split; [reflexivity | intros _; apply elem_of_cons; now left]].
    apply (bool_decide_unpack _). vm_compute. exact I.
  - rewrite (fromkeys_fixed [] raw Hnd) by (intros x _; apply not_elem_of_nil).
    split; [exact He |]. split; [exact Hnd |]. split.
    + apply Forall_forall. intros x Hx. apply Hin in Hx.
      rewrite !elem_of_cons in Hx. rewrite !elem_of_cons. tauto.
    + split; [contradiction |]. intros ->. exfalso. apply Hno, elem_of_cons. now left.
Qed.

(** X9. A leak found in a script is labelled PUBLICLY_EXPOSED_ARTIFACT
    exactly when the script has a [src] that ends in [.js]: leaks of
    inline scripts, stored with source file [inline], never are. *)
Theorem public_label_by_script_source (providers : list string) (page_url js_src : option string)
    (d : Leaks.leak) :
  "PUBLICLY_EXPOSED_ARTIFACT"
    ∈ osint_labels (correlate_one providers
                      (Tasks.leak_doc page_url (Tasks.source_of js_src) d))
  ↔ ∃ s, js_src = Some s ∧ Py.endswith s ".js" = true.
Proof.
  destruct (correlate_one_labels sensitive_files disposable_domains free_domains
              breached_org_domains admin_paths providers
              (Tasks.leak_doc page_url (Tasks.source_of js_src) d)) as (_ & _ & H & _).
  unfold Py.mem in H.
  set (ls := osint_labels _) in *.
  unfold Statements.public_js_hit in H. simpl in H.
  split.
  - intros Hin. apply (bool_decide_eq_true_2 _) in Hin. rewrite H in Hin.
    apply andb_true_iff in Hin as [Ht He].
    unfold Tasks.source_of in *. destruct js_src as [s |]; simpl in *.
    + destruct (Py.truthy s) eqn:Es; [eauto | discriminate].
    + discriminate.
  - intros (s & -> & He). apply (bool_decide_unpack _). rewrite H.
    unfold Tasks.source_of. simpl.
    assert (Ht : Py.truthy s = true).
    { destruct s; [discriminate | reflexivity]. }
    rewrite Ht. simpl. rewrite Ht, He. exact I.
Qed.

End LabelFacts.

(** ** The provider list *)

Lemma elem_of_insert_sorted (x y : string) (l : list string) :
  x ∈ Osint.insert_sorted y l ↔ x = y ∨ x ∈ l.
Proof.
  induction l as [| z l IH]; simpl.
  - rewrite list_elem_of_singleton, elem_of_nil. tauto.
  - destruct (String.leb y z).
    + rewrite elem_of_cons. tauto.
    + rewrite !elem_of_cons, IH. tauto.
Qed.

Lemma elem_of_sorted (x : string) (l : list string) : x ∈ Osint.sorted l ↔ x ∈ l.
Proof.
  unfold Osint.sorted. induction l as [| y l IH]; simpl; [tauto |].
  rewrite elem_of_insert_sorted, IH, elem_of_cons. tauto.
Qed.

Lemma insert_sorted_NoDup (y : string) (l : list string) :
  y ∉ l → NoDup l → NoDup (Osint.insert_sorted y l).
Proof.
  induction l as [| z l IH]; simpl; intros Hy Hl.
  - constructor; [apply not_elem_of_nil | constructor].
  - destruct (String.leb y z).
    + constructor; assumption.
    + apply NoDup_cons in Hl as [Hz Hl]. rewrite elem_of_cons in Hy.
      constructor.
      * rewrite elem_of_insert_sorted. intros [-> | H]; tauto.
      * apply IH; tauto.
Qed.

Lemma sorted_NoDup (l : list string) : NoDup l → NoDup (Osint.sorted l).
Proof.
  unfold Osint.sorted. induction l as [| y l IH]; simpl; intros Hl; [constructor |].
  apply NoDup_cons in Hl as [Hy Hl].
  apply insert_sorted_NoDup; [| auto].
  change (y ∉ Osint.sorted l). now rewrite elem_of_sorted.
Qed.

Lemma insert_sorted_ascending (y : string) (l : list string) :
  Sorted.Sorted (fun a b => String.leb a b = true) l →
  Sorted.Sorted (fun a b => String.leb a b = true) (Osint.insert_sorted y l).
Proof.
  induction l as [| z l IH]; simpl; intros Hl.
  - repeat constructor.
  - destruct (String.leb y z) eqn:E.
    + constructor; [exact Hl | constructor; exact E].
    + assert (Hzy : String.leb z y = true).
      { destruct (String.leb_total y z) as [H | H]; [congruence | exact H]. }
      inversion Hl as [| ? ? Hl' Hhd]; subst.
      constructor; [apply IH, Hl' |].
      destruct l as [| w l]; simpl.
      * constructor. exact Hzy.
      * destruct (String.leb y w); constructor; [exact Hzy |].
        inversion Hhd; subst. assumption.
Qed.

Lemma sorted_ascending (l : list string) :
  Sorted.Sorted (fun a b => String.leb a b = true) (Osint.sorted l).
Proof.
  unfold Osint.sorted. induction l as [| y l IH]; simpl; [constructor |].
  apply insert_sorted_ascending, IH.
Qed.

Lemma providers_fold (space : list string) (l : list (string * list string))
    (acc : gset string) (x : string) :
  x ∈ foldl (fun (acc : gset string) (pi : string * list string) =>
               if Osint.provider_hit space pi.2 then {[ pi.1 ]} ∪ acc else acc) acc l
  ↔ x ∈ acc ∨ ∃ inds, (x, inds) ∈ l ∧ Osint.provider_hit space inds = true.
Proof.
  revert acc. induction l as [| [p inds] l IH]; intros acc; simpl.
  - split; [auto |]. intros [H | (i & H & _)]; [exact H | now apply elem_of_nil in H].
  - rewrite IH. setoid_rewrite elem_of_cons.
    destruct (Osint.provider_hit space inds) eqn:Hhit.
    + rewrite elem_of_union, elem_of_singleton. split.
      * intros [[-> | H] | (i & H & Hi)]; eauto.
      * intros [H | (i & [[= -> ->] | H] & Hi)]; eauto.
    + split.
      * intros [H | (i & H & Hi)]; eauto.
      * intros [H | (i & [[= -> ->] | H] & Hi)]; eauto. congruence.
Qed.

Lemma detect_cloud_provider_elem
    (cloud_fingerprints : list (string * list string))
    (headers : list (string * string)) (urls js_files : list string) (p : string) :
  p ∈ Osint.detect_cloud_provider cloud_fingerprints headers urls js_files ↔
  ∃ indicators, (p, indicators) ∈ cloud_fingerprints
    ∧ ∃ indicator entry,
        indicator ∈ indicators
        ∧ entry ∈ Osint.search_space headers urls js_files
        ∧ Py.contains indicator entry = true.
Proof.
  unfold Osint.detect_cloud_provider. cbv zeta. rewrite elem_of_sorted, elem_of_elements, providers_fold.
  rewrite elem_of_empty.
  assert (Hhit : ∀ inds, Osint.provider_hit (Osint.search_space headers urls js_files) inds = true
                 ↔ ∃ indicator entry, indicator ∈ inds
                      ∧ entry ∈ Osint.search_space headers urls js_files
                      ∧ Py.contains indicator entry = true).
  { intros inds. unfold Osint.provider_hit. rewrite existsb_exists. split.
    - intros (i & Hi & He). apply existsb_exists in He as (e & He & Hc).
      exists i, e. rewrite !list_elem_of_In. auto.
    - intros (i & e & Hi & He & Hc). exists i. rewrite <- list_elem_of_In.
      split; [exact Hi |]. apply existsb_exists. exists e.
      rewrite <- list_elem_of_In. auto. }
  split.
  + intros [[] | (inds & Hin & Hh)]. exists inds. split; [exact Hin |]. now apply Hhit.
  + intros (inds & Hin & Hh). right. exists inds. split; [exact Hin |]. now apply Hhit.
Qed.

(** X10. The provider list names exactly the providers one of whose
    indicators occurs in a lower-cased header name or value, crawled
    URL or script URL; it names each once, in ascending order. *)
Theorem detect_cloud_provider_spec
    (cloud_fingerprints : list (string * list string))
    (headers : list (string * string)) (urls js_files : list string) :
  let providers := Osint.detect_cloud_provider cloud_fingerprints headers urls js_files in
  (∀ p, p ∈ providers ↔
        ∃ indicators, (p, indicators) ∈ cloud_fingerprints
          ∧ ∃ indicator entry,
              indicator ∈ indicators
              ∧ entry ∈ Osint.search_space headers urls js_files
              ∧ Py.contains indicator entry = true)
  ∧ NoDup providers
  ∧ Sorted.Sorted (fun a b => String.leb a b = true) providers.
Proof.
  cbv zeta. split; [| split].
  - intros p. apply detect_cloud_provider_elem.
  - unfold Osint.detect_cloud_provider. cbv zeta. apply sorted_NoDup, NoDup_elements.
  - unfold Osint.detect_cloud_provider. cbv zeta. apply sorted_ascending.
Qed.

(** *** Indicators are matched against lower-cased text *)

Lemma lower_char_idem (c : ascii) : Py.lower_char (Py.lower_char c) = Py.lower_char c.
Proof.
  destruct c as [[] [] [] [] [] [] [] []]; vm_compute; reflexivity.
Qed.

Lemma prefix_lower (sub t : string) :
  String.prefix sub (Py.lower t) = true → Py.lower sub = sub.
Proof.
  revert t. induction sub as [| a sub IH]; intros t H; [reflexivity |].
  destruct t as [| b t]; [discriminate |].
  change (Py.lower (String b t)) with (String (Py.lower_char b) (Py.lower t)) in H.
  simpl in H. destruct (ascii_dec a (Py.lower_char b)) as [-> | _]; [| discriminate].
  change (Py.lower (String (Py.lower_char b) sub))
    with (String (Py.lower_char (Py.lower_char b)) (Py.lower sub)).
  rewrite lower_char_idem, (IH t H). reflexivity.
Qed.

Lemma contains_lower (sub t : string) :
  Py.contains sub (Py.lower t) = true → Py.lower sub = sub.
Proof.
  induction t as [| b t IH]; simpl; intros H.
  - rewrite orb_false_r in H. exact (prefix_lower sub "" H).
  - apply orb_true_iff in H as [H | H].
    + exact (prefix_lower sub (String b t) H).
    + apply IH, H.
Qed.

Lemma search_space_lower (headers : list (string * string)) (urls js_files : list string)
    (entry : string) :
  entry ∈ Osint.search_space headers urls js_files → ∃ t, entry = Py.lower t.
Proof.
  unfold Osint.search_space. rewrite !elem_of_app.
  intros [H | [H | H]].
  - apply list_elem_of_In, in_flat_map in H as ([k v] & _ & H). simpl in H.
    destruct H as [<- | [<- | []]]; eauto.
  - apply list_elem_of_In, in_map_iff in H as (u & <- & _). eauto.
  - apply list_elem_of_In, in_map_iff in H as (u & <- & _). eauto.
Qed.

(** X11. The scanned text is lower-cased but the indicators are not:
    a provider whose indicators all contain a capital letter is never
    detected, whatever the headers and URLs. *)
Theorem uppercase_indicators_never_match
    (cloud_fingerprints : list (string * list string))
    (headers : list (string * string)) (urls js_files : list string) (provider : string) :
  (∀ indicators, (provider, indicators) ∈ cloud_fingerprints →
     Forall (fun indicator => Py.lower indicator ≠ indicator) indicators) →
  provider ∉ Osint.detect_cloud_provider cloud_fingerprints headers urls js_files.
Proof.
  intros Hup Hin.
  apply detect_cloud_provider_elem in Hin as (inds & Hfp & i & e & Hi & He & Hc).
  apply search_space_lower in He as [t ->].
  apply contains_lower in Hc.
  specialize (Hup inds Hfp). rewrite Forall_forall in Hup. exact (Hup i Hi Hc).
Qed.

Lemma uppercase_indicators_never_match_witness :
  "AWS" ∉ Osint.detect_cloud_provider [("AWS", ["AmazonS3"; "X-Amz-"])]
            [("Server", "AmazonS3"); ("X-Amz-Request-Id", "1")] ["https://a.example/"] [].
Proof.
  apply uppercase_indicators_never_match.
  intros indicators Hin. apply list_elem_of_singleton in Hin. injection Hin as ->.
  repeat constructor; discriminate.
Defined.

(** ** The correlation task *)

Lemma bump_lookup_key (k l : string) (summary : gmap string Z) :
  Tasks.bump l summary !! k
  = if bool_decide (l = k) then Z.succ <$> summary !! k else summary !! k.
Proof.
  unfold Tasks.bump. case_bool_decide as E.
  - subst l. destruct (summary !! k) as [n |] eqn:Hk; simpl.
    + rewrite lookup_insert_eq. reflexivity.
    + exact Hk.
  - destruct (summary !! l); [apply lookup_insert_ne; exact E | reflexivity].
Qed.

Lemma bump_labels_lookup (k : string) (ls : list string) (summary : gmap string Z) :
  NoDup ls →
  foldl (fun summary label => Tasks.bump label summary) summary ls !! k
  = (fun n => n + if bool_decide (k ∈ ls) then 1 else 0)%Z <$> summary !! k.
Proof.
  intros Hnd. revert summary. induction Hnd as [| l ls Hl Hnd IH]; intros summary.
  - simpl. destruct (summary !! k); simpl; [f_equal; lia | reflexivity].
  - cbn [foldl]. rewrite IH, bump_lookup_key.
    destruct (decide (l = k)) as [-> | E].
    + rewrite (bool_decide_eq_true_2 (k = k) eq_refl).
      rewrite (bool_decide_eq_false_2 _ Hl).
      rewrite (bool_decide_eq_true_2 (k ∈ k :: ls)) by (apply elem_of_cons; now left).
      destruct (summary !! k); simpl; [f_equal; lia | reflexivity].
    + rewrite (bool_decide_eq_false_2 _ E).
      assert (Hiff : bool_decide (k ∈ l :: ls) = bool_decide (k ∈ ls)).
      { apply bool_decide_ext. rewrite elem_of_cons. split; [intros [-> | H] | ]; auto.
        congruence. }
      rewrite Hiff. reflexivity.
Qed.

Lemma osint_summary_fold (k : string) (enriched : list finding) (summary : gmap string Z) :
  Forall (fun g => NoDup (Statements.osint_labels g)) enriched →
  foldl (fun summary f =>
           foldl (fun summary label => Tasks.bump label summary) summary
                 (from_option labels [] (osint f)))
        summary enriched !! k
  = (fun n => n + Z.of_nat (length (List.filter
                (fun g => bool_decide (k ∈ Statements.osint_labels g)) enriched)))%Z
    <$> summary !! k.
Proof.
  intros Hnd. revert summary. induction Hnd as [| g enriched Hg _ IH]; intros summary.
  - simpl. destruct (summary !! k); simpl; [f_equal; lia | reflexivity].
  - cbn [foldl]. rewrite IH, (bump_labels_lookup k _ _ Hg).
    cbn [List.filter]. fold (Statements.osint_labels g).
    destruct (summary !! k) as [n |]; [| reflexivity]. cbn [fmap option_fmap option_map].
    f_equal.
    destruct (bool_decide (k ∈ Statements.osint_labels g)); cbn [length]; lia.
Qed.

Section OsintTaskFacts.

Variables sensitive_files disposable_domains free_domains
          breached_org_domains admin_paths : gset string.
Variable cloud_fingerprints : list (string * list string).

Local Abbreviation correlate_one :=
  (Osint.correlate_one sensitive_files disposable_domains free_domains
     breached_org_domains admin_paths).
Local Abbreviation osint_correlation :=
  (Tasks.osint_correlation sensitive_files disposable_domains free_domains
     breached_org_domains admin_paths cloud_fingerprints).

Lemma correlate_one_labels_NoDup (providers : list string) (f : finding) :
  NoDup (Statements.osint_labels (correlate_one providers f)).
Proof.
  unfold Statements.osint_labels, Osint.correlate_one. cbv zeta. forget_pairs.
  simpl. apply fromkeys_NoDup.
Qed.

(** X12. The stored correlation summary counts findings: for each of
    the seven labels, the number of findings of the task that carry
    it.  As every finding carries a label, and NO_OSINT_SIGNAL only
    alone, no count exceeds the number of findings. *)
Theorem osint_summary_counts (target_url : string)
    (js_docs : list (option string * option string)) (findings : list finding) :
  let out := osint_correlation target_url js_docs findings in
  length out.1 = length findings
  ∧ Forall (fun label =>
              ∃ n : nat,
                out.2 !! label = Some (Z.of_nat n)
                ∧ n = length (List.filter
                        (fun g => bool_decide (label ∈ Statements.osint_labels g)) out.1)
                ∧ (n ≤ length findings)%nat)
           ["KNOWN_SENSITIVE_FILE"; "EXPOSED_ADMIN_PATH"; "PUBLICLY_EXPOSED_ARTIFACT";
            "HIGH_RISK_DOMAIN_CONTEXT"; "INFRASTRUCTURE_FINGERPRINT_EXPOSED";
            "SECRET_REUSE_DETECTED"; "NO_OSINT_SIGNAL"].
Proof.
  unfold Tasks.osint_correlation. cbv zeta. cbn [fst snd].
  set (enriched := Osint.correlate _ _ _ _ _ _ _ _).
  assert (Hlen : length enriched = length findings).
  { subst enriched. unfold Osint.correlate. destruct findings; [reflexivity |].
    apply length_map. }
  assert (Hnd : Forall (fun g => NoDup (Statements.osint_labels g)) enriched).
  { subst enriched. unfold Osint.correlate. destruct findings as [| f fs]; [constructor |].
    apply Forall_forall. intros g Hg. apply list_elem_of_In, in_map_iff in Hg as (f' & <- & _).
    apply correlate_one_labels_NoDup. }
  split; [exact Hlen |].
  assert (Hcount : ∀ label n0,
             Tasks.empty_osint_summary !! label = Some n0 → n0 = 0%Z →
             ∃ n : nat,
               Tasks.osint_summary enriched !! label = Some (Z.of_nat n)
               ∧ n = length (List.filter
                       (fun g => bool_decide (label ∈ Statements.osint_labels g)) enriched)
               ∧ (n ≤ length findings)%nat).
  { intros label n0 H0 ->.
    set (f := fun g : finding => bool_decide (label ∈ Statements.osint_labels g)).
    assert (Hle : (length (List.filter f enriched) ≤ length findings)%nat).
    { rewrite <- Hlen. pose proof (List.filter_length f enriched). lia. }
    exists (length (List.filter f enriched)). unfold Tasks.osint_summary.
    rewrite (osint_summary_fold label enriched _ Hnd), H0.
    split; [reflexivity |]. split; [reflexivity | exact Hle]. }
  repeat (constructor; [eapply Hcount; [reflexivity | reflexivity] |]). constructor.
Qed.

(** X13. The task records no headers, so a provider is detected
    exactly when one of its indicators occurs in the lower-cased
    target URL or in a lower-cased script URL (the [src] of a script,
    else its [origin]). *)
Theorem task_providers_from_urls (target_url : string)
    (js_docs : list (option string * option string)) (p : string) :
  let ctx := Tasks.crawl_context_of target_url js_docs in
  p ∈ Osint.detect_cloud_provider cloud_fingerprints
        (Osint.headers ctx) (Osint.urls ctx) (Osint.js_files ctx)
  ↔ ∃ indicators indicator u,
      (p, indicators) ∈ cloud_fingerprints ∧ indicator ∈ indicators
      ∧ u ∈ target_url :: omap Tasks.js_url js_docs
      ∧ Py.contains indicator (Py.lower u) = true.
Proof.
  cbv zeta. unfold Tasks.crawl_context_of. cbv zeta. cbn [Osint.headers Osint.urls Osint.js_files].
  set (js_urls := omap Tasks.js_url js_docs).
  rewrite detect_cloud_provider_elem.
  assert (Hspace : ∀ e, e ∈ Osint.search_space [] (target_url :: js_urls) js_urls
                        ↔ ∃ u, u ∈ target_url :: js_urls ∧ e = Py.lower u).
  { intros e. unfold Osint.search_space. cbn [flat_map app].
    rewrite elem_of_app, !list_elem_of_In, !in_map_iff. split.
    - intros [(u & <- & Hu) | (u & <- & Hu)].
      + exists u. rewrite list_elem_of_In. auto.
      + exists u. split; [| reflexivity]. apply elem_of_cons. right.
        apply list_elem_of_In in Hu. apply list_elem_of_filter in Hu as [_ Hu]. exact Hu.
    - intros (u & Hu & ->). left. exists u. rewrite <- list_elem_of_In. auto. }
  split.
  - intros (inds & Hfp & i & e & Hi & He & Hc). apply Hspace in He as (u & Hu & ->).
    exists inds, i, u. auto.
  - intros (inds & i & u & Hfp & Hi & Hu & Hc). exists inds. split; [exact Hfp |].
    exists i, (Py.lower u). split; [exact Hi |]. split; [| exact Hc].
    apply Hspace. eauto.
Qed.

End OsintTaskFacts.

(** ** The analyzer's verdicts *)

Lemma result_fields (l : vlabel) (conf : Z) (why : string) (md : gmap string pyval) :
  label (Validation._result l conf why md) = l
  ∧ confidence (Validation._result l conf why md) = Z.min 100 (Z.max 0 conf).
Proof. split; reflexivity. Qed.

Section VerdictFacts.

Variable b64decode : string → option string.
Variable json_loads : string → option json.
Variable log : Q → Q → Q.
Variable round : Q → Z → Q.
Variable DNS_AVAILABLE : bool.
Variable resolve : string → string → Validation.exn + bool.

Local Abbreviation _safe_b64_decode_json := (Validation._safe_b64_decode_json b64decode json_loads).
Local Abbreviation _validate_jwt := (Validation._validate_jwt b64decode json_loads log).
Local Abbreviation _validate_email := (Validation._validate_email DNS_AVAILABLE resolve).
Local Abbreviation _validate_generic_token :=
  (Validation._validate_generic_token b64decode json_loads log round).
Local Abbreviation analyze :=
  (Validation.analyze b64decode json_loads log round DNS_AVAILABLE resolve).

(** the confidence a verdict can carry, by label *)
Local Abbreviation in_band r :=
  (match label r with
   | Valid => Z.le 65 (confidence r) ∧ Z.le (confidence r) 95
   | Likely => Z.le 40 (confidence r) ∧ Z.le (confidence r) 90
   | Invalid => Z.le 0 (confidence r) ∧ Z.le (confidence r) 100
   end).

Lemma not_json_object_false (x : option json) :
  Validation.not_json_object x = false ↔ ∃ kv, x = Some (JObj kv) ∧ kv ≠ [].
Proof.
  unfold Validation.not_json_object. split.
  - intros H. apply orb_false_iff in H as [H1 H2].
    apply negb_false_iff in H1, H2.
    destruct x as [[] |]; simpl in *; try discriminate.
    exists kv. split; [reflexivity |].
    apply negb_true_iff, bool_decide_eq_false in H1. exact H1.
  - intros (kv & -> & Hne). simpl.
    rewrite orb_false_r. apply negb_false_iff, negb_true_iff, bool_decide_eq_false. exact Hne.
Qed.

Lemma validate_jwt_band (token : string) : in_band (_validate_jwt token).
Proof.
  unfold Validation._validate_jwt.
  destruct (Py.split "." token) as [| h [| p [| s [| ? ?]]]]; try (simpl; lia).
  destruct (negb (Py.truthy h) || negb (Py.truthy p)); [simpl; lia |].
  destruct (Validation.not_json_object _); [simpl; lia |].
  destruct (Validation.not_json_object _); [simpl; lia |].
  cbv zeta.
  set (claims := filter _ _).
  destruct (negb (bool_decide (claims = []))); cbv beta iota;
    destruct (negb (Qle_bool 3 _));
    match goal with |- context [(95 <? ?c)%Z] => destruct (Z.ltb_spec 95 c) end;
    simpl; lia.
Qed.

Lemma validate_email_band (email : string) : in_band (_validate_email email).
Proof.
  unfold Validation._validate_email, Validation.dns_lookups.
  repeat case_match; simplify_eq; simpl; lia.
Qed.

Lemma validate_generic_band (token label : string) :
  in_band (_validate_generic_token token label).
Proof.
  unfold Validation._validate_generic_token, Validation.base64_block,
    Validation.entropy_verdict.
  cbv zeta. repeat case_match; simplify_eq; simpl; lia.
Qed.

(** X14. Whatever the candidate and the type, the analyzer's
    confidence lies between 0 and 100; a [valid] verdict carries
    between 65 and 95, a [likely] verdict between 40 and 90. *)
Theorem analyze_confidence_bands (secret_candidate secret_type : string) :
  let r := analyze secret_candidate secret_type in
  (0 ≤ confidence r ≤ 100)%Z
  ∧ (label r = Valid → (65 ≤ confidence r ≤ 95)%Z)
  ∧ (label r = Likely → (40 ≤ confidence r ≤ 90)%Z).
Proof.
  intros r.
  assert (H : in_band r).
  { subst r. unfold Validation.analyze.
    destruct (negb (Py.truthy secret_candidate)); [simpl; lia |].
    cbv zeta.
    destruct (_ || _); [apply validate_jwt_band |].
    destruct (_ && _); [apply validate_email_band | apply validate_generic_band]. }
  destruct (label r); split_and!; intros; try discriminate; lia.
Qed.

(** X15. A token is judged a valid JWT exactly when it has three
    dot-separated segments of which the first two are non-empty and
    decode to non-empty JSON objects.  The signature segment plays no
    part: it may be empty; a payload that decodes to the empty object
    is rejected. *)
Theorem jwt_valid_iff (token : string) :
  label (_validate_jwt token) = Valid ↔
  ∃ header_b64 payload_b64 signature_b64 header payload,
    Py.split "." token = [header_b64; payload_b64; signature_b64]
    ∧ header_b64 ≠ "" ∧ payload_b64 ≠ ""
    ∧ _safe_b64_decode_json header_b64 = Some (JObj header) ∧ header ≠ []
    ∧ _safe_b64_decode_json payload_b64 = Some (JObj payload) ∧ payload ≠ [].
Proof.
  unfold Validation._validate_jwt.
  destruct (Py.split "." token) as [| h [| p [| s [| ? ?]]]];
    try (split; [discriminate | intros (? & ? & ? & ? & ? & [=] & _)]).
  destruct (Py.truthy h) eqn:Eh; simpl negb; cbn [orb].
  2:{ split; [discriminate |].
      intros (? & ? & ? & ? & ? & [= <- <- <-] & Hh & _).
      apply truthy_iff in Hh. congruence. }
  destruct (Py.truthy p) eqn:Ep; simpl negb; cbn [orb].
  2:{ split; [discriminate |].
      intros (? & ? & ? & ? & ? & [= <- <- <-] & _ & Hp & _).
      apply truthy_iff in Hp. congruence. }
  destruct (Validation.not_json_object (_safe_b64_decode_json h)) eqn:Nh.
  { split; [discriminate |].
    intros (? & ? & ? & hd & ? & [= <- <- <-] & _ & _ & Hd & Hne & _).
    assert (Validation.not_json_object (_safe_b64_decode_json h) = false)
      by (apply not_json_object_false; eauto).
    congruence. }
  destruct (Validation.not_json_object (_safe_b64_decode_json p)) eqn:Np.
  { split; [discriminate |].
    intros (? & ? & ? & ? & pl & [= <- <- <-] & _ & _ & _ & _ & Hd & Hne).
    assert (Validation.not_json_object (_safe_b64_decode_json p) = false)
      by (apply not_json_object_false; eauto).
    congruence. }
  apply not_json_object_false in Nh as (hkv & Hh & Hhne).
  apply not_json_object_false in Np as (pkv & Hp & Hpne).
  split.
  - intros _. exists h, p, s, hkv, pkv.
    split_and!; auto; apply truthy_iff; assumption.
  - intros _. cbv zeta. repeat case_match; reflexivity.
Qed.

End VerdictFacts.

(** ** The validation task *)

Lemma bump_lookup (lab : vlabel) (summary : gmap string Z) (v l i t : Z) :
  summary !! "valid" = Some v → summary !! "likely" = Some l →
  summary !! "invalid" = Some i → summary !! "total" = Some t →
  let summary' := Tasks.bump (label_str lab) summary in
  summary' !! "valid" = Some (v + match lab with Valid => 1 | _ => 0 end)%Z
  ∧ summary' !! "likely" = Some (l + match lab with Likely => 1 | _ => 0 end)%Z
  ∧ summary' !! "invalid" = Some (i + match lab with Invalid => 1 | _ => 0 end)%Z
  ∧ summary' !! "total" = Some t.
Proof.
  intros Hv Hl Hi Ht. unfold Tasks.bump.
  destruct lab; simpl; rewrite ?Hv, ?Hl, ?Hi;
    rewrite ?lookup_insert_eq, ?lookup_insert_ne by discriminate;
    rewrite ?Z.add_0_r; auto.
Qed.

(** the number of results with a given label *)
Local Abbreviation count_label p results :=
  (Z.of_nat (length (List.filter (fun r : vresult => p (label r)) results))).

Lemma summary_fold (results : list vresult) (summary : gmap string Z) (v l i t : Z) :
  summary !! "valid" = Some v → summary !! "likely" = Some l →
  summary !! "invalid" = Some i → summary !! "total" = Some t →
  let summary' :=
    foldl (fun summary res => Tasks.bump (label_str (label res)) summary) summary results in
  summary' !! "valid"
    = Some (v + count_label (fun x => match x with Valid => true | _ => false end) results)%Z
  ∧ summary' !! "likely"
    = Some (l + count_label (fun x => match x with Likely => true | _ => false end) results)%Z
  ∧ summary' !! "invalid"
    = Some (i + count_label (fun x => match x with Invalid => true | _ => false end) results)%Z
  ∧ summary' !! "total" = Some t.
Proof.
  revert summary v l i. induction results as [| r results IH]; intros summary v l i Hv Hl Hi Ht.
  - simpl. rewrite !Z.add_0_r. auto.
  - destruct (bump_lookup (label r) summary v l i t Hv Hl Hi Ht) as (Bv & Bl & Bi & Bt).
    destruct (IH _ _ _ _ Bv Bl Bi Bt) as (Fv & Fl & Fi & Ft).
    cbn [foldl]. cbv zeta in *. rewrite Fv, Fl, Fi, Ft.
    simpl List.filter. destruct (label r); cbn [length];
      split_and!; try reflexivity; f_equal; lia.
Qed.

Section ValidationTaskFacts.

Variable b64decode : string → option string.
Variable json_loads : string → option json.
Variable log : Q → Q → Q.
Variable round : Q → Z → Q.
Variable DNS_AVAILABLE : bool.
Variable resolve : string → string → Validation.exn + bool.

Local Abbreviation validation :=
  (Tasks.validation b64decode json_loads log round DNS_AVAILABLE resolve).
Local Abbreviation leak_verdict :=
  (Validation.leak_verdict b64decode json_loads log round DNS_AVAILABLE resolve).
Local Abbreviation validation_stage :=
  (Validation.validation_stage b64decode json_loads log round DNS_AVAILABLE resolve).

(** The task raises exactly when some leak has [None] for rule id or
    for category. *)
Lemma validation_returns_iff (leaks : list finding) :
  is_Some (validation leaks)
  ↔ Forall (fun leak => is_Some (rule_id leak) ∧ is_Some (category leak)) leaks.
Proof.
  unfold Tasks.validation.
  set (body := fun leak => res ← leak_verdict leak; Some (set_validation (result_doc res) leak, res)).
  assert (Hbody : ∀ leak, is_Some (body leak)
                          ↔ is_Some (rule_id leak) ∧ is_Some (category leak)).
  { intros leak. unfold body, Validation.leak_verdict. cbv zeta.
    destruct (rule_id leak), (category leak); simpl; split;
      try (intros [? [=]]); try (intros [[? [=]] [? [=]]]); try (intros [[? [=]] _]);
      try (intros [_ [? [=]]]); eauto. }
  split.
  - intros [out Hout]. destruct (mapM body leaks) as [done |] eqn:Hm; [| discriminate].
    apply mapM_Some in Hm. apply Forall_forall. intros leak Hin.
    apply Hbody. eapply list_elem_of_lookup in Hin as [i Hi].
    destruct (Forall2_lookup_l _ _ _ _ _ Hm Hi) as (y & _ & Hy). eauto.
  - intros Hall.
    assert (Hs : is_Some (mapM body leaks)).
    { apply mapM_is_Some. eapply Forall_impl; [exact Hall |]. intros leak H. now apply Hbody. }
    destruct Hs as [done ->]. simpl. eauto.
Qed.

(** X16. When the validation task completes, its stored summary
    accounts for every leak: the [valid], [likely] and [invalid] counts
    are the numbers of leaks the analyzer gave that label, and they
    add up to [total], the number of leaks; every leak is written back
    with the analyzer's dict as its [validation] field. *)
Theorem validation_summary_partition (leaks out : list finding) (summary : gmap string Z) :
  validation leaks = Some (out, summary) →
  ∃ results,
    mapM leak_verdict leaks = Some results
    ∧ out = zip_with (fun leak res => set_validation (result_doc res) leak) leaks results
    ∧ validation_stage leaks = Some out
    ∧ summary !! "valid"
      = Some (Z.of_nat (length (List.filter
                (fun r => match label r with Valid => true | _ => false end) results)))
    ∧ summary !! "likely"
      = Some (Z.of_nat (length (List.filter
                (fun r => match label r with Likely => true | _ => false end) results)))
    ∧ summary !! "invalid"
      = Some (Z.of_nat (length (List.filter
                (fun r => match label r with Invalid => true | _ => false end) results)))
    ∧ summary !! "total" = Some (Z.of_nat (length leaks))
    ∧ ∃ v l i : Z,
        summary !! "valid" = Some v ∧ summary !! "likely" = Some l
        ∧ summary !! "invalid" = Some i ∧ (v + l + i = Z.of_nat (length leaks))%Z.
Proof.
  unfold Tasks.validation. intros H.
  destruct (mapM _ leaks) as [done |] eqn:Hm; [| discriminate].
  simpl in H. injection H as <- <-.
  apply mapM_Some in Hm.
  assert (Hres : Forall2 (fun leak res => leak_verdict leak = Some res) leaks (done.*2)
                 ∧ done.*1 = zip_with (fun leak res => set_validation (result_doc res) leak)
                               leaks (done.*2)
                 ∧ Forall2 (fun leak g => Validation.validate_leak b64decode json_loads log
                                            round DNS_AVAILABLE resolve leak = Some g)
                     leaks (done.*1)).
  { induction Hm as [| leak [g res] leaks done Hb _ IH].
    - repeat split; constructor.
    - destruct IH as (IH1 & IH2 & IH3).
      destruct (leak_verdict leak) as [res' |] eqn:Hv; [| discriminate].
      simpl in Hb. injection Hb as <- <-.
      repeat split.
      + constructor; assumption.
      + simpl. f_equal. exact IH2.
      + constructor; [| exact IH3]. unfold Validation.validate_leak. rewrite Hv. reflexivity. }
  destruct Hres as (Hres & Hout & Hstage).
  set (results := done.*2) in *.
  assert (Hlen : length results = length leaks)
    by (symmetry; exact (Forall2_length _ _ _ Hres)).
  exists results.
  split; [apply mapM_Some; exact Hres |]. split; [exact Hout |].
  split; [apply mapM_Some; exact Hstage |].
  unfold Tasks.leak_validation_summary.
  destruct (summary_fold results (Tasks.empty_summary (length results)) 0 0 0
              (Z.of_nat (length results)))
    as (Fv & Fl & Fi & Ft); try reflexivity.
  cbv zeta in *. rewrite Fv, Fl, Fi, Ft, Hlen, !Z.add_0_l.
  split; [reflexivity |]. split; [reflexivity |]. split; [reflexivity |].
  split; [reflexivity |].
  eexists _, _, _. split; [reflexivity |]. split; [reflexivity |]. split; [reflexivity |].
  rewrite <- Hlen. clear. induction results as [| r results IH]; [reflexivity |].
  simpl List.filter. destruct (label r); cbn [length]; lia.
Qed.

End ValidationTaskFacts.

Lemma validation_summary_partition_witness :
  let short :=
    {| rule_id := Some "api_key"; category := Some "generic"; secret_match := Some "abc";
       secret := None; excerpt := None; url := None; source_file := Some "inline";
       reuse_count := None; validation := None; osint := None; risk := None |} in
  ∃ out summary,
    Tasks.validation Ref.b64decode Ref.json_loads Ref.log Ref.round true Ref.resolve_mx
      [Sample.jwt_leak; short] = Some (out, summary)
    ∧ summary !! "valid" = Some 1%Z ∧ summary !! "likely" = Some 0%Z
    ∧ summary !! "invalid" = Some 1%Z ∧ summary !! "total" = Some 2%Z.
Proof.
  intros short.
  destruct (Tasks.validation Ref.b64decode Ref.json_loads Ref.log Ref.round true
              Ref.resolve_mx [Sample.jwt_leak; short]) as [[out summary] |] eqn:H;
    [| vm_compute in H; discriminate].
  exists out, summary. split; [reflexivity |].
  destruct (validation_summary_partition Ref.b64decode Ref.json_loads Ref.log Ref.round true
              Ref.resolve_mx _ _ _ H)
    as (results & Hr & _ & _ & Hv & Hl & Hi & Ht & _).
  assert (Hres : results
                 = [Validation.analyze Ref.b64decode Ref.json_loads Ref.log Ref.round true
                      Ref.resolve_mx Sample.jwt "jwt";
                    Validation.analyze Ref.b64decode Ref.json_loads Ref.log Ref.round true
                      Ref.resolve_mx "abc" "api_key"]).
  { assert (Hr' : mapM (Validation.leak_verdict Ref.b64decode Ref.json_loads Ref.log Ref.round
                          true Ref.resolve_mx) [Sample.jwt_leak; short]
                  = Some [Validation.analyze Ref.b64decode Ref.json_loads Ref.log Ref.round true
                            Ref.resolve_mx Sample.jwt "jwt";
                          Validation.analyze Ref.b64decode Ref.json_loads Ref.log Ref.round true
                            Ref.resolve_mx "abc" "api_key"]) by reflexivity.
    congruence. }
  subst results. rewrite Hv, Hl, Hi, Ht. vm_compute. auto.
Defined.

(** ** The leak detection task *)

(** X17. The severity counts of the task log account for every leak:
    a leak counts as high or medium when its severity reads so in any
    letter case, and as low otherwise, also when the severity is empty
    or is a word such as [critical]. *)
Theorem severity_counts_partition (all_leaks : list Leaks.leak) :
  let counts := Tasks.severity_counts all_leaks in
  let sev (l : Leaks.leak) := Py.lower (Leaks.l_severity l) in
  (Tasks.sev_high counts + Tasks.sev_medium counts + Tasks.sev_low counts)%nat
  = length all_leaks
  ∧ Tasks.sev_high counts = length (List.filter (fun l => String.eqb (sev l) "high") all_leaks)
  ∧ Tasks.sev_medium counts
    = length (List.filter (fun l => String.eqb (sev l) "medium") all_leaks).
Proof.
  cbv zeta. unfold Tasks.severity_counts.
  assert (H : ∀ (ls : list Leaks.leak) (c : Tasks.sev_counts),
             let c' := foldl Tasks.count_severity c ls in
             (Tasks.sev_high c' + Tasks.sev_medium c' + Tasks.sev_low c'
              = Tasks.sev_high c + Tasks.sev_medium c + Tasks.sev_low c + length ls)%nat
             ∧ Tasks.sev_high c'
               = (Tasks.sev_high c
                  + length (List.filter
                      (fun l => String.eqb (Py.lower (Leaks.l_severity l)) "high") ls))%nat
             ∧ Tasks.sev_medium c'
               = (Tasks.sev_medium c
                  + length (List.filter
                      (fun l => String.eqb (Py.lower (Leaks.l_severity l)) "medium") ls))%nat).
  { induction ls as [| l ls IH]; intros c; cbv zeta.
    - simpl. lia.
    - cbn [foldl]. destruct (IH (Tasks.count_severity c l)) as (I1 & I2 & I3).
      rewrite I1, I2, I3. clear I1 I2 I3 IH.
      unfold Tasks.count_severity. simpl List.filter.
      destruct (Py.truthy (Leaks.l_severity l)) eqn:Et.
      + destruct (String.eqb (Py.lower (Leaks.l_severity l)) "high") eqn:E1.
        * apply String.eqb_eq in E1. rewrite E1. simpl. lia.
        * destruct (String.eqb (Py.lower (Leaks.l_severity l)) "medium") eqn:E2; simpl; lia.
      + assert (Leaks.l_severity l = "") as ->.
        { destruct (Leaks.l_severity l); [reflexivity | discriminate]. }
        simpl. lia. }
  destruct (H all_leaks {| Tasks.sev_high := 0; Tasks.sev_medium := 0; Tasks.sev_low := 0 |})
    as (H1 & H2 & H3).
  cbv zeta in *. simpl in H1, H2, H3. auto.
Qed.

(** ** What the traversal visits *)

Section ReachFacts.

Variable urljoin : string → string → string.
Variable DEEP_JS_PATTERNS : list (string → list string).
Variable list_of_set : gset string → list string.
Variable safe_get : string → option string.

(** [list(found)] lists elements of [found] only. *)
Hypothesis list_of_set_sound : ∀ (X : gset string) (x : string), x ∈ list_of_set X → x ∈ X.

Variable start_url : string.
Variable max_js : nat.

Local Abbreviation normalize_url := (Crawler.normalize_url urljoin).
Local Abbreviation extract_nested_js :=
  (Crawler.extract_nested_js urljoin DEEP_JS_PATTERNS list_of_set).
Local Abbreviation step :=
  (Crawler.step urljoin DEEP_JS_PATTERNS list_of_set safe_get start_url).
Local Abbreviation bfs :=
  (fun fuel => Crawler.bfs urljoin DEEP_JS_PATTERNS list_of_set safe_get fuel start_url max_js).
Local Abbreviation fetched := (Crawler.fetched safe_get).
Local Abbreviation references :=
  (Crawler.references urljoin DEEP_JS_PATTERNS list_of_set safe_get).
Local Abbreviation reachable :=
  (Crawler.reachable urljoin DEEP_JS_PATTERNS list_of_set safe_get start_url).
Local Abbreviation crawl_inv :=
  (Statements.crawl_inv urljoin DEEP_JS_PATTERNS list_of_set safe_get start_url max_js).

(** Everything visited is reachable, and everything queued is a seed
    or a reference of a reachable script. *)
Local Abbreviation grounded seeds st :=
  ((∀ v, v ∈ Crawler.visited st → reachable seeds%list v)
   ∧ (∀ q, q ∈ Crawler.queue st →
        q ∈ seeds%list ∨ ∃ u, reachable seeds%list u ∧ q ∈ references u)).

Lemma enqueued_is_reference (v content x : string) (vis : gset string) (tl : list string) :
  fetched v = Some content →
  x ∈ Crawler.enqueue_nested urljoin v vis tl (extract_nested_js content v) →
  x ∈ tl ∨ x ∈ references v.
Proof.
  intros Hf Hx.
  apply (enqueue_nested_spec urljoin safe_get) in Hx as [Hx | (_ & Ht & n0 & Hn0 & Hn)];
    [left; exact Hx | right].
  unfold Crawler.references. rewrite Hf. apply list_elem_of_omap.
  exists n0. split; [exact Hn0 |]. rewrite Hn, Ht. reflexivity.
Qed.

Lemma grounded_step (seeds : list string) (st : Crawler.state) :
  grounded seeds st → Crawler.running max_js st = true → grounded seeds (step st).
Proof.
  intros [Hvis Hq] Hrun. apply running_spec in Hrun as [Hne _].
  assert (Hhead : ∀ q tl v, Crawler.queue st = q :: tl →
                    normalize_url start_url q = Some v → Py.truthy v = true →
                    reachable seeds v).
  { intros q tl v Eq Hn Ht.
    destruct (Hq q) as [Hs | (u & Hu & Hr)]; [rewrite Eq; apply elem_of_cons; now left | |].
    - eapply Crawler.reach_seed; eauto.
    - eapply Crawler.reach_ref; eauto. }
  assert (Htl : ∀ q tl x, Crawler.queue st = q :: tl → x ∈ tl →
                  x ∈ seeds ∨ ∃ u, reachable seeds u ∧ x ∈ references u).
  { intros q tl x Eq Hx. apply Hq. rewrite Eq. apply elem_of_cons. now right. }
  destruct (step_outcome urljoin DEEP_JS_PATTERNS list_of_set safe_get start_url st Hne)
    as [q tl Eq Hskip -> | q tl v Eq Hn Ht Hnv Hf -> | q tl v content Eq Hn Ht Hnv Hf ->];
    cbn [Crawler.visited Crawler.queue].
  - split; [exact Hvis | eauto].
  - split; [| eauto].
    intros x Hx. apply elem_of_union in Hx as [Hx | Hx]; [| auto].
    apply elem_of_singleton in Hx as ->. eauto.
  - assert (Hv : reachable seeds v) by eauto.
    split.
    + intros x Hx. apply elem_of_union in Hx as [Hx | Hx]; [| auto].
      apply elem_of_singleton in Hx as ->. exact Hv.
    + intros x Hx. apply (enqueued_is_reference v content) in Hx as [Hx | Hx]; eauto.
Qed.

(** X18. From any seeds the traversal ends.  It has then visited at
    most [max_js] URLs, every one of them reachable from the seeds
    through script references; if it ended below the cap, it has
    visited every reachable URL.  The external assets recorded are
    the visited URLs whose request gave a usable body, each once. *)
Theorem crawl_visits_reachable (seeds inline : list string) :
  ∃ fuel st,
    bfs fuel (Crawler.initial seeds inline) = Some st
    ∧ (size (Crawler.visited st) ≤ max_js)%nat
    ∧ (∀ u, u ∈ Crawler.visited st → reachable seeds u)
    ∧ ((size (Crawler.visited st) < max_js)%nat →
       ∀ u, reachable seeds u → u ∈ Crawler.visited st)
    ∧ NoDup (Crawler.externals st)
    ∧ (∀ u, u ∈ Crawler.externals st ↔ u ∈ Crawler.visited st ∧ is_Some (fetched u)).
Proof.
  destruct (bfs_ends urljoin DEEP_JS_PATTERNS list_of_set safe_get list_of_set_sound
              start_url max_js
              (fun st => crawl_inv seeds st ∧ grounded seeds st))
    with (st := Crawler.initial seeds inline)
    as (fuel & st & Hrun & [Hinv Hgr] & Hstop).
  - intros st [Hinv Hgr] Hrun. split.
    + apply crawl_inv_step; assumption.
    + apply grounded_step; assumption.
  - split; [apply crawl_inv_initial |]. split.
    + intros v Hv. simpl in Hv. now apply not_elem_of_empty in Hv.
    + intros q Hq. left. exact Hq.
  - exists fuel, st. split; [exact Hrun |].
    pose proof Hinv as (Hsize & _ & _ & Hnd & Hext).
    split; [exact Hsize |]. split; [exact (proj1 Hgr) |].
    split; [| split; [exact Hnd | exact Hext]].
    intros Hlt u Hu.
    assert (Hq : Crawler.queue st = []).
    { destruct (Crawler.queue st) as [| q tl] eqn:Eq; [reflexivity |].
      assert (Crawler.running max_js st = true); [| congruence].
      apply running_spec. rewrite Eq. split; [discriminate | exact Hlt]. }
    eapply crawl_inv_closed; eauto.
Qed.

End ReachFacts.

Lemma crawl_visits_reachable_witness :
  ∃ fuel st,
    Crawler.bfs Ref.urljoin [Sample.findall_import] elements Sample.safe_get_all fuel
      Sample.site 5 (Crawler.initial [Sample.a_js; Sample.b_js] []) = Some st
    ∧ (size (Crawler.visited st) ≤ 5)%nat
    ∧ (∀ u, u ∈ Crawler.visited st →
         Crawler.reachable Ref.urljoin [Sample.findall_import] elements Sample.safe_get_all
           Sample.site [Sample.a_js; Sample.b_js] u)
    ∧ ((size (Crawler.visited st) < 5)%nat →
       ∀ u, Crawler.reachable Ref.urljoin [Sample.findall_import] elements Sample.safe_get_all
              Sample.site [Sample.a_js; Sample.b_js] u → u ∈ Crawler.visited st)
    ∧ NoDup (Crawler.externals st)
    ∧ (∀ u, u ∈ Crawler.externals st ↔
            u ∈ Crawler.visited st ∧ is_Some (Crawler.fetched Sample.safe_get_all u)).
Proof.
  exact (crawl_visits_reachable Ref.urljoin [Sample.findall_import] elements
           Sample.safe_get_all elements_sound Sample.site 5 [Sample.a_js; Sample.b_js] []).
Defined.

(** ** What the detector reports *)

Lemma false_positive_false (match_ snippet : string) (rule_id : option string)
    (category : string) :
  Leaks._is_false_positive match_ snippet rule_id category = false →
  Py.truthy match_ = true
  ∧ (8 ≤ Py.len (Py.strip match_))%Z
  ∧ Leaks.is_placeholder match_ = false.
Proof.
  unfold Leaks._is_false_positive. cbv zeta.
  destruct (Py.truthy match_); [| discriminate]. cbn [negb].
  repeat match goal with
         | |- (if ?b then true else _) = false → _ => destruct b eqn:?; [discriminate |]
         end.
  intros Hp. split; [reflexivity |]. split; [| exact Hp].
  match goal with H : (_ <? 8)%Z = false |- _ => apply Z.ltb_ge in H; exact H end.
Qed.

Lemma dedupe_elem (seen : list (option string * string * string)) (leaks : list Leaks.leak)
    (l : Leaks.leak) :
  l ∈ Leaks.dedupe seen leaks → l ∈ leaks.
Proof.
  revert seen. induction leaks as [| x leaks IH]; intros seen; simpl; [auto |].
  case_bool_decide.
  - intros H'. apply elem_of_cons. right. eapply IH, H'.
  - rewrite !elem_of_cons. intros [-> | H']; [now left | right; eapply IH, H'].
Qed.

Lemma rule_leaks_elem (content source : string) (r : Leaks.rule) (l : Leaks.leak) :
  l ∈ Leaks.rule_leaks content source r →
  Leaks.r_enabled r = true
  ∧ ∃ finditer m,
      Leaks.r_regex r = Some finditer ∧ m ∈ finditer content
      ∧ Leaks._is_false_positive (Leaks.matched_value m)
          (Leaks._snippet_from_pos content (Leaks.m_start m) (Leaks.m_end m) 80)
          (Leaks.r_rule_id r) (Leaks.r_category r) = false
      ∧ l = {| Leaks.l_rule_id := Leaks.r_rule_id r; Leaks.l_rule_name := Leaks.r_label r;
               Leaks.l_severity := Leaks.r_severity r; Leaks.l_category := Leaks.r_category r;
               Leaks.l_rule_source := Leaks.r_source r;
               Leaks.l_snippet :=
                 Leaks._snippet_from_pos content (Leaks.m_start m) (Leaks.m_end m) 80;
               Leaks.l_match := Leaks.matched_value m; Leaks.l_source := source;
               Leaks.l_detector := "regex" |}.
Proof.
  unfold Leaks.rule_leaks.
  destruct (Leaks.r_enabled r); cbn [negb]; [| intros H; now apply elem_of_nil in H].
  destruct (Leaks.r_regex r) as [finditer |]; [| intros H; now apply elem_of_nil in H].
  intros H. apply list_elem_of_omap in H as (m & Hm & Hl).
  split; [reflexivity |]. exists finditer, m. split; [reflexivity |]. split; [exact Hm |].
  cbv zeta in Hl.
  destruct (Leaks._is_false_positive _ _ _ _); [discriminate |].
  split; [reflexivity |]. now injection Hl as <-.
Qed.

Lemma literal_leak_elem (source lit : string) (l : Leaks.leak) :
  Leaks.literal_leak source lit = Some l →
  (12 ≤ Py.len lit)%Z ∧ Leaks.secret_keyword lit = true
  ∧ Leaks._is_false_positive lit lit (Some "ast_literal") "ast" = false
  ∧ l = {| Leaks.l_rule_id := Some "ast_literal"; Leaks.l_rule_name := "AST Suspicious Literal";
           Leaks.l_severity := "low"; Leaks.l_category := "ast"; Leaks.l_rule_source := "ast";
           Leaks.l_snippet := String.substring 0 400 lit; Leaks.l_match := lit;
           Leaks.l_source := source; Leaks.l_detector := "ast" |}.
Proof.
  unfold Leaks.literal_leak.
  destruct (Z.ltb_spec (Py.len lit) 12); [discriminate |].
  destruct (Leaks.secret_keyword lit); [| discriminate].
  destruct (Leaks._is_false_positive _ _ _ _); [discriminate |].
  intros [= <-]. auto.
Qed.

Section ReportFacts.

Variable parseScript : string → option Leaks.node.
Variable _CACHE_TTL : Q.
Variable fallback_rules : list Leaks.rule.

Local Abbreviation detect_leaks := (Leaks.detect_leaks parseScript _CACHE_TTL fallback_rules).
Local Abbreviation load_patterns_from_db :=
  (Leaks.load_patterns_from_db _CACHE_TTL fallback_rules).
Local Abbreviation reload := (Leaks.reload fallback_rules).

Lemma detect_leaks_elem (content source : string) (patterns : option (list Leaks.rule))
    (w : Leaks.world) (c : Leaks.cache) (l : Leaks.leak) :
  l ∈ (detect_leaks content source patterns w c).1 →
  let ps := match patterns with
            | Some ps => ps
            | None => (load_patterns_from_db false w c).1
            end in
  (∃ r, r ∈ ps ∧ l ∈ Leaks.rule_leaks content source r)
  ∨ (∃ lit, lit ∈ Leaks._detect_literals_ast parseScript content
            ∧ Leaks.literal_leak source lit = Some l).
Proof.
  unfold Leaks.detect_leaks. intros H. cbv zeta.
  assert (Hc : l ∈ (flat_map (Leaks.rule_leaks content source)
                      match patterns with
                      | Some ps => ps
                      | None => (load_patterns_from_db false w c).1
                      end
                    ++ omap (Leaks.literal_leak source)
                         (Leaks._detect_literals_ast parseScript content))%list).
  { destruct patterns as [ps |]; [| destruct (load_patterns_from_db false w c)];
      cbn [fst] in *; eapply dedupe_elem, H. }
  apply elem_of_app in Hc as [Hc | Hc].
  - left. apply list_elem_of_In, in_flat_map in Hc as (r & Hr & Hl).
    exists r. rewrite !list_elem_of_In. auto.
  - right. apply list_elem_of_omap in Hc. exact Hc.
Qed.

(** X19. Every finding the detector reports carries the source it was
    called with and a match that passed the filter: not empty, at
    least 8 characters once stripped, and none of the placeholder
    values.  A finding of the AST pass is a literal of at least 12
    characters that contains one of the secret keywords, reported with
    severity [low]. *)
Theorem reported_leaks_filtered (content source : string) (patterns : option (list Leaks.rule))
    (w : Leaks.world) (c : Leaks.cache) :
  Forall (fun l =>
            Leaks.l_source l = source
            ∧ Leaks.l_match l ≠ ""
            ∧ (8 ≤ Py.len (Py.strip (Leaks.l_match l)))%Z
            ∧ Leaks.is_placeholder (Leaks.l_match l) = false
            ∧ (Leaks.l_detector l = "ast" →
               (12 ≤ Py.len (Leaks.l_match l))%Z
               ∧ Leaks.secret_keyword (Leaks.l_match l) = true
               ∧ Leaks.l_severity l = "low"))
         (detect_leaks content source patterns w c).1.
Proof.
  apply Forall_forall. intros l Hl.
  apply detect_leaks_elem in Hl as [(r & _ & Hl) | (lit & _ & Hl)].
  - apply rule_leaks_elem in Hl as (_ & finditer & m & _ & _ & Hfp & ->).
    apply false_positive_false in Hfp as (Ht & Hlen & Hp). cbn.
    split; [reflexivity |]. split; [now apply truthy_iff |].
    split; [exact Hlen |]. split; [exact Hp | discriminate].
  - apply literal_leak_elem in Hl as (Hlen12 & Hk & Hfp & ->).
    apply false_positive_false in Hfp as (Ht & Hlen & Hp). cbn.
    split; [reflexivity |]. split; [now apply truthy_iff |].
    split; [exact Hlen |]. split; [exact Hp | auto].
Qed.

(** X20. A finding of the regex pass comes from an enabled rule of the
    rule set given, and from a match of that rule's pattern in the
    content: it carries the rule's id, severity and category, the
    first non-empty group of the match (the whole match if there is
    none) and the excerpt around the match.  A disabled rule, or a
    rule without a pattern, reports nothing. *)
Theorem regex_leaks_from_enabled_rules (content source : string) (patterns : list Leaks.rule)
    (w : Leaks.world) (c : Leaks.cache) :
  Forall (fun l =>
            Leaks.l_detector l = "ast"
            ∨ ∃ r finditer m,
                r ∈ patterns ∧ Leaks.r_enabled r = true
                ∧ Leaks.r_regex r = Some finditer ∧ m ∈ finditer content
                ∧ Leaks.l_detector l = "regex"
                ∧ Leaks.l_rule_id l = Leaks.r_rule_id r
                ∧ Leaks.l_severity l = Leaks.r_severity r
                ∧ Leaks.l_category l = Leaks.r_category r
                ∧ Leaks.l_match l = Leaks.matched_value m
                ∧ Leaks.l_snippet l
                  = Leaks._snippet_from_pos content (Leaks.m_start m) (Leaks.m_end m) 80)
         (detect_leaks content source (Some patterns) w c).1.
Proof.
  apply Forall_forall. intros l Hl.
  apply detect_leaks_elem in Hl as [(r & Hr & Hl) | (lit & _ & Hl)].
  - right. apply rule_leaks_elem in Hl as (He & finditer & m & Hre & Hm & _ & ->).
    exists r, finditer, m. cbn. split_and!; auto.
  - left. apply literal_leak_elem in Hl as (_ & _ & _ & ->). reflexivity.
Qed.

(** ** The pattern cache *)

(** X21. Once a call has loaded a non-empty rule set, a later call
    without [force_reload] made less than [_CACHE_TTL] after the load
    returns that same rule set and leaves the cache as it is, whatever
    the pattern store holds by then. *)
Theorem cache_hit_within_ttl (force_reload : bool) (w w' : Leaks.world) (c c' : Leaks.cache)
    (rules : list Leaks.rule) :
  load_patterns_from_db force_reload w c = (rules, c') →
  rules ≠ [] →
  (Leaks.now w' - Leaks._cache_loaded_at c' < _CACHE_TTL)%Q →
  load_patterns_from_db false w' c' = (rules, c').
Proof.
  intros Hload Hne Hfresh.
  assert (Hc : Leaks._cached_compiled c' = Some rules).
  { unfold Leaks.load_patterns_from_db, Leaks.reload in Hload.
    destruct (Leaks._cached_compiled c) as [[| r0 cached] |] eqn:Ec;
      try (injection Hload as <- <-; reflexivity).
    destruct (_ && _); injection Hload as <- <-; [exact Ec | reflexivity]. }
  unfold Leaks.load_patterns_from_db. rewrite Hc.
  destruct rules as [| r0 rules]; [congruence |].
  assert (Hq : Qle_bool _CACHE_TTL (Leaks.now w' - Leaks._cache_loaded_at c') = false).
  { destruct (Qle_bool _ _) eqn:E; [| reflexivity].
    apply Qle_bool_iff in E. exfalso. exact (Qlt_not_le _ _ Hfresh E). }
  rewrite Hq. reflexivity.
Qed.

(** X22. A forced reload returns the rules of the store, in their
    order, followed by fallback rules; a fallback rule is left out
    only when the store has a rule with its id, so every fallback id
    is covered by the returned set. *)
Theorem reload_keeps_store_and_fallback_ids (w : Leaks.world) (c : Leaks.cache) :
  let rules := (load_patterns_from_db true w c).1 in
  (∃ added, rules = (Leaks.store_rules w ++ added)%list ∧ sublist added fallback_rules
            ∧ ∀ f, f ∈ fallback_rules → f ∉ added →
                   ∃ r, r ∈ Leaks.store_rules w ∧ Leaks.r_rule_id r = Leaks.r_rule_id f)
  ∧ Forall (fun f => ∃ r, r ∈ rules ∧ Leaks.r_rule_id r = Leaks.r_rule_id f) fallback_rules.
Proof.
  assert (Hl : load_patterns_from_db true w c = reload w).
  { unfold Leaks.load_patterns_from_db. destruct (Leaks._cached_compiled c) as [[| ? ?] |];
      reflexivity. }
  cbv zeta. rewrite Hl. unfold Leaks.reload. cbn [fst].
  set (existing_ids := filter (fun i => Py.truthy i = true)
                         (omap Leaks.r_rule_id (Leaks.store_rules w))).
  set (added := filter _ fallback_rules).
  assert (Hstore : ∀ f, Leaks.r_rule_id f ∈ Some <$> existing_ids →
                   ∃ r, r ∈ Leaks.store_rules w ∧ Leaks.r_rule_id r = Leaks.r_rule_id f).
  { intros f Hin.
    apply list_elem_of_fmap in Hin as (i & Hi & Hin).
    subst existing_ids. apply list_elem_of_filter in Hin as [_ Hin].
    apply list_elem_of_omap in Hin as (r & Hr & Hid).
    exists r. split; [exact Hr | congruence]. }
  assert (Hadded : ∀ f, f ∈ fallback_rules →
                   Leaks.r_rule_id f ∉ Some <$> existing_ids → f ∈ added).
  { intros f Hf Hn. subst added. apply list_elem_of_filter. auto. }
  split.
  - exists added. split; [reflexivity |]. split; [apply sublist_filter |].
    intros f Hf Hna.
    destruct (decide (Leaks.r_rule_id f ∈ Some <$> existing_ids)) as [H | H]; [auto |].
    exfalso. auto.
  - apply Forall_forall. intros f Hf.
    destruct (decide (Leaks.r_rule_id f ∈ Some <$> existing_ids)) as [H | H].
    + destruct (Hstore f H) as (r & Hr & Hid).
      exists r. split; [apply elem_of_app; now left | exact Hid].
    + exists f. split; [apply elem_of_app; right; auto | reflexivity].
Qed.

End ReportFacts.
Lemma cache_hit_within_ttl_witness :
  Leaks.load_patterns_from_db 300 [Sample.fallback_bearer] false
    {| Leaks.now := 100; Leaks.store_rules := [] |}
    {| Leaks._cache_loaded_at := 0; Leaks._cached_compiled := Some [Sample.fallback_bearer] |}
  = ([Sample.fallback_bearer],
     {| Leaks._cache_loaded_at := 0; Leaks._cached_compiled := Some [Sample.fallback_bearer] |}).
Proof.
  apply (cache_hit_within_ttl 300 [Sample.fallback_bearer] true
           {| Leaks.now := 0; Leaks.store_rules := [] |}
           {| Leaks.now := 100; Leaks.store_rules := [] |}
           {| Leaks._cache_loaded_at := 0; Leaks._cached_compiled := None |}).
  - reflexivity.
  - discriminate.
  - vm_compute. reflexivity.
Defined.

(** ** The excerpt around a match *)

Lemma substring_length_le (n m : nat) (s : string) :
  (String.length (String.substring n m s) ≤ m)%nat.
Proof.
  revert n m. induction s as [| c s IH]; intros n m.
  - destruct n, m; simpl; lia.
  - destruct n as [| n].
    + destruct m as [| m]; simpl; [lia |]. specialize (IH 0%nat m). lia.
    + simpl. apply IH.
Qed.

Lemma substring_empty (n m : nat) : String.substring n m "" = "".
Proof. destruct n, m; reflexivity. Qed.

Lemma prefix_substring (m : nat) (s : string) :
  String.prefix (String.substring 0 m s) s = true.
Proof.
  revert m. induction s as [| c s IH]; intros m.
  - destruct m; reflexivity.
  - destruct m as [| m]; [reflexivity |]. simpl.
    destruct (ascii_dec c c); [apply IH | congruence].
Qed.

Lemma contains_substring (k m : nat) (s : string) :
  Py.contains (String.substring k m s) s = true.
Proof.
  revert k. induction s as [| c s IH]; intros k.
  - rewrite substring_empty. reflexivity.
  - destruct k as [| k].
    + cbn [Py.contains]. rewrite prefix_substring. reflexivity.
    + change (String.substring (S k) m (String c s)) with (String.substring k m s).
      cbn [Py.contains]. rewrite IH. apply orb_true_r.
Qed.

Lemma substring_substring (a b n m : nat) (s : string) :
  (a + b ≤ m)%nat →
  String.substring a b (String.substring n m s) = String.substring (n + a) b s.
Proof.
  revert a b n m. induction s as [| c s IH]; intros a b n m Hle.
  - rewrite !substring_empty. reflexivity.
  - destruct n as [| n].
    + cbn [Nat.add]. destruct m as [| m].
      * assert (a = 0%nat) as -> by lia. assert (b = 0%nat) as -> by lia. reflexivity.
      * change (String.substring 0 (S m) (String c s))
          with (String c (String.substring 0 m s)).
        destruct a as [| a].
        -- destruct b as [| b]; [reflexivity |].
           change (String c (String.substring 0 b (String.substring 0 m s))
                   = String c (String.substring 0 b s)).
           f_equal. apply (IH 0%nat b 0%nat m). lia.
        -- change (String.substring a b (String.substring 0 m s) = String.substring a b s).
           apply (IH a b 0%nat m). lia.
    + change (String.substring a b (String.substring n m s) = String.substring (n + a) b s).
      apply IH, Hle.
Qed.

(** X23. For a match at [start..end] inside the text, the excerpt
    contains the matched text, and at most [ctx] characters before
    and after it. *)
Theorem snippet_holds_match (text : string) (start end_ ctx : Z) :
  (0 ≤ start ≤ end_)%Z → (end_ ≤ Py.len text)%Z → (0 ≤ ctx)%Z →
  Py.contains (Leaks.slice text start end_) (Leaks._snippet_from_pos text start end_ ctx) = true
  ∧ (Py.len (Leaks._snippet_from_pos text start end_ ctx) ≤ end_ - start + 2 * ctx)%Z.
Proof.
  intros Hse Hlen Hctx. unfold Leaks._snippet_from_pos, Leaks.slice. cbv zeta.
  set (s := Z.max 0 (start - ctx)). set (e := Z.min (Py.len text) (end_ + ctx)).
  split.
  - replace (String.substring (Z.to_nat start) (Z.to_nat (end_ - start)) text)
      with (String.substring (Z.to_nat start - Z.to_nat s) (Z.to_nat (end_ - start))
              (String.substring (Z.to_nat s) (Z.to_nat (e - s)) text)).
    + apply contains_substring.
    + rewrite substring_substring by (subst s e; lia).
      f_equal. subst s. lia.
  - unfold Py.len at 1.
    pose proof (substring_length_le (Z.to_nat s) (Z.to_nat (e - s)) text).
    subst s e. lia.
Qed.

Lemma snippet_holds_match_witness :
  Py.contains (Leaks.slice "abcdefghij" 3 5) (Leaks._snippet_from_pos "abcdefghij" 3 5 2) = true
  ∧ (Py.len (Leaks._snippet_from_pos "abcdefghij" 3 5 2) ≤ 5 - 3 + 2 * 2)%Z.
Proof.
  apply snippet_holds_match; [lia | vm_compute; discriminate | lia].
Defined.

(** ** The stage tasks *)

Lemma max_of_upper (first : Z) (rest : list Z) :
  (first ≤ Tasks.max_of first rest)%Z ∧ ∀ x, x ∈ rest → (x ≤ Tasks.max_of first rest)%Z.
Proof.
  unfold Tasks.max_of. revert first.
  induction rest as [| y rest IH]; intros first; simpl.
  - split; [lia |]. intros x Hx. inversion Hx.
  - destruct (IH (Z.max first y)) as [H1 H2]. split; [lia |].
    intros x Hx. apply elem_of_cons in Hx as [-> | Hx]; [lia | auto].
Qed.

Lemma max_of_attained (first : Z) (rest : list Z) :
  Tasks.max_of first rest ∈ first :: rest.
Proof.
  unfold Tasks.max_of. revert first.
  induction rest as [| y rest IH]; intros first; simpl.
  - apply elem_of_cons; left; reflexivity.
  - specialize (IH (Z.max first y)).
    apply elem_of_cons in IH as [-> | IH].
    + destruct (Z.max_spec first y) as [[_ ->] | [_ ->]].
      * apply elem_of_cons; right; apply elem_of_cons; left; reflexivity.
      * apply elem_of_cons; left; reflexivity.
    + do 2 (apply elem_of_cons; right). exact IH.
Qed.

Lemma count_if_partition (scores : list Z) :
  (Tasks.count_if (fun s => (80 <=? s)%Z) scores
   + Tasks.count_if (fun s => (40 <=? s)%Z && (s <? 80)%Z) scores
   + Tasks.count_if (fun s => (s <? 40)%Z) scores)%nat
  = length scores.
Proof.
  unfold Tasks.count_if. induction scores as [| s scores IH]; [reflexivity |].
  simpl.
  destruct (80 <=? s)%Z eqn:E1, (40 <=? s)%Z eqn:E2, (s <? 80)%Z eqn:E3, (s <? 40)%Z eqn:E4;
    simpl; try lia.
Qed.

Lemma count_if_pos (p : Z → bool) (scores : list Z) :
  (0 < Tasks.count_if p scores)%nat ↔ ∃ s, s ∈ scores ∧ p s = true.
Proof.
  unfold Tasks.count_if. induction scores as [| s scores IH]; simpl.
  - split; [lia |]. intros (s & Hs & _). inversion Hs.
  - destruct (p s) eqn:E; simpl.
    + split; [| lia]. intros _. exists s. split; [apply elem_of_cons; left; reflexivity | exact E].
    + rewrite IH. split.
      * intros (x & Hx & Hp). exists x. split; [apply elem_of_cons; right; exact Hx | exact Hp].
      * intros (x & Hx & Hp). apply elem_of_cons in Hx as [-> | Hx]; [congruence |].
        exists x. auto.
Qed.

Section RiskTaskFacts.

Variable model_predict : list Q → string.
Variable model_predict_proba : list Q → list Q.
Variable model_classes : list string.
Variable model_top_features : list (string * Q).

Local Abbreviation assess_risk :=
  (Risk.assess_risk model_predict model_predict_proba model_classes model_top_features).
Local Abbreviation enrich :=
  (Tasks.enrich model_predict model_predict_proba model_classes model_top_features).
Local Abbreviation risk_ml :=
  (Tasks.risk_ml model_predict model_predict_proba model_classes model_top_features).

Lemma enrich_length (findings : list finding) : length (enrich findings) = length findings.
Proof.
  unfold Tasks.enrich. destruct (assess_risk findings) as [enriched |] eqn:E.
  - symmetry. exact (length_mapM _ _ _ E).
  - apply length_map.
Qed.

(** X24. The three risk counts of the stored summary partition the
    findings: they add up to [total_leaks], which is the number of
    findings of the task, whether the engine ran or raised. *)
Theorem risk_counts_partition (findings : list finding) :
  let s := (risk_ml findings).2 in
  (Tasks.high_risk_count s + Tasks.medium_risk_count s + Tasks.low_risk_count s)%nat
  = Tasks.rs_total_leaks s
  ∧ Tasks.rs_total_leaks s = length findings
  ∧ length (risk_ml findings).1 = length findings.
Proof.
  destruct findings as [| f findings]; [simpl; auto |].
  unfold Tasks.risk_ml. cbv zeta. cbn [fst snd].
  unfold Tasks.summarize. cbv zeta. cbn [Tasks.high_risk_count Tasks.medium_risk_count
    Tasks.low_risk_count Tasks.rs_total_leaks].
  rewrite count_if_partition. unfold Tasks.scores_of. rewrite length_map.
  rewrite enrich_length. auto.
Qed.

(** X25. The task-level score is the highest score among the
    findings written back: no finding exceeds it and one attains it.
    The task severity follows from it: High exactly when some finding
    is counted as high risk, Low exactly when all are counted low. *)
Theorem risk_score_is_max (f0 : finding) (rest : list finding) :
  let out := risk_ml (f0 :: rest) in
  let s := out.2 in
  (∀ f, f ∈ out.1 → (from_option score 0 (risk f) ≤ Tasks.rs_score s)%Z)
  ∧ (∃ f, f ∈ out.1 ∧ from_option score 0 (risk f) = Tasks.rs_score s)
  ∧ (Tasks.rs_severity s = "High" ↔ (0 < Tasks.high_risk_count s)%nat)
  ∧ (Tasks.rs_severity s = "Low" ↔ Tasks.low_risk_count s = Tasks.rs_total_leaks s).
Proof.
  intros out s.
  assert (Hlen : length out.1 = S (length rest)).
  { subst out. unfold Tasks.risk_ml. cbn [fst]. apply enrich_length. }
  subst s out. unfold Tasks.risk_ml in *. cbv zeta. cbn [fst snd] in *.
  set (enriched := enrich (f0 :: rest)) in *.
  destruct enriched as [| e0 erest] eqn:Ee; [discriminate |].
  unfold Tasks.summarize. cbv zeta.
  cbn [Tasks.rs_score Tasks.rs_severity Tasks.high_risk_count Tasks.low_risk_count
       Tasks.rs_total_leaks].
  set (scores := Tasks.scores_of (e0 :: erest)).
  assert (Hs : scores = from_option score 0 (risk e0) :: Tasks.scores_of erest) by reflexivity.
  rewrite Hs.
  set (s0 := from_option score 0 (risk e0)) in *.
  set (srest := Tasks.scores_of erest) in *.
  destruct (max_of_upper s0 srest) as [Hup0 Hup].
  pose proof (max_of_attained s0 srest) as Hat.
  set (m := Tasks.max_of s0 srest) in *.
  assert (Hall : ∀ x, x ∈ s0 :: srest → (x ≤ m)%Z).
  { intros x Hx. apply elem_of_cons in Hx as [-> | Hx]; auto. }
  assert (Hmem : ∀ x, x ∈ s0 :: srest ↔ ∃ f, f ∈ e0 :: erest ∧ from_option score 0 (risk f) = x).
  { intros x. change (s0 :: srest) with (Tasks.scores_of (e0 :: erest)).
    unfold Tasks.scores_of. rewrite <- list_fmap_map (* map = fmap *) || idtac.
    rewrite list_elem_of_fmap. split; intros (f & H1 & H2); exists f; split; auto. }
  split; [| split; [| split]].
  - intros f Hf. apply Hall, Hmem. exists f. auto.
  - apply Hmem in Hat. exact Hat.
  - rewrite count_if_pos. split.
    + intros Hsev. exists m. split; [exact Hat |].
      destruct (80 <=? m)%Z; [reflexivity |]. destruct (40 <=? m)%Z; discriminate.
    + intros (x & Hx & Hp). apply Hall in Hx. apply Z.leb_le in Hp.
      destruct (80 <=? m)%Z eqn:E; [reflexivity |]. apply Z.leb_gt in E. lia.
  - pose proof (count_if_partition (s0 :: srest)) as Hpart.
    assert (Hlen' : length (s0 :: srest) = length (e0 :: erest)).
    { change (s0 :: srest) with (Tasks.scores_of (e0 :: erest)).
      unfold Tasks.scores_of. apply length_map. }
    rewrite Hlen' in Hpart. split.
    + intros Hsev.
      assert (Hm : (m < 40)%Z).
      { destruct (80 <=? m)%Z; [discriminate |].
        destruct (40 <=? m)%Z eqn:E; [discriminate |]. apply Z.leb_gt in E. exact E. }
      assert (H1 : ¬ (0 < Tasks.count_if (λ s, (80 <=? s)%Z) (s0 :: srest))%nat).
      { rewrite count_if_pos. intros (x & Hx & Hp). apply Hall in Hx.
        apply Z.leb_le in Hp. lia. }
      assert (H2 : ¬ (0 < Tasks.count_if (λ s, (40 <=? s)%Z && (s <? 80)%Z) (s0 :: srest))%nat).
      { rewrite count_if_pos. intros (x & Hx & Hp). apply Hall in Hx.
        apply andb_true_iff in Hp as [Hp _]. apply Z.leb_le in Hp. lia. }
      lia.
    + intros Hlow.
      assert (Hm : ¬ (40 ≤ m)%Z).
      { intros Hge.
        assert (Hc : (0 < Tasks.count_if (λ s, (80 <=? s)%Z) (s0 :: srest)
                        + Tasks.count_if (λ s, (40 <=? s)%Z && (s <? 80)%Z) (s0 :: srest))%nat).
        { destruct (Z_lt_le_dec m 80).
          - assert (0 < Tasks.count_if (λ s, (40 <=? s)%Z && (s <? 80)%Z) (s0 :: srest))%nat; [| lia].
            apply count_if_pos. exists m. split; [exact Hat |].
            apply andb_true_iff. split; [apply Z.leb_le | apply Z.ltb_lt]; lia.
          - assert (0 < Tasks.count_if (λ s, (80 <=? s)%Z) (s0 :: srest))%nat; [| lia].
            apply count_if_pos. exists m. split; [exact Hat | apply Z.leb_le; lia]. }
        lia. }
      destruct (80 <=? m)%Z eqn:E1; [apply Z.leb_le in E1; lia |].
      destruct (40 <=? m)%Z eqn:E2; [apply Z.leb_le in E2; lia |]. reflexivity.
Qed.

Lemma sum_default (l : list finding) :
  foldr Z.add 0%Z (Tasks.scores_of (map (set_risk Tasks.default_risk) l))
  = (50 * Z.of_nat (length l))%Z.
Proof.
  induction l as [| f l IH]; [reflexivity |].
  change (50 + foldr Z.add 0 (Tasks.scores_of (map (set_risk Tasks.default_risk) l))
          = 50 * Z.of_nat (S (length l)))%Z.
  rewrite IH. lia.
Qed.

Lemma max_default (l : list finding) :
  Tasks.max_of 50 (Tasks.scores_of (map (set_risk Tasks.default_risk) l)) = 50%Z.
Proof.
  unfold Tasks.max_of. induction l as [| f l IH]; [reflexivity |]. simpl. exact IH.
Qed.

Lemma count_default (p : Z → bool) (l : list finding) :
  Tasks.count_if p (Tasks.scores_of (map (set_risk Tasks.default_risk) l))
  = if p 50%Z then length l else 0%nat.
Proof.
  unfold Tasks.count_if. induction l as [| f l IH]; simpl.
  - destruct (p 50%Z); reflexivity.
  - destruct (p 50%Z) eqn:E; simpl; rewrite IH; reflexivity.
Qed.


End RiskTaskFacts.

